(** * edison-sockets: a TCP echo client and server

    Shallow embedding of [src/client.c] and [src/server.c].

    The two programs talk to the operating system only through the socket
    API and [printf].  Each [main] is embedded as a computation in a small
    monad [M] that reads the completions of its system calls from a script
    (what the OS answers, in order) and writes a trace of the calls it
    makes and the lines it prints.  C control flow that leaves a block
    ([return], [goto cleanup]) is an abrupt outcome of the monad. *)

From Stdlib Require Import ZArith String Ascii List Bool Lia.
From Stdlib.Strings Require Import Byte.
Import ListNotations.
Open Scope string_scope.
Open Scope list_scope.
Open Scope Z_scope.

(* ================================================================== *)
(** ** C integers *)

(** Conversion to [int] (32 bits, two's complement). *)
Definition int_of (z : Z) : Z := (z + 2147483648) mod 4294967296 - 2147483648.

Definition INT_MAX : Z := 2147483647.

(** The two data models the programs are built for: the Edison's IA-32
    (ILP32) and x86-64 (LP64).  [size_t] and pointers have the same width. *)
Inductive data_model := ILP32 | LP64.

Definition sizeof_ptr (dm : data_model) : nat :=
  match dm with ILP32 => 4%nat | LP64 => 8%nat end.

Definition size_t_modulus (dm : data_model) : Z :=
  match dm with ILP32 => 4294967296 | LP64 => 18446744073709551616 end.

(** Conversion to [size_t]. *)
Definition size_t_of (dm : data_model) (z : Z) : Z := z mod size_t_modulus dm.

(** [htons] on a little-endian host: convert to [uint16_t], swap the bytes. *)
Definition htons (x : Z) : Z :=
  let x16 := x mod 65536 in (x16 mod 256) * 256 + x16 / 256.

(* ================================================================== *)
(** ** Bytes and C strings *)

Definition byte_of_Z (z : Z) : byte :=
  match Byte.of_N (Z.to_N (z mod 256)) with
  | Some b => b
  | None => x00
  end.

(** The [n] bytes of [z], least significant first. *)
Fixpoint le_bytes (n : nat) (z : Z) : list byte :=
  match n with
  | O => []
  | S n' => byte_of_Z z :: le_bytes n' (z / 256)
  end.

(** Overwrite the front of [buf] with [bs]. *)
Definition store_bytes (buf bs : list byte) : list byte :=
  bs ++ skipn (length bs) buf.

(** Overwrite [buf[i]] with [b]; nothing is stored when [i] is not an index
    of [buf]. *)
Fixpoint store_byte (buf : list byte) (i : nat) (b : byte) : list byte :=
  match buf, i with
  | [], _ => []
  | _ :: tl, O => b :: tl
  | hd :: tl, S i' => hd :: store_byte tl i' b
  end.

(** A [char*] value: the address it holds and the characters found there
    before the terminating NUL. *)
Record cstr := Cstr { ptr : Z; chars : string }.

Definition strlen (s : cstr) : Z := Z.of_nat (String.length (chars s)).

(** [strcmp(a, lit) == 0] *)
Definition strcmp_eq0 (a : cstr) (lit : string) : bool := String.eqb (chars a) lit.

Definition nl : string := String (ascii_of_nat 10) EmptyString.
Definition dquote : string := String (ascii_of_nat 34) EmptyString.

(** *** [atoi]: optional white space, optional sign, decimal digits.
    The value is converted to [int]; the C standard leaves the result
    undefined when it is not representable. *)
Definition isspace (c : ascii) : bool :=
  let n := nat_of_ascii c in
  (n =? 32)%nat || ((9 <=? n)%nat && (n <=? 13)%nat).

Definition digit_of (c : ascii) : option Z :=
  let n := Z.of_nat (nat_of_ascii c) in
  if (48 <=? n) && (n <=? 57) then Some (n - 48) else None.

Fixpoint skip_space (s : string) : string :=
  match s with
  | String c s' => if isspace c then skip_space s' else s
  | EmptyString => s
  end.

Fixpoint digits (acc : Z) (s : string) : Z :=
  match s with
  | String c s' =>
      match digit_of c with
      | Some d => digits (10 * acc + d) s'
      | None => acc
      end
  | EmptyString => acc
  end.

Definition atoi (s : string) : Z :=
  match skip_space s with
  | String "-" s' => int_of (- digits 0 s')
  | String "+" s' => int_of (digits 0 s')
  | s' => int_of (digits 0 s')
  end.

(* ================================================================== *)
(** ** The operating system interface *)

Definition AF_INET : Z := 2.
Definition SOCK_STREAM : Z := 1.
Definition INADDR_ANY : Z := 0.

(** [struct sockaddr_in]: family, port in network byte order, and the
    bytes of [sin_addr] as they lie in memory. *)
Record sockaddr_in := Sockaddr_in {
  sin_family : Z;
  sin_port : Z;
  sin_addr : list byte
}.

Definition sockaddr_zero : sockaddr_in := Sockaddr_in 0 0 (le_bytes 4 0).

(** The calls the two programs make.  [send] carries the [len] bytes found
    at the buffer address it is given. *)
Inductive syscall :=
| socket (domain type protocol : Z)
| gethostbyname (name : string)
| connect (sockfd : Z) (addr : sockaddr_in)
| bind (sockfd : Z) (addr : sockaddr_in)
| listen (sockfd backlog : Z)
| accept (sockfd : Z)
| send (sockfd : Z) (buf : list byte) (len flags : Z)
| recv (sockfd : Z) (len flags : Z)
| close (fd : Z).

(** What a call answers: the value it returns ([gethostbyname]: the
    pointer, 0 for NULL), the bytes it stores through the buffer it was
    given ([recv]: the data; [gethostbyname]: [h_addr], [h_length] being
    their number), and the peer address [accept] fills in. *)
Record response := Response {
  r_ret : Z;
  r_bytes : list byte;
  r_peer : sockaddr_in
}.

Definition returns (n : Z) : response := Response n [] sockaddr_zero.
Definition returns_bytes (n : Z) (bs : list byte) : response :=
  Response n bs sockaddr_zero.
Definition returns_peer (fd : Z) (peer : sockaddr_in) : response :=
  Response fd [] peer.

Inductive stream := stdout | stderr.

(** Arguments of a [printf]: an [int], or a [char*] ([None] is NULL). *)
Inductive fmt_arg :=
| Arg_int (n : Z)
| Arg_str (s : option string).

(** One entry of a run's trace.  [Ev_sys c None] is a call the OS never
    completes: the process stays blocked in it. *)
Inductive event :=
| Ev_sys (c : syscall) (r : option response)
| Ev_print (f : stream) (fmt : string) (args : list fmt_arg).

(** How a piece of code ends other than by falling through. *)
Inductive abrupt :=
| Goto_cleanup (ret : Z)   (* [ret = ...; goto cleanup;] *)
| Return (status : Z)      (* [return status;] from [main] *)
| Blocked                  (* waiting for a call that never completes *)
| Fault                    (* an access outside an object *)
| Out_of_fuel.

Inductive outcome (A : Type) :=
| Normal (a : A)
| Abrupt (x : abrupt).
Arguments Normal {A} a.
Arguments Abrupt {A} x.

(** A computation takes the script of completions still to come and gives
    its outcome, the events it produced, and the script it left. *)
Definition M (A : Type) : Type :=
  list response -> outcome A * list event * list response.

Definition pure {A} (a : A) : M A := fun s => (Normal a, [], s).

Definition abort {A} (x : abrupt) : M A := fun s => (Abrupt x, [], s).

(** Put an event in front of the trace of a result. *)
Definition emit {A} (e : event) (x : outcome A * list event * list response)
  : outcome A * list event * list response :=
  match x with
  | (o, t, s) => (o, e :: t, s)
  end.

Definition bnd {A B} (m : M A) (k : A -> M B) : M B := fun s =>
  match m s with
  | (Normal a, t1, s1) =>
      match k a s1 with
      | (o, t2, s2) => (o, t1 ++ t2, s2)
      end
  | (Abrupt x, t1, s1) => (Abrupt x, t1, s1)
  end.

Notation "x <- m ;; k" := (bnd m (fun x => k))
  (at level 61, m at next level, right associativity).
Notation "m ;; k" := (bnd m (fun _ => k))
  (at level 61, right associativity).

Definition sys (c : syscall) : M response := fun s =>
  match s with
  | [] => (Abrupt Blocked, [Ev_sys c None], [])
  | r :: s' => (Normal r, [Ev_sys c (Some r)], s')
  end.

Definition fprintf (f : stream) (fmt : string) (args : list fmt_arg) : M unit :=
  fun s => (Normal tt, [Ev_print f fmt args], s).

Definition printf := fprintf stdout.

Definition return_ {A} (status : Z) : M A := abort (Return status).
Definition goto_cleanup {A} (ret : Z) : M A := abort (Goto_cleanup ret).

(** Loops recurse on fuel; every iteration of every loop below completes a
    call first, so one more than the length of the script is enough. *)
Definition with_fuel {A} (body : nat -> M A) : M A :=
  fun s => body (S (length s)) s.

(** The code after the label [cleanup:] runs when [body] jumps to it. *)
Definition at_cleanup {A} (body : M A) (cleanup : Z -> M A) : M A := fun s =>
  match body s with
  | (Abrupt (Goto_cleanup ret), t1, s1) =>
      match cleanup ret s1 with
      | (o, t2, s2) => (o, t1 ++ t2, s2)
      end
  | r => r
  end.

(** Result of the argument loop: the locals it set, or the index at which
    it read [argv] outside [argv[0 .. argc-1]].  ([argv[argc]] is a null
    pointer in C; [main] goes on to hand it to [strlen], [gethostbyname]
    or [printf], which is undefined, so such a run is not followed.) *)
Inductive parse_result (A : Type) :=
| Parsed (locals : A)
| Argv_overrun (idx : nat)
| Parse_out_of_fuel.
Arguments Parsed {A} locals.
Arguments Argv_overrun {A} idx.
Arguments Parse_out_of_fuel {A}.

Definition str_arg (s : cstr) : fmt_arg := Arg_str (Some (chars s)).
Definition opt_str_arg (s : option cstr) : fmt_arg := Arg_str (option_map chars s).

Definition line (s : string) : string := (s ++ nl)%string.
Definition quoted (s : string) : string := (dquote ++ s ++ dquote)%string.

(** Where the compiler and loader put what [client.c] takes the address
    of: the two string literals, and what lies in [main]'s frame behind the
    variable [message]. *)
Record platform := Platform {
  model : data_model;
  lit_localhost : Z;
  lit_hello_world : Z;
  stack_after_message : nat -> byte
}.

(** The object representation of a pointer. *)
Definition ptr_repr (dm : data_model) (p : Z) : list byte :=
  le_bytes (sizeof_ptr dm) p.

(* ================================================================== *)
(** ** client.c *)

Module Client.

(** The locals of [main] that the argument loop assigns. *)
Record locals := Locals {
  hostname : cstr;
  message : cstr;
  port_number : Z
}.

Section Program.

Variable pf : platform.

Definition initial_locals : locals :=
  Locals (Cstr (lit_localhost pf) "localhost")
         (Cstr (lit_hello_world pf) "hello world")
         (-1).

(** client.c:44-55 *)
Fixpoint parse_loop (fuel : nat) (argv : list cstr) (idx : nat) (l : locals)
  : parse_result locals :=
  if (idx <? length argv)%nat then
    match fuel with
    | O => Parse_out_of_fuel
    | S fuel' =>
        match nth_error argv idx with
        | None => Argv_overrun idx
        | Some arg =>
            if strcmp_eq0 arg "--hostname" then
              let idx := S idx in
              match nth_error argv idx with
              | None => Argv_overrun idx
              | Some v =>
                  parse_loop fuel' argv (S idx)
                    (Locals v (message l) (port_number l))
              end
            else if strcmp_eq0 arg "--message" then
              let idx := S idx in
              match nth_error argv idx with
              | None => Argv_overrun idx
              | Some v =>
                  parse_loop fuel' argv (S idx)
                    (Locals (hostname l) v (port_number l))
              end
            else
              parse_loop fuel' argv (S idx)
                (Locals (hostname l) (message l) (atoi (chars arg)))
        end
    end
  else Parsed l.

Definition parse_args (argv : list cstr) : parse_result locals :=
  parse_loop (length argv) argv 1 initial_locals.

(** client.c:150-162 *)
Definition show_usage (progname : option cstr) : M unit :=
  printf
    (line "Usage: %s [options] <listening port number>" ++
     line "Options:" ++
     line ("--hostname <hostname>: the hostname to use, defualts to "
           ++ quoted "localhost") ++
     line "--message <message>: the message to send to the server")%string
    [opt_str_arg progname].

(** The [len] bytes at [&message]: the pointer held by the variable, then
    whatever follows it in the frame. *)
Definition bytes_at_addr_of_message (message : cstr) (len : Z) : list byte :=
  firstn (Z.to_nat len)
    (ptr_repr (model pf) (ptr message)
     ++ map (stack_after_message pf) (seq 0 (Z.to_nat len))).

(** client.c:110-144 *)
Fixpoint recv_loop (fuel : nat)
    (sockfd message_len rx_buffer_len total_received : Z)
    (rx_buffer : list byte) : M (Z * list byte) :=
  if total_received <? message_len then
    match fuel with
    | O => abort Out_of_fuel
    | S fuel' =>
        let chars_remaining := int_of (message_len - total_received) in
        let chars_request := chars_remaining in
        let chars_request :=
          if size_t_of (model pf) chars_request >? rx_buffer_len
          then int_of rx_buffer_len
          else chars_request in
        let len := size_t_of (model pf) chars_request in
        r <- sys (recv sockfd len 0) ;;
        let chars_received := int_of (r_ret r) in
        let rx_buffer :=
          store_bytes rx_buffer (firstn (Z.to_nat len) (r_bytes r)) in
        if chars_received <? 0 then
          fprintf stderr (line "ERROR receiving message") [] ;;
          return_ 1
        else if negb (chars_received =? chars_request) then
          fprintf stderr
            (line "ERROR: expected to read %d chars but actually read %d")
            [Arg_int chars_request; Arg_int chars_received] ;;
          return_ 1
        else
          let total_received := int_of (total_received + chars_received) in
          let rx_buffer := store_byte rx_buffer (Z.to_nat rx_buffer_len) x00 in
          printf "%s" [] ;;
          recv_loop fuel' sockfd message_len rx_buffer_len total_received
            rx_buffer
    end
  else pure (total_received, rx_buffer).

(** client.c:21-148 *)
Definition main (argv : list cstr) : M unit :=
  let argc := Z.of_nat (length argv) in
  let progname := nth_error argv 0 in
  if argc <? 2 then
    fprintf stderr (line "ERROR: not enough arguments supplied") [] ;;
    show_usage progname ;;
    return_ 1
  else
    match parse_args argv with
    | Argv_overrun _ | Parse_out_of_fuel => abort Fault
    | Parsed (Locals hostname message port_number) =>
        r <- sys (socket AF_INET SOCK_STREAM 0) ;;
        let sockfd := int_of (r_ret r) in
        if sockfd <? 0 then
          fprintf stderr (line "ERROR creating socket") [] ;;
          return_ 1
        else
        server <- sys (gethostbyname (chars hostname)) ;;
        if r_ret server =? 0 then
          fprintf stderr (line "ERROR, no such host") [] ;;
          return_ 1
        else
        let serv_addr :=
          Sockaddr_in AF_INET (htons port_number) (r_bytes server) in
        printf (line "connecting to server at %s:%d")
          [str_arg hostname; Arg_int port_number] ;;
        r <- sys (connect sockfd serv_addr) ;;
        let ret := int_of (r_ret r) in
        if ret <? 0 then
          fprintf stderr (line "ERROR connecting to server") [] ;;
          return_ 1
        else
        printf (line ("sending message: " ++ quoted "%s")) [str_arg message] ;;
        let message_len := int_of (strlen message) in
        let len := size_t_of (model pf) message_len in
        r <- sys (send sockfd (bytes_at_addr_of_message message len) len 0) ;;
        let chars_sent := int_of (r_ret r) in
        if chars_sent <? 0 then
          fprintf stderr (line "ERROR sending message") [] ;;
          return_ 1
        else if negb (chars_sent =? message_len) then
          fprintf stderr
            (line ("ERROR: expected to send %d characters but actually sent %d "
                   ++ "characters"))
            [Arg_int message_len; Arg_int chars_sent] ;;
          return_ 1
        else
        printf ("receiving response: " ++ dquote)%string [] ;;
        let rx_buffer_len := size_t_of (model pf) message_len in
        let rx_buffer := repeat x00 (Z.to_nat (rx_buffer_len + 1)) in
        let total_received := 0 in
        with_fuel (fun fuel =>
          recv_loop fuel sockfd message_len rx_buffer_len total_received
            rx_buffer) ;;
        printf (line dquote) [] ;;
        return_ 0
    end.

End Program.
End Client.

(* ================================================================== *)
(** ** server.c *)

Module Server.

(** The locals of [main] that the argument loop assigns. *)
Record locals := Locals {
  hostname : cstr;
  port_number : Z
}.

Section Program.

Variable pf : platform.

Definition initial_locals : locals :=
  Locals (Cstr (lit_localhost pf) "localhost") (-1).

(** server.c:59-67 *)
Fixpoint parse_loop (fuel : nat) (argv : list cstr) (idx : nat) (l : locals)
  : parse_result locals :=
  if (idx <? length argv)%nat then
    match fuel with
    | O => Parse_out_of_fuel
    | S fuel' =>
        match nth_error argv idx with
        | None => Argv_overrun idx
        | Some arg =>
            if strcmp_eq0 arg "--hostname" then
              let idx := S idx in
              match nth_error argv idx with
              | None => Argv_overrun idx
              | Some v => parse_loop fuel' argv (S idx) (Locals v (port_number l))
              end
            else
              parse_loop fuel' argv (S idx)
                (Locals (hostname l) (atoi (chars arg)))
        end
    end
  else Parsed l.

Definition parse_args (argv : list cstr) : parse_result locals :=
  parse_loop (length argv) argv 1 initial_locals.

(** server.c:152-163 *)
Definition show_usage (progname : option cstr) : M unit :=
  printf
    (line "Usage: %s [options] <listening port number>" ++
     line "Options:" ++
     line ("--hostname <hostname>: the hostname to use, defualts to "
           ++ quoted "localhost"))%string
    [opt_str_arg progname].

(** server.c:177-224.  The result is [ret] and what was stored through
    [listening_sockfd_out], if anything ([listening_sockfd_out] is [true]
    for a pointer that is not NULL). *)
Definition start_server (hostname : cstr) (port_number listen_backlog : Z)
    (listening_sockfd_out : bool) : M (Z * option Z) :=
  r <- sys (socket AF_INET SOCK_STREAM 0) ;;
  let server_sockfd := int_of (r_ret r) in
  if server_sockfd <? 0 then
    fprintf stderr (line "ERROR opening listening socket") [] ;;
    pure (1, None)
  else
  let serv_addr :=
    Sockaddr_in AF_INET (htons port_number) (le_bytes 4 INADDR_ANY) in
  r <- sys (bind server_sockfd serv_addr) ;;
  let ret := int_of (r_ret r) in
  if ret <? 0 then
    fprintf stderr (line "ERROR on binding listening socket") [] ;;
    pure (ret, None)
  else
  r <- sys (listen server_sockfd listen_backlog) ;;
  let ret := int_of (r_ret r) in
  if negb (0 =? ret) then
    fprintf stderr (line "ERROR listening on the socket") [] ;;
    pure (ret, None)
  else
  pure (ret, if listening_sockfd_out then Some server_sockfd else None).

(** server.c:232-239 *)
Definition stop_server (server_sockfd : Z) : M Z :=
  r <- sys (close server_sockfd) ;;
  pure (int_of (r_ret r)).

Definition echo_buffer_len : Z := 512.

(** server.c:117-139.  Falling out of the function is the [break]. *)
Fixpoint echo_loop (fuel : nat) (client_sockfd : Z) (echo_buffer : list byte)
  : M unit :=
  match fuel with
  | O => abort Out_of_fuel
  | S fuel' =>
      r <- sys (recv client_sockfd echo_buffer_len 0) ;;
      let chars_received := int_of (r_ret r) in
      let echo_buffer :=
        store_bytes echo_buffer
          (firstn (Z.to_nat echo_buffer_len) (r_bytes r)) in
      if 0 =? chars_received then
        printf (line "connection to client closed." ++
                line "waiting for next connection.")%string [] ;;
        pure tt
      else if chars_received <? 0 then
        fprintf stderr
          (line "ERROR: failed to receive characters from the client. (%d)")
          [Arg_int chars_received] ;;
        goto_cleanup 1
      else
        r <- sys (send client_sockfd
                    (firstn (Z.to_nat chars_received) echo_buffer)
                    (size_t_of (model pf) chars_received) 0) ;;
        let chars_sent := int_of (r_ret r) in
        if chars_sent <? 0 then
          fprintf stderr
            (line "ERROR: failed send characters back to client.") [] ;;
          goto_cleanup 1
        else
          echo_loop fuel' client_sockfd echo_buffer
  end.

(** server.c:92-140 *)
Fixpoint accept_loop (fuel : nat) (server_sockfd : Z) : M unit :=
  match fuel with
  | O => abort Out_of_fuel
  | S fuel' =>
      r <- sys (accept server_sockfd) ;;
      let client_sockfd := int_of (r_ret r) in
      let client_addr := r_peer r in
      if client_sockfd <? 0 then
        fprintf stderr (line "ERROR: failed to accept the client") [] ;;
        goto_cleanup 1
      else
        printf (line "connected to client: %d (%d)")
          [Arg_int client_sockfd; Arg_int (sin_port client_addr)] ;;
        let echo_buffer := repeat x00 (Z.to_nat echo_buffer_len) in
        echo_loop fuel' client_sockfd echo_buffer ;;
        accept_loop fuel' server_sockfd
  end.

(** server.c:37-150 *)
Definition main (argv : list cstr) : M unit :=
  let argc := Z.of_nat (length argv) in
  let progname := nth_error argv 0 in
  if argc <? 2 then
    fprintf stderr (line "ERROR: not enough arguments supplied") [] ;;
    show_usage progname ;;
    return_ 1
  else
    match parse_args argv with
    | Argv_overrun _ | Parse_out_of_fuel => abort Fault
    | Parsed (Locals hostname port_number) =>
        if port_number <=? 0 then
          fprintf stderr (line "ERROR: invalid port number: %d")
            [Arg_int port_number] ;;
          show_usage progname ;;
          return_ 1
        else
        printf (line "Starting server at %s:%d")
          [str_arg hostname; Arg_int port_number] ;;
        started <- start_server hostname port_number 5 true ;;
        let ret := fst started in
        if negb (0 =? ret) then
          fprintf stderr (line "ERROR: failed to start server") [] ;;
          return_ 1
        else
        match snd started with
        | None => abort Fault
        | Some server_sockfd =>
            at_cleanup
              (with_fuel (fun fuel => accept_loop fuel server_sockfd) ;;
               goto_cleanup 0)
              (fun ret => stop_server server_sockfd ;; return_ ret)
        end
    end.

End Program.
End Server.

(* ================================================================== *)
(** ** Observations on runs *)

Definition outcome_of {A} (x : outcome A * list event * list response)
  : outcome A := fst (fst x).
Definition trace_of {A} (x : outcome A * list event * list response)
  : list event := snd (fst x).
Definition rest_of {A} (x : outcome A * list event * list response)
  : list response := snd x.

(** The system calls of a trace, in order. *)
Fixpoint syscalls (t : list event) : list syscall :=
  match t with
  | [] => []
  | Ev_sys c _ :: t' => c :: syscalls t'
  | Ev_print _ _ _ :: t' => syscalls t'
  end.

(** The descriptors a trace closes, in order. *)
Fixpoint closes (t : list event) : list Z :=
  match t with
  | [] => []
  | Ev_sys (close fd) _ :: t' => fd :: closes t'
  | _ :: t' => closes t'
  end.

(** The descriptors a trace obtains from [accept]. *)
Fixpoint accepted (t : list event) : list Z :=
  match t with
  | [] => []
  | Ev_sys (accept _) (Some r) :: t' =>
      if int_of (r_ret r) <? 0 then accepted t'
      else int_of (r_ret r) :: accepted t'
  | _ :: t' => accepted t'
  end.

(** The byte counts a trace asks of [recv], in order. *)
Fixpoint recv_requests (t : list event) : list Z :=
  match t with
  | [] => []
  | Ev_sys (recv _ len _) _ :: t' => len :: recv_requests t'
  | _ :: t' => recv_requests t'
  end.

(** The byte counts the completed [recv] calls of a trace returned. *)
Fixpoint recv_counts (t : list event) : list Z :=
  match t with
  | [] => []
  | Ev_sys (recv _ _ _) (Some r) :: t' => int_of (r_ret r) :: recv_counts t'
  | _ :: t' => recv_counts t'
  end.

(** Successive requests, each the smaller of what remains and the
    capacity, each leaving strictly less to ask for. *)
Fixpoint requests_follow (capacity remaining : Z) (qs : list Z) : Prop :=
  match qs with
  | [] => True
  | q :: qs' =>
      q = Z.min remaining capacity /\
      remaining - q < remaining /\
      requests_follow capacity (remaining - q) qs'
  end.

(** [R] relates every event of [t] to what comes before it and what comes
    after it in [t]. *)
Definition at_each_event (R : list event -> event -> list event -> Prop)
    (t : list event) : Prop :=
  forall pre e post, t = pre ++ e :: post -> R pre e post.

Definition total_of (counts : list Z) : Z := fold_right Z.add 0 counts.

(** [ntohs] on a little-endian host. *)
Definition ntohs (x : Z) : Z := htons x.

(** The payloads a trace hands to [send], in order. *)
Fixpoint sent (t : list event) : list (list byte) :=
  match t with
  | [] => []
  | Ev_sys (send _ buf _ _) _ :: t' => buf :: sent t'
  | _ :: t' => sent t'
  end.

(** The bytes the completed [recv] calls of a trace stored. *)
Fixpoint received (t : list event) : list (list byte) :=
  match t with
  | [] => []
  | Ev_sys (recv _ len _) (Some r) :: t' =>
      firstn (Z.to_nat len) (r_bytes r) :: received t'
  | _ :: t' => received t'
  end.

(** The format strings a trace prints on stderr. *)
Fixpoint stderr_lines (t : list event) : list string :=
  match t with
  | [] => []
  | Ev_print stderr fmt _ :: t' => fmt :: stderr_lines t'
  | _ :: t' => stderr_lines t'
  end.

(** *** Lines of server.c *)

Definition closed_line : string :=
  (line "connection to client closed." ++ line "waiting for next connection.")%string.

Definition recv_failed_line : string :=
  line "ERROR: failed to receive characters from the client. (%d)".

Definition accept_failed_line : string :=
  line "ERROR: failed to accept the client".

Definition connected_line : string := line "connected to client: %d (%d)".

(** *** What the runs are compared with *)


(** The line the client prints when a call has failed, if it has. *)
Definition client_failure (c : syscall) (r : response) : option string :=
  match c with
  | socket _ _ _ =>
      if int_of (r_ret r) <? 0 then Some (line "ERROR creating socket")
      else None
  | gethostbyname _ =>
      if r_ret r =? 0 then Some (line "ERROR, no such host") else None
  | connect _ _ =>
      if int_of (r_ret r) <? 0 then Some (line "ERROR connecting to server")
      else None
  | send _ _ _ _ =>
      if int_of (r_ret r) <? 0 then Some (line "ERROR sending message")
      else None
  | recv _ _ _ =>
      if int_of (r_ret r) <? 0 then Some (line "ERROR receiving message")
      else None
  | _ => None
  end.

Definition send_failed_line : string :=
  line "ERROR: failed send characters back to client.".

(** What holds of an event of the Echo Loop for the client
    [client_sockfd], given what the loop did before it and after it and
    how the loop ended. *)
Definition echo_event_ok (client_sockfd : Z) (o : outcome unit)
    (pre : list event) (e : event) (post : list event) : Prop :=
  match e with
  | Ev_sys (recv fd len flags) _ =>
      fd = client_sockfd /\ len = 512 /\ flags = 0
  | Ev_sys (send fd buf len flags) x =>
      fd = client_sockfd /\ flags = 0 /\
      (exists pre' r,
          pre = pre' ++ [Ev_sys (recv client_sockfd 512 0) (Some r)] /\
          0 < int_of (r_ret r) /\
          len = int_of (r_ret r) /\
          (Z.of_nat (length (r_bytes r)) = int_of (r_ret r) ->
           int_of (r_ret r) <= 512 ->
           buf = r_bytes r)) /\
      (forall r',
          x = Some r' ->
          (int_of (r_ret r') < 0 ->
           post = [Ev_print stderr send_failed_line []] /\
           o = Abrupt (Goto_cleanup 1)) /\
          (0 <= int_of (r_ret r') ->
           exists y post',
             post = Ev_sys (recv client_sockfd 512 0) y :: post'))
  | Ev_sys _ _ => False
  | Ev_print _ _ _ => True
  end.

(** What holds of an event of the accept loop on the listening socket
    [server_sockfd]. *)
Definition serve_event_ok (server_sockfd : Z) (o : outcome unit)
    (pre : list event) (e : event) (post : list event) : Prop :=
  match e with
  | Ev_sys (accept fd) x =>
      fd = server_sockfd /\
      (forall r,
          x = Some r ->
          (int_of (r_ret r) < 0 ->
           post = [Ev_print stderr accept_failed_line []] /\
           o = Abrupt (Goto_cleanup 1)) /\
          (0 <= int_of (r_ret r) ->
           exists y post',
             post = Ev_print stdout connected_line
                      [Arg_int (int_of (r_ret r));
                       Arg_int (sin_port (r_peer r))]
                    :: Ev_sys (recv (int_of (r_ret r)) 512 0) y :: post'))
  | Ev_sys (recv fd len flags) _ =>
      (exists earlier, accepted pre = earlier ++ [fd]) /\
      echo_event_ok fd o pre e post
  | Ev_sys (send fd buf len flags) x =>
      (exists earlier, accepted pre = earlier ++ [fd]) /\
      echo_event_ok fd o pre e post
  | Ev_sys _ _ => False
  | Ev_print _ _ _ => True
  end.

(** What holds of an event of a whole run of the server that ended in
    [o]: [serve_event_ok] with the listening socket found in the run and
    the cleanup behind the loop added. *)
Definition main_event_ok (o : outcome unit)
    (pre : list event) (e : event) (post : list event) : Prop :=
  match e with
  | Ev_sys (accept fd) x =>
      (exists rl, In (Ev_sys (listen fd 5) (Some rl)) pre) /\
      (forall r,
          x = Some r ->
          (int_of (r_ret r) < 0 ->
           exists y,
             post = [Ev_print stderr accept_failed_line [];
                     Ev_sys (close fd) y] /\
             o = match y with
                 | Some _ => Abrupt (Return 1)
                 | None => Abrupt Blocked
                 end) /\
          (0 <= int_of (r_ret r) ->
           exists y post',
             post = Ev_print stdout connected_line
                      [Arg_int (int_of (r_ret r));
                       Arg_int (sin_port (r_peer r))]
                    :: Ev_sys (recv (int_of (r_ret r)) 512 0) y :: post'))
  | Ev_sys (recv fd len flags) _ =>
      (exists earlier, accepted pre = earlier ++ [fd]) /\
      len = 512 /\ flags = 0
  | Ev_sys (send fd buf len flags) x =>
      (exists earlier, accepted pre = earlier ++ [fd]) /\
      flags = 0 /\
      (exists pre' r,
          pre = pre' ++ [Ev_sys (recv fd 512 0) (Some r)] /\
          0 < int_of (r_ret r) /\
          len = int_of (r_ret r) /\
          (Z.of_nat (length (r_bytes r)) = int_of (r_ret r) ->
           int_of (r_ret r) <= 512 ->
           buf = r_bytes r)) /\
      (forall r',
          x = Some r' ->
          (int_of (r_ret r') < 0 ->
           exists server_sockfd rl y,
             In (Ev_sys (listen server_sockfd 5) (Some rl)) pre /\
             post = [Ev_print stderr send_failed_line [];
                     Ev_sys (close server_sockfd) y] /\
             o = match y with
                 | Some _ => Abrupt (Return 1)
                 | None => Abrupt Blocked
                 end) /\
          (0 <= int_of (r_ret r') ->
           exists y post',
             post = Ev_sys (recv fd 512 0) y :: post'))
  | _ => True
  end.

(** The line [start_server] prints when a call has failed, if it has
    (server.c:186-216). *)
Definition start_failure (c : syscall) (r : response) : option string :=
  match c with
  | socket _ _ _ =>
      if int_of (r_ret r) <? 0
      then Some (line "ERROR opening listening socket") else None
  | bind _ _ =>
      if int_of (r_ret r) <? 0
      then Some (line "ERROR on binding listening socket") else None
  | listen _ _ =>
      if negb (0 =? int_of (r_ret r))
      then Some (line "ERROR listening on the socket") else None
  | _ => None
  end.

(* ================================================================== *)
(** ** Scenarios *)

(** An x86-64 Linux process: literals in .rodata, [argv] strings at the top
    of the stack, zeros behind [message] in [main]'s frame. *)
Definition lp64 : platform := Platform LP64 0x4009c4 0x4009ce (fun _ => x00).

Definition loopback : list byte := [x7f; x00; x00; x01].

(** *** [client --hostname localhost --message "hello world" 9000] *)

Definition hello_message : cstr := Cstr 0x7ffd8a2be5e6 "hello world".

Definition hello_argv : list cstr :=
  [Cstr 0x7ffd8a2be5c0 "client";
   Cstr 0x7ffd8a2be5c7 "--hostname";
   Cstr 0x7ffd8a2be5d2 "localhost";
   Cstr 0x7ffd8a2be5dc "--message";
   hello_message;
   Cstr 0x7ffd8a2be5f2 "9000"].

Definition hello_locals : Client.locals :=
  Client.Locals (Cstr 0x7ffd8a2be5d2 "localhost") hello_message 9000.

(** The 11 bytes at [&message]: the pointer 0x7ffd8a2be5e6, then 3 bytes
    of the frame. *)
Definition hello_sent : list byte :=
  [xe6; xe5; x2b; x8a; xfd; x7f; x00; x00; x00; x00; x00].

(** The server is listening and echoes what it is sent. *)
Definition hello_script : list response :=
  [returns 3; returns_bytes 1 loopback; returns 0; returns 11;
   returns_bytes 11 hello_sent].

(** The same on the Edison (IA-32 Linux). *)
Definition ilp32 : platform := Platform ILP32 0x80487c4 0x80487ce (fun _ => x00).

Definition hello_message32 : cstr := Cstr 0xbffff5e6 "hello world".

Definition hello_argv32 : list cstr :=
  [Cstr 0xbffff5c0 "client";
   Cstr 0xbffff5c7 "--hostname";
   Cstr 0xbffff5d2 "localhost";
   Cstr 0xbffff5dc "--message";
   hello_message32;
   Cstr 0xbffff5f2 "9000"].

(** The 11 bytes at [&message]: the pointer 0xbffff5e6, then 7 bytes of the
    frame. *)
Definition hello_sent32 : list byte :=
  [xe6; xf5; xff; xbf; x00; x00; x00; x00; x00; x00; x00].

Definition hello_script32 : list response :=
  [returns 3; returns_bytes 1 loopback; returns 0; returns 11;
   returns_bytes 11 hello_sent32].

(** [send] takes 7 of the 11 bytes. *)
Definition short_send_script : list response :=
  [returns 3; returns_bytes 1 loopback; returns 0; returns 7].

(** [recv] gives 4 of the 11 bytes asked for. *)
Definition short_recv_script : list response :=
  [returns 3; returns_bytes 1 loopback; returns 0; returns 11;
   returns_bytes 4 [xe6; xe5; x2b; x8a]].

(** *** [client --message "" 9000] *)

Definition empty_message_argv : list cstr :=
  [Cstr 0x7ffd8a2be5c0 "client";
   Cstr 0x7ffd8a2be5c7 "--message";
   Cstr 0x7ffd8a2be5d1 EmptyString;
   Cstr 0x7ffd8a2be5d2 "9000"].

Definition empty_message_locals : Client.locals :=
  Client.Locals (Cstr 0x4009c4 "localhost") (Cstr 0x7ffd8a2be5d1 EmptyString)
    9000.

Definition empty_message_script : list response :=
  [returns 3; returns_bytes 1 loopback; returns 0; returns 0].

(** *** The receive loop with 11 bytes to get through a capacity of 4 *)

Definition chunked_script : list response :=
  [returns_bytes 4 [x68; x65; x6c; x6c];
   returns_bytes 4 [x6f; x20; x77; x6f];
   returns_bytes 3 [x72; x6c; x64]].

(** *** A flag with nothing behind it *)

Definition client_argv_before_flag : list cstr :=
  [Cstr 0x7ffd8a2be5c0 "client"; Cstr 0x7ffd8a2be5c7 "9000"].

Definition trailing_message_flag : cstr := Cstr 0x7ffd8a2be5cc "--message".

Definition server_argv_before_flag : list cstr :=
  [Cstr 0x7ffc3b1d2f30 "server"; Cstr 0x7ffc3b1d2f37 "9000"].

Definition trailing_hostname_flag : cstr := Cstr 0x7ffc3b1d2f3c "--hostname".

(** *** A flag that is the value of the flag before it *)



(** *** [server 9000] *)

Definition server_argv : list cstr :=
  [Cstr 0x7ffc3b1d2f30 "server"; Cstr 0x7ffc3b1d2f37 "9000"].

Definition hello : list byte := [x68; x65; x6c; x6c; x6f].

Definition peer_a : sockaddr_in := Sockaddr_in AF_INET (htons 51234) loopback.
Definition peer_b : sockaddr_in := Sockaddr_in AF_INET (htons 51236) loopback.

Definition wildcard_9000 : sockaddr_in :=
  Sockaddr_in AF_INET (htons 9000) [x00; x00; x00; x00].

Definition listen_witness_script : list response :=
  [returns 3; returns 0; returns 0].

(** The listen setup succeeds; a client connects and sends 5 bytes; [send]
    writes only 3 of them back; the client closes. *)
Definition short_write_script : list response :=
  [returns 3; returns 0; returns 0;
   returns_peer 4 peer_a; returns_bytes 5 hello; returns 3; returns 0].

(** Two clients are served one after the other, each closing its
    connection; then [accept] fails. *)
Definition two_clients_script : list response :=
  [returns 3; returns 0; returns 0;
   returns_peer 4 peer_a; returns_bytes 5 hello; returns 5; returns 0;
   returns_peer 5 peer_b; returns 0;
   returns (-1); returns 0].

(** A client closes its connection; for the next one [recv] fails. *)
Definition failed_read_script : list response :=
  [returns 3; returns 0; returns 0;
   returns_peer 4 peer_a; returns 0;
   returns_peer 5 peer_b; returns (-1);
   returns 0].

(** *** Calls that fail, and a server without a port *)

(** The server turns the connection down. *)
Definition connect_refused_script : list response :=
  [returns 3; returns_bytes 1 loopback; returns (-1)].

(** The port is taken. *)
Definition bind_refused_script : list response := [returns 3; returns (-1)].


(* ================================================================== *)
(** ** Facts about the C integer conversions *)

Lemma int_of_small z : -2147483648 <= z <= INT_MAX -> int_of z = z.
Proof.
  unfold int_of, INT_MAX. intros H.
  rewrite Z.mod_small by lia. lia.
Qed.

Lemma int_of_range z : -2147483648 <= int_of z <= INT_MAX.
Proof.
  unfold int_of, INT_MAX.
  pose proof (Z.mod_pos_bound (z + 2147483648) 4294967296 ltac:(lia)). lia.
Qed.

Lemma size_t_of_small dm z : 0 <= z <= INT_MAX -> size_t_of dm z = z.
Proof.
  unfold size_t_of, INT_MAX. intros H.
  apply Z.mod_small. destruct dm; simpl; lia.
Qed.

Lemma size_t_of_nonneg dm z : 0 <= size_t_of dm z.
Proof.
  unfold size_t_of.
  apply Z.mod_pos_bound. destruct dm; simpl; lia.
Qed.

Lemma htons_involutive x : ntohs (htons x) = x mod 65536.
Proof.
  unfold ntohs, htons.
  pose proof (Z.mod_pos_bound x 65536 ltac:(lia)) as Hx.
  set (y := x mod 65536) in *.
  pose proof (Z.div_mod y 256 ltac:(lia)) as Hd.
  pose proof (Z.mod_pos_bound y 256 ltac:(lia)) as Hm.
  assert (Hq : 0 <= y / 256 < 256).
  { split; [apply Z.div_pos; lia | apply Z.div_lt_upper_bound; lia]. }
  rewrite (Z.mod_small (y mod 256 * 256 + y / 256) 65536) by lia.
  replace ((y mod 256 * 256 + y / 256) mod 256) with (y / 256).
  2:{ rewrite Z.add_comm, Z.mod_add by lia. rewrite Z.mod_small; lia. }
  replace ((y mod 256 * 256 + y / 256) / 256) with (y mod 256).
  2:{ rewrite Z.add_comm, Z.div_add by lia. rewrite Z.div_small; lia. }
  lia.
Qed.

(* ================================================================== *)
(** ** Facts about traces *)

Lemma at_each_event_nil R : at_each_event R [].
Proof.
  intros pre e post H. destruct pre; discriminate H.
Qed.

Lemma at_each_event_cons (R : list event -> event -> list event -> Prop) e t :
  R [] e t ->
  at_each_event (fun pre => R (e :: pre)) t ->
  at_each_event R (e :: t).
Proof.
  intros He Ht pre e' post H.
  destruct pre as [|x pre]; simpl in H; injection H as -> ->.
  - exact He.
  - apply (Ht pre e' post eq_refl).
Qed.

Lemma at_each_event_app (R : list event -> event -> list event -> Prop) t1 t2 :
  at_each_event (fun pre e post => R pre e (post ++ t2)) t1 ->
  at_each_event (fun pre => R (t1 ++ pre)) t2 ->
  at_each_event R (t1 ++ t2).
Proof.
  revert R. induction t1 as [|x t1 IH]; simpl; intros R H1 H2.
  - exact H2.
  - apply at_each_event_cons.
    + apply (H1 [] x t1 eq_refl).
    + apply IH; [|exact H2].
      intros pre e post ->. apply (H1 (x :: pre) e post eq_refl).
Qed.

Lemma at_each_event_weaken
    (R R' : list event -> event -> list event -> Prop) t :
  (forall pre e post, R pre e post -> R' pre e post) ->
  at_each_event R t -> at_each_event R' t.
Proof.
  intros HR H pre e post Heq. apply HR. apply H. exact Heq.
Qed.

Lemma syscalls_app t1 t2 : syscalls (t1 ++ t2) = syscalls t1 ++ syscalls t2.
Proof.
  induction t1 as [|[c r|f fmt args] t1 IH]; simpl; congruence.
Qed.

Lemma closes_app t1 t2 : closes (t1 ++ t2) = closes t1 ++ closes t2.
Proof.
  induction t1 as [|[[] r|f fmt args] t1 IH]; simpl; congruence.
Qed.

Lemma recv_requests_app t1 t2 :
  recv_requests (t1 ++ t2) = recv_requests t1 ++ recv_requests t2.
Proof.
  induction t1 as [|[[] r|f fmt args] t1 IH]; simpl; congruence.
Qed.

(* ================================================================== *)
(** ** Facts about the monad *)

Section MonadFacts.

Context {A B : Type}.

Lemma trace_of_emit e (x : outcome A * list event * list response) :
  trace_of (emit e x) = e :: trace_of x.
Proof. destruct x as [[o t] s]. reflexivity. Qed.

Lemma outcome_of_emit e (x : outcome A * list event * list response) :
  outcome_of (emit e x) = outcome_of x.
Proof. destruct x as [[o t] s]. reflexivity. Qed.

Lemma rest_of_emit e (x : outcome A * list event * list response) :
  rest_of (emit e x) = rest_of x.
Proof. destruct x as [[o t] s]. reflexivity. Qed.

Lemma bnd_sys_nil c (k : response -> M B) :
  bnd (sys c) k [] = (Abrupt Blocked, [Ev_sys c None], []).
Proof. reflexivity. Qed.

Lemma bnd_sys_cons c (k : response -> M B) r s :
  bnd (sys c) k (r :: s) = emit (Ev_sys c (Some r)) (k r s).
Proof.
  unfold bnd, sys, emit. destruct (k r s) as [[o t] s']. reflexivity.
Qed.

Lemma bnd_fprintf f fmt args (k : unit -> M B) s :
  bnd (fprintf f fmt args) k s = emit (Ev_print f fmt args) (k tt s).
Proof.
  unfold bnd, fprintf, emit. destruct (k tt s) as [[o t] s']. reflexivity.
Qed.

Lemma bnd_printf fmt args (k : unit -> M B) s :
  bnd (printf fmt args) k s = emit (Ev_print stdout fmt args) (k tt s).
Proof. apply bnd_fprintf. Qed.

Lemma bnd_pure (a : A) (k : A -> M B) s : bnd (pure a) k s = k a s.
Proof.
  unfold bnd, pure. destruct (k a s) as [[o t] s']. reflexivity.
Qed.

Lemma bnd_abort x (k : A -> M B) s :
  bnd (abort x) k s = (Abrupt x, [], s).
Proof. reflexivity. Qed.

Lemma bnd_return status (k : A -> M B) s :
  bnd (return_ status) k s = (Abrupt (Return status), [], s).
Proof. reflexivity. Qed.

Lemma bnd_goto_cleanup ret (k : A -> M B) s :
  bnd (goto_cleanup ret) k s = (Abrupt (Goto_cleanup ret), [], s).
Proof. reflexivity. Qed.

(** The result of [bnd] in terms of the results of its parts. *)
Lemma bnd_eq (m : M A) (k : A -> M B) s :
  bnd m k s =
  match outcome_of (m s) with
  | Normal a =>
      (outcome_of (k a (rest_of (m s))),
       trace_of (m s) ++ trace_of (k a (rest_of (m s))),
       rest_of (k a (rest_of (m s))))
  | Abrupt x => (Abrupt x, trace_of (m s), rest_of (m s))
  end.
Proof.
  unfold bnd, outcome_of, trace_of, rest_of.
  destruct (m s) as [[[a|x] t1] s1]; simpl; [|reflexivity].
  destruct (k a s1) as [[o t2] s2]. reflexivity.
Qed.

End MonadFacts.

Lemma at_cleanup_eq {A} (body : M A) (cleanup : Z -> M A) s :
  at_cleanup body cleanup s =
  match outcome_of (body s) with
  | Abrupt (Goto_cleanup ret) =>
      (outcome_of (cleanup ret (rest_of (body s))),
       trace_of (body s) ++ trace_of (cleanup ret (rest_of (body s))),
       rest_of (cleanup ret (rest_of (body s))))
  | _ => body s
  end.
Proof.
  unfold at_cleanup, outcome_of, trace_of, rest_of.
  destruct (body s) as [[[a|[ret|status| | | ]] t1] s1]; simpl; try reflexivity.
  destruct (cleanup ret s1) as [[o t2] s2]. reflexivity.
Qed.

(** One step of a computation applied to its script. *)
Ltac run_step :=
  first
    [ rewrite bnd_sys_cons
    | rewrite bnd_sys_nil
    | rewrite bnd_fprintf
    | rewrite bnd_printf
    | rewrite bnd_return
    | rewrite bnd_goto_cleanup
    | rewrite bnd_abort
    | rewrite bnd_pure ];
  cbv beta zeta.

Lemma run_pure {A} (a : A) s : pure a s = (Normal a, [], s).
Proof. reflexivity. Qed.

Lemma run_abort {A} x s : @abort A x s = (Abrupt x, [], s).
Proof. reflexivity. Qed.

Lemma run_return {A} status s : @return_ A status s = (Abrupt (Return status), [], s).
Proof. reflexivity. Qed.

Lemma run_goto_cleanup {A} ret s :
  @goto_cleanup A ret s = (Abrupt (Goto_cleanup ret), [], s).
Proof. reflexivity. Qed.

Lemma bnd_with_fuel {A B} (body : nat -> M A) (k : A -> M B) s :
  bnd (with_fuel body) k s = bnd (body (S (length s))) k s.
Proof. reflexivity. Qed.

Ltac observe_run :=
  repeat first
    [ rewrite trace_of_emit
    | rewrite outcome_of_emit
    | rewrite rest_of_emit
    | rewrite run_pure
    | rewrite run_return
    | rewrite run_goto_cleanup
    | rewrite run_abort ];
  cbn [trace_of outcome_of rest_of fst snd].

Ltac run_steps := repeat run_step; observe_run.

(* ================================================================== *)
(** ** The argument loops *)

Lemma nth_error_app_last {A} (l : list A) (x : A) :
  nth_error (l ++ [x]) (length l) = Some x.
Proof.
  rewrite nth_error_app2 by lia. rewrite Nat.sub_diag. reflexivity.
Qed.


Section ClientParse.

Variable pf : platform.

Lemma client_parse_loop_eq fuel argv idx l :
  Client.parse_loop fuel argv idx l =
  if (idx <? length argv)%nat then
    match fuel with
    | O => Parse_out_of_fuel
    | S fuel' =>
        match nth_error argv idx with
        | None => Argv_overrun idx
        | Some arg =>
            if strcmp_eq0 arg "--hostname" then
              match nth_error argv (S idx) with
              | None => Argv_overrun (S idx)
              | Some v =>
                  Client.parse_loop fuel' argv (S (S idx))
                    (Client.Locals v (Client.message l) (Client.port_number l))
              end
            else if strcmp_eq0 arg "--message" then
              match nth_error argv (S idx) with
              | None => Argv_overrun (S idx)
              | Some v =>
                  Client.parse_loop fuel' argv (S (S idx))
                    (Client.Locals (Client.hostname l) v (Client.port_number l))
              end
            else
              Client.parse_loop fuel' argv (S idx)
                (Client.Locals (Client.hostname l) (Client.message l)
                   (atoi (chars arg)))
        end
    end
  else Parsed l.
Proof.
  destruct fuel; reflexivity.
Qed.

(** The fuel [parse_args] gives the loop is never used up. *)
Lemma client_parse_loop_fuel fuel argv idx l :
  (length argv - idx <= fuel)%nat ->
  Client.parse_loop fuel argv idx l <> Parse_out_of_fuel.
Proof.
  revert idx l. induction fuel as [|fuel IH]; intros idx l Hf;
    rewrite client_parse_loop_eq.
  - destruct (Nat.ltb_spec idx (length argv)); [lia | discriminate].
  - destruct (Nat.ltb_spec idx (length argv)); [|discriminate].
    destruct (nth_error argv idx) as [arg|]; [|discriminate].
    destruct (strcmp_eq0 arg "--hostname").
    { destruct (nth_error argv (S idx)); [apply IH; lia | discriminate]. }
    destruct (strcmp_eq0 arg "--message").
    { destruct (nth_error argv (S idx)); [apply IH; lia | discriminate]. }
    apply IH; lia.
Qed.

Lemma client_parse_args_fuel argv :
  Client.parse_args pf argv <> Parse_out_of_fuel.
Proof.
  apply client_parse_loop_fuel. lia.
Qed.

Variable flag : cstr.
Hypothesis flag_takes_value :
  chars flag = "--hostname" \/ chars flag = "--message".



End ClientParse.

Section ServerParse.

Variable pf : platform.

Lemma server_parse_loop_eq fuel argv idx l :
  Server.parse_loop fuel argv idx l =
  if (idx <? length argv)%nat then
    match fuel with
    | O => Parse_out_of_fuel
    | S fuel' =>
        match nth_error argv idx with
        | None => Argv_overrun idx
        | Some arg =>
            if strcmp_eq0 arg "--hostname" then
              match nth_error argv (S idx) with
              | None => Argv_overrun (S idx)
              | Some v =>
                  Server.parse_loop fuel' argv (S (S idx))
                    (Server.Locals v (Server.port_number l))
              end
            else
              Server.parse_loop fuel' argv (S idx)
                (Server.Locals (Server.hostname l) (atoi (chars arg)))
        end
    end
  else Parsed l.
Proof.
  destruct fuel; reflexivity.
Qed.

Lemma server_parse_loop_fuel fuel argv idx l :
  (length argv - idx <= fuel)%nat ->
  Server.parse_loop fuel argv idx l <> Parse_out_of_fuel.
Proof.
  revert idx l. induction fuel as [|fuel IH]; intros idx l Hf;
    rewrite server_parse_loop_eq.
  - destruct (Nat.ltb_spec idx (length argv)); [lia | discriminate].
  - destruct (Nat.ltb_spec idx (length argv)); [|discriminate].
    destruct (nth_error argv idx) as [arg|]; [|discriminate].
    destruct (strcmp_eq0 arg "--hostname").
    { destruct (nth_error argv (S idx)); [apply IH; lia | discriminate]. }
    apply IH; lia.
Qed.

Lemma server_parse_args_fuel argv :
  Server.parse_args pf argv <> Parse_out_of_fuel.
Proof.
  apply server_parse_loop_fuel. lia.
Qed.

Variable flag : cstr.
Hypothesis flag_is_hostname : chars flag = "--hostname".



End ServerParse.



(* ================================================================== *)
(** ** Listen setup *)

(** The address [start_server] binds to: any local address, the port in
    network byte order. *)
Lemma start_server_trace_binds hostname port backlog out script fd addr r :
  In (Ev_sys (bind fd addr) r)
     (trace_of (Server.start_server hostname port backlog out script)) ->
  addr = Sockaddr_in AF_INET (htons port) (le_bytes 4 INADDR_ANY).
Proof.
  unfold Server.start_server.
  destruct script as [|r1 s1]; run_steps.
  { intros [H|[]]; discriminate H. }
  destruct (int_of (r_ret r1) <? 0); run_steps.
  { intros [H|[H|[]]]; discriminate H. }
  destruct s1 as [|r2 s2]; run_steps.
  { intros [H|[H|[]]]; [discriminate H | congruence]. }
  destruct (int_of (r_ret r2) <? 0); run_steps.
  { intros [H|[H|[H|[]]]]; try discriminate H; congruence. }
  destruct s2 as [|r3 s3]; run_steps.
  { intros [H|[H|[H|[]]]]; try discriminate H; congruence. }
  destruct (negb (0 =? int_of (r_ret r3))); run_steps.
  { intros [H|[H|[H|[H|[]]]]]; try discriminate H; congruence. }
  intros [H|[H|[H|[]]]]; try discriminate H; congruence.
Qed.

Lemma start_server_issues_bind hostname port backlog out r script :
  0 <= int_of (r_ret r) ->
  nth_error
    (syscalls
       (trace_of (Server.start_server hostname port backlog out (r :: script))))
    1 =
  Some (bind (int_of (r_ret r))
          (Sockaddr_in AF_INET (htons port) (le_bytes 4 INADDR_ANY))).
Proof.
  intros Hfd.
  unfold Server.start_server. run_steps.
  replace (int_of (r_ret r) <? 0) with false by (symmetry; apply Z.ltb_ge; lia).
  destruct script as [|r2 s2]; run_steps; [reflexivity|].
  destruct (int_of (r_ret r2) <? 0); run_steps; [reflexivity|].
  destruct s2 as [|r3 s3]; run_steps; [reflexivity|].
  destruct (negb (0 =? int_of (r_ret r3))); run_steps; reflexivity.
Qed.

(** C8.  Whatever the hostname, [start_server] behaves the same; every
    [bind] it makes is to the wildcard address 0.0.0.0 in family AF_INET
    with the given port (read back from network byte order), and it makes
    that [bind] as soon as [socket] gave it a descriptor. *)
Theorem start_server_binds_any_address_given_port :
  forall (hostname1 hostname2 : cstr) (port backlog : Z) (out : bool)
         (script : list response),
    1 <= port <= 65535 ->
    Server.start_server hostname1 port backlog out script =
    Server.start_server hostname2 port backlog out script
    /\
    (forall fd addr r,
        In (Ev_sys (bind fd addr) r)
           (trace_of (Server.start_server hostname1 port backlog out script)) ->
        sin_family addr = AF_INET /\
        sin_addr addr = [x00; x00; x00; x00] /\
        ntohs (sin_port addr) = port)
    /\
    (forall r rest,
        script = r :: rest ->
        0 <= int_of (r_ret r) ->
        nth_error
          (syscalls
             (trace_of
                (Server.start_server hostname1 port backlog out script))) 1 =
        Some (bind (int_of (r_ret r))
                (Sockaddr_in AF_INET (htons port) [x00; x00; x00; x00]))).
Proof.
  intros hostname1 hostname2 port backlog out script Hport.
  split; [reflexivity|]. split.
  - intros fd addr r Hin.
    apply start_server_trace_binds in Hin. subst addr. simpl.
    repeat split.
    rewrite htons_involutive. apply Z.mod_small. lia.
  - intros r rest -> Hfd.
    apply start_server_issues_bind. exact Hfd.
Qed.

(* ================================================================== *)
(** ** The client's receive loop *)

Section RecvLoop.

Variable pf : platform.
Variables sockfd message_len rx_buffer_len : Z.

Lemma recv_loop_done fuel total_received rx_buffer script :
  message_len <= total_received ->
  Client.recv_loop pf fuel sockfd message_len rx_buffer_len total_received
    rx_buffer script
  = (Normal (total_received, rx_buffer), [], script).
Proof.
  intros H.
  destruct fuel; simpl;
    (replace (total_received <? message_len) with false
      by (symmetry; apply Z.ltb_ge; lia)); reflexivity.
Qed.

(** What an iteration asks of [recv]. *)
Lemma chars_request_is_min total_received :
  0 <= total_received < message_len ->
  message_len <= INT_MAX ->
  0 <= rx_buffer_len ->
  let chars_request := int_of (message_len - total_received) in
  (if size_t_of (model pf) chars_request >? rx_buffer_len
   then int_of rx_buffer_len
   else chars_request)
  = Z.min (message_len - total_received) rx_buffer_len.
Proof.
  intros Ht Hm Hc. cbv zeta.
  rewrite (int_of_small (message_len - total_received)) by (unfold INT_MAX in *; lia).
  rewrite size_t_of_small by lia.
  destruct (Z.gtb_spec (message_len - total_received) rx_buffer_len).
  - rewrite int_of_small by (unfold INT_MAX in *; lia). lia.
  - lia.
Qed.

Lemma recv_loop_blocked fuel total_received rx_buffer :
  0 <= total_received < message_len ->
  message_len <= INT_MAX ->
  0 <= rx_buffer_len ->
  Client.recv_loop pf (S fuel) sockfd message_len rx_buffer_len total_received
    rx_buffer []
  = (Abrupt Blocked,
     [Ev_sys (recv sockfd (Z.min (message_len - total_received) rx_buffer_len) 0)
        None],
     []).
Proof.
  intros Ht Hm Hc. simpl.
  replace (total_received <? message_len) with true
    by (symmetry; apply Z.ltb_lt; lia).
  rewrite chars_request_is_min by assumption.
  rewrite size_t_of_small by (unfold INT_MAX in *; lia).
  reflexivity.
Qed.

Lemma recv_loop_step fuel total_received rx_buffer r script :
  0 <= total_received < message_len ->
  message_len <= INT_MAX ->
  0 <= rx_buffer_len ->
  let chars_request := Z.min (message_len - total_received) rx_buffer_len in
  let chars_received := int_of (r_ret r) in
  Client.recv_loop pf (S fuel) sockfd message_len rx_buffer_len total_received
    rx_buffer (r :: script)
  = emit (Ev_sys (recv sockfd chars_request 0) (Some r))
      (if chars_received <? 0 then
         emit (Ev_print stderr (line "ERROR receiving message") [])
           (Abrupt (Return 1), [], script)
       else if negb (chars_received =? chars_request) then
         emit (Ev_print stderr
                 (line "ERROR: expected to read %d chars but actually read %d")
                 [Arg_int chars_request; Arg_int chars_received])
           (Abrupt (Return 1), [], script)
       else
         emit (Ev_print stdout "%s" [])
           (Client.recv_loop pf fuel sockfd message_len rx_buffer_len
              (total_received + chars_request)
              (store_byte
                 (store_bytes rx_buffer
                    (firstn (Z.to_nat chars_request) (r_bytes r)))
                 (Z.to_nat rx_buffer_len) x00)
              script)).
Proof.
  intros Ht Hm Hc chars_request chars_received.
  cbn [Client.recv_loop].
  replace (total_received <? message_len) with true
    by (symmetry; apply Z.ltb_lt; lia).
  rewrite chars_request_is_min by assumption.
  fold chars_request.
  assert (Hq : 0 <= chars_request <= INT_MAX) by (unfold chars_request; lia).
  rewrite size_t_of_small by assumption.
  run_step. fold chars_received. f_equal.
  destruct (chars_received <? 0); [run_steps; reflexivity|].
  destruct (Z.eqb_spec chars_received chars_request) as [Heq|Hne];
    cbn [negb]; [|run_steps; reflexivity].
  run_step. rewrite Heq.
  rewrite int_of_small by (unfold chars_request, INT_MAX in *; lia).
  reflexivity.
Qed.

End RecvLoop.

(** In [main] the capacity is the message length: the loop is over after
    one [recv]. *)
Lemma recv_loop_whole pf sockfd message_len rx_buffer script :
  0 < message_len <= INT_MAX ->
  Client.recv_loop pf (S (length script)) sockfd message_len message_len 0
    rx_buffer script
  = match script with
    | [] =>
        (Abrupt Blocked, [Ev_sys (recv sockfd message_len 0) None], [])
    | r :: script' =>
        let chars_received := int_of (r_ret r) in
        emit (Ev_sys (recv sockfd message_len 0) (Some r))
          (if chars_received <? 0 then
             emit (Ev_print stderr (line "ERROR receiving message") [])
               (Abrupt (Return 1), [], script')
           else if negb (chars_received =? message_len) then
             emit (Ev_print stderr
                     (line "ERROR: expected to read %d chars but actually read %d")
                     [Arg_int message_len; Arg_int chars_received])
               (Abrupt (Return 1), [], script')
           else
             emit (Ev_print stdout "%s" [])
               (Normal
                  (message_len,
                   store_byte
                     (store_bytes rx_buffer
                        (firstn (Z.to_nat message_len) (r_bytes r)))
                     (Z.to_nat message_len) x00),
                [], script'))
    end.
Proof.
  intros Hm.
  destruct script as [|r script'].
  - rewrite recv_loop_blocked by lia.
    rewrite Z.sub_0_r, Z.min_id. reflexivity.
  - rewrite recv_loop_step by lia. cbv zeta.
    rewrite Z.sub_0_r, Z.min_id. f_equal.
    destruct (int_of (r_ret r) <? 0); [reflexivity|].
    destruct (negb (int_of (r_ret r) =? message_len)); [reflexivity|].
    rewrite recv_loop_done by lia. reflexivity.
Qed.

(** Every path through [Client.main], one goal per path.  The goal must
    mention the run only as [Client.main pf argv script]. *)
Ltac client_path_recv r4 s :=
  rewrite bnd_with_fuel, bnd_eq;
  destruct (Z.eq_dec (int_of (r_ret r4)) 0) as [Hzero|Hpos];
  [ rewrite recv_loop_done by lia; run_steps
  | rewrite recv_loop_whole by lia;
    let r5 := fresh "r5" in
    destruct s as [|r5 s]; cbv zeta;
    [ run_steps
    | destruct (int_of (r_ret r5) <? 0) eqn:Hrneg;
      [ run_steps
      | destruct (Z.eqb_spec (int_of (r_ret r5)) (int_of (r_ret r4)))
          as [Hrecv|Hrecv];
        cbn [negb]; run_steps ] ] ].

Ltac client_path_send pf message s :=
  let r4 := fresh "r4" in
  destruct s as [|r4 s]; run_steps;
  [ | pose proof (int_of_range (r_ret r4)) as Hr4;
      destruct (int_of (r_ret r4) <? 0) eqn:Hneg; run_steps;
      [ | apply Z.ltb_ge in Hneg;
          destruct (Z.eqb_spec (int_of (r_ret r4)) (int_of (strlen message)))
            as [Hsent|Hsent];
          cbn [negb]; run_steps;
          [ rewrite <- Hsent;
            rewrite (size_t_of_small (model pf) (int_of (r_ret r4))) by lia;
            client_path_recv r4 s
          | ] ] ].

Ltac client_path_connect pf message s :=
  let r1 := fresh "r1" in
  let r2 := fresh "r2" in
  let r3 := fresh "r3" in
  destruct s as [|r1 s]; run_steps;
  [ | destruct (int_of (r_ret r1) <? 0) eqn:Hsock; run_steps;
      [ | destruct s as [|r2 s]; run_steps;
          [ | destruct (r_ret r2 =? 0) eqn:Hhost; run_steps;
              [ | destruct s as [|r3 s]; run_steps;
                  [ | destruct (int_of (r_ret r3) <? 0) eqn:Hconn; run_steps;
                      [ | client_path_send pf message s ] ] ] ] ] ].

Ltac client_paths pf argv script :=
  unfold Client.main;
  destruct (Z.of_nat (length argv) <? 2) eqn:Hargc;
  [ run_steps; unfold Client.show_usage; run_steps
  | let hostname := fresh "hostname" in
    let message := fresh "message" in
    let port_number := fresh "port_number" in
    destruct (Client.parse_args pf argv)
      as [[hostname message port_number]| |] eqn:Hparse;
    [ client_path_connect pf message script | run_steps | run_steps ] ].


(** C10.  With the capacity equal to the message length, a receive loop
    that asks at all asks once, for all that remains, the whole message;
    a run that succeeds with a message of nonzero length made exactly one
    [recv] call, which returned the whole message length. *)
Theorem client_success_takes_exactly_one_recv :
  forall (pf : platform) (argv : list cstr) (script : list response)
         (l : Client.locals),
    Client.parse_args pf argv = Parsed l ->
    let message_len := int_of (strlen (Client.message l)) in
    let run := Client.main pf argv script in
    (recv_requests (trace_of run) = [] \/
     recv_requests (trace_of run) = [message_len])
    /\
    (message_len <> 0 ->
     outcome_of run = Abrupt (Return 0) ->
     recv_requests (trace_of run) = [message_len] /\
     recv_counts (trace_of run) = [message_len]).
Proof.
  intros pf argv script l Hp message_len run. subst message_len run.
  client_paths pf argv script; try discriminate Hp;
    try (injection Hp as <-; cbn [Client.message] in * );
    cbn [app recv_requests recv_counts];
    (split; [auto | try (intros Hnz H; discriminate H)]).
  all: try (left; reflexivity).
  all: try (right; congruence).
  - intros Hnz _. congruence.
  - intros _ _. split; congruence.
Qed.

(** C5.  In every client run, a [send] that returns a count that is not
    negative and is not the message length, and a [recv] that returns a
    count that is not negative and is not the count asked for, is followed
    by one line on stderr giving the expected and the actual count and by
    nothing else: the run ends there with status 1. *)
Theorem client_short_transfer_is_fatal :
  forall (pf : platform) (argv : list cstr) (script : list response)
         (l : Client.locals) (pre : list event) (e : event)
         (post : list event),
    Client.parse_args pf argv = Parsed l ->
    trace_of (Client.main pf argv script) = pre ++ e :: post ->
    let message_len := int_of (strlen (Client.message l)) in
    (forall fd buf len flags r,
        e = Ev_sys (send fd buf len flags) (Some r) ->
        0 <= int_of (r_ret r) ->
        int_of (r_ret r) <> message_len ->
        post =
        [Ev_print stderr
           (line "ERROR: expected to send %d characters but actually sent %d characters")
           [Arg_int message_len; Arg_int (int_of (r_ret r))]]
        /\ outcome_of (Client.main pf argv script) = Abrupt (Return 1))
    /\
    (forall fd len flags r,
        e = Ev_sys (recv fd len flags) (Some r) ->
        0 <= int_of (r_ret r) ->
        int_of (r_ret r) <> len ->
        post =
        [Ev_print stderr
           (line "ERROR: expected to read %d chars but actually read %d")
           [Arg_int len; Arg_int (int_of (r_ret r))]]
        /\ outcome_of (Client.main pf argv script) = Abrupt (Return 1)).
Proof.
  intros pf argv script l pre e post Hp Htrace message_len.
  revert pre e post Htrace.
  change (at_each_event
            (fun _ e post =>
               (forall fd buf len flags r,
                   e = Ev_sys (send fd buf len flags) (Some r) ->
                   0 <= int_of (r_ret r) ->
                   int_of (r_ret r) <> message_len ->
                   post =
                   [Ev_print stderr
                      (line "ERROR: expected to send %d characters but actually sent %d characters")
                      [Arg_int message_len; Arg_int (int_of (r_ret r))]]
                   /\ outcome_of (Client.main pf argv script) = Abrupt (Return 1))
               /\
               (forall fd len flags r,
                   e = Ev_sys (recv fd len flags) (Some r) ->
                   0 <= int_of (r_ret r) ->
                   int_of (r_ret r) <> len ->
                   post =
                   [Ev_print stderr
                      (line "ERROR: expected to read %d chars but actually read %d")
                      [Arg_int len; Arg_int (int_of (r_ret r))]]
                   /\ outcome_of (Client.main pf argv script) = Abrupt (Return 1)))
            (trace_of (Client.main pf argv script))).
  subst message_len.
  client_paths pf argv script; try discriminate Hp;
    try (injection Hp as <-; cbn [Client.message] in * );
    cbn [app].
  all: repeat (apply at_each_event_cons;
               [ cbv beta; split; intros * Heq Hnn Hne; try discriminate Heq;
                 injection Heq; intros; subst;
                 try (apply Z.ltb_lt in Hneg);
                 try (apply Z.ltb_lt in Hrneg);
                 first [ split; reflexivity
                       | exfalso; lia
                       | exfalso; congruence ]
               | ]).
  all: apply at_each_event_nil.
Qed.

(** A run whose message is empty had at least the two arguments that set
    it. *)
Lemma client_empty_message_argc pf argv l :
  Client.parse_args pf argv = Parsed l ->
  strlen (Client.message l) = 0 ->
  (Z.of_nat (length argv) <? 2) = false.
Proof.
  intros Hp Hlen.
  destruct argv as [|a [|b argv]]; [| |apply Z.ltb_ge; simpl length; lia];
    injection Hp as <-; discriminate Hlen.
Qed.

(** C6.  With a message of length 0 the receive loop falls through at once,
    whatever the fuel and the buffer: no iteration, no call, and
    [total_received] is 0, the message length.  No run of the client with
    such a message calls [recv], and the run returns 0 as soon as
    [socket], [gethostbyname], [connect] and the [send] of 0 bytes
    succeed. *)
Theorem client_empty_message_receives_nothing :
  forall (pf : platform) (argv : list cstr) (l : Client.locals),
    Client.parse_args pf argv = Parsed l ->
    strlen (Client.message l) = 0 ->
    let message_len := int_of (strlen (Client.message l)) in
    (forall fuel sockfd rx_buffer_len rx_buffer script,
        Client.recv_loop pf fuel sockfd message_len rx_buffer_len 0 rx_buffer
          script
        = (Normal (message_len, rx_buffer), [], script))
    /\
    (forall script,
        recv_requests (trace_of (Client.main pf argv script)) = [])
    /\
    (forall r1 r2 r3 r4 rest,
        0 <= int_of (r_ret r1) ->
        r_ret r2 <> 0 ->
        0 <= int_of (r_ret r3) ->
        int_of (r_ret r4) = 0 ->
        let run := Client.main pf argv (r1 :: r2 :: r3 :: r4 :: rest) in
        outcome_of run = Abrupt (Return 0) /\
        rest_of run = rest /\
        syscalls (trace_of run) =
        [socket AF_INET SOCK_STREAM 0;
         gethostbyname (chars (Client.hostname l));
         connect (int_of (r_ret r1))
           (Sockaddr_in AF_INET (htons (Client.port_number l)) (r_bytes r2));
         send (int_of (r_ret r1)) [] 0 0]).
Proof.
  intros pf argv l Hp Hlen message_len.
  assert (Hm : message_len = 0).
  { unfold message_len. rewrite Hlen. reflexivity. }
  rewrite Hm. clear message_len Hm.
  split; [|split].
  - intros. apply recv_loop_done. lia.
  - intros script.
    client_paths pf argv script; try discriminate Hp;
      try (injection Hp as <-; cbn [Client.message] in * );
      cbn [app recv_requests]; try reflexivity.
    all: exfalso; rewrite Hlen in *; change (int_of 0) with 0 in *; lia.
  - intros r1 r2 r3 r4 rest H1 H2 H3 H4 run. subst run.
    pose proof (client_empty_message_argc pf argv l Hp Hlen) as Hargc.
    unfold Client.main. rewrite Hargc, Hp.
    destruct l as [hostname message port_number]. cbn [Client.message Client.hostname Client.port_number] in *.
    run_steps.
    replace (int_of (r_ret r1) <? 0) with false by (symmetry; apply Z.ltb_ge; lia).
    run_steps.
    replace (r_ret r2 =? 0) with false by (symmetry; apply Z.eqb_neq; lia).
    run_steps.
    replace (int_of (r_ret r3) <? 0) with false by (symmetry; apply Z.ltb_ge; lia).
    run_steps.
    rewrite Hlen, H4. change (int_of 0) with 0.
    rewrite size_t_of_small by (unfold INT_MAX; lia).
    cbn [Z.ltb Z.eqb Z.compare negb].
    run_steps.
    rewrite bnd_with_fuel, bnd_eq, recv_loop_done by lia.
    run_steps.
    repeat split.
Qed.

(** The receive loop from any of its states. *)
Lemma recv_loop_requests :
  forall (pf : platform) (fuel : nat)
         (sockfd message_len rx_buffer_len total_received : Z)
         (rx_buffer : list byte) (script : list response),
    0 <= total_received <= message_len ->
    message_len <= INT_MAX ->
    0 < rx_buffer_len \/ total_received = message_len ->
    (length script < fuel)%nat ->
    let run :=
      Client.recv_loop pf fuel sockfd message_len rx_buffer_len total_received
        rx_buffer script in
    requests_follow rx_buffer_len (message_len - total_received)
      (recv_requests (trace_of run))
    /\ outcome_of run <> Abrupt Out_of_fuel
    /\ (forall total rx,
           outcome_of run = Normal (total, rx) ->
           total = message_len /\
           total_received + total_of (recv_counts (trace_of run)) = message_len).
Proof.
  intros pf fuel sockfd message_len rx_buffer_len.
  induction fuel as [|fuel IH];
    intros total_received rx_buffer script Ht Hm Hcap Hfuel; [simpl in Hfuel; lia|].
  cbv zeta.
  destruct (Z.eq_dec total_received message_len) as [Hdone|Hmore].
  { rewrite recv_loop_done by lia. observe_run. simpl.
    repeat split; try discriminate; try congruence; lia. }
  assert (Hc : 0 < rx_buffer_len) by lia. clear Hcap.
  assert (Hq : 0 < Z.min (message_len - total_received) rx_buffer_len) by lia.
  destruct script as [|r script].
  { rewrite recv_loop_blocked by lia. observe_run. simpl.
    repeat split; try discriminate; lia. }
  rewrite recv_loop_step by lia. cbv zeta.
  destruct (int_of (r_ret r) <? 0).
  { observe_run. simpl. repeat split; try discriminate; lia. }
  destruct (Z.eqb_spec (int_of (r_ret r))
              (Z.min (message_len - total_received) rx_buffer_len))
    as [Hfull|Hshort]; cbn [negb].
  2:{ observe_run. simpl. repeat split; try discriminate; lia. }
  simpl in Hfuel.
  specialize (IH (total_received + Z.min (message_len - total_received) rx_buffer_len)
                (store_byte
                   (store_bytes rx_buffer
                      (firstn (Z.to_nat (Z.min (message_len - total_received) rx_buffer_len))
                         (r_bytes r)))
                   (Z.to_nat rx_buffer_len) x00)
                script ltac:(lia) Hm ltac:(lia) ltac:(lia)).
  cbv zeta in IH. destruct IH as [IHreq [IHfuel IHdone]].
  observe_run. cbn [recv_requests recv_counts requests_follow total_of fold_right].
  split; [|split].
  - split; [reflexivity|]. split; [lia|].
    replace (message_len - total_received
             - Z.min (message_len - total_received) rx_buffer_len)
      with (message_len
            - (total_received + Z.min (message_len - total_received) rx_buffer_len))
      by lia.
    exact IHreq.
  - exact IHfuel.
  - intros total rx Hout. destruct (IHdone total rx Hout) as [Htot Hsum].
    split; [exact Htot|]. fold (total_of (recv_counts (trace_of
        (Client.recv_loop pf fuel sockfd message_len rx_buffer_len
           (total_received + Z.min (message_len - total_received) rx_buffer_len)
           (store_byte
              (store_bytes rx_buffer
                 (firstn (Z.to_nat (Z.min (message_len - total_received) rx_buffer_len))
                    (r_bytes r)))
              (Z.to_nat rx_buffer_len) x00) script)))).
    lia.
Qed.

(** C7.  From any state of the receive loop (any message length that an
    [int] holds, any capacity): each [recv] the loop makes asks for the
    smaller of what remains and the capacity, what remains gets strictly
    smaller from one request to the next, the loop does not run on, and
    when it falls through, what was received in all equals the message
    length.  In [main], for every message, the loop starts from nothing
    received with the message length as capacity: its requests follow the
    same rule, and a run that returns 0 received in all the count it
    sent. *)
Theorem recv_loop_requests_min_until_all_received :
  forall (pf : platform),
    (forall (fuel : nat) (sockfd message_len rx_buffer_len total_received : Z)
            (rx_buffer : list byte) (script : list response),
        0 <= total_received <= message_len ->
        message_len <= INT_MAX ->
        0 < rx_buffer_len \/ total_received = message_len ->
        (length script < fuel)%nat ->
        let run :=
          Client.recv_loop pf fuel sockfd message_len rx_buffer_len
            total_received rx_buffer script in
        requests_follow rx_buffer_len (message_len - total_received)
          (recv_requests (trace_of run))
        /\ outcome_of run <> Abrupt Out_of_fuel
        /\ (forall total rx,
               outcome_of run = Normal (total, rx) ->
               total = message_len /\
               total_received + total_of (recv_counts (trace_of run))
               = message_len))
    /\
    (forall (argv : list cstr) (script : list response) (l : Client.locals),
        Client.parse_args pf argv = Parsed l ->
        let message_len := int_of (strlen (Client.message l)) in
        let run := Client.main pf argv script in
        requests_follow message_len message_len (recv_requests (trace_of run))
        /\ (outcome_of run = Abrupt (Return 0) ->
            total_of (recv_counts (trace_of run)) = message_len /\
            exists fd buf len flags r,
              In (Ev_sys (send fd buf len flags) (Some r)) (trace_of run) /\
              int_of (r_ret r) = message_len)).
Proof.
  intros pf. split.
  - intros. apply recv_loop_requests; assumption.
  - intros argv script l Hp message_len run. subst message_len run.
    client_paths pf argv script; try discriminate Hp;
      try (injection Hp as <-; cbn [Client.message] in * );
      cbn [app recv_requests recv_counts requests_follow total_of fold_right];
      (split; [|try (intros H; discriminate H)]); auto.
    all: try (rewrite <- Hsent; repeat split; lia).
    all: intros _; split; [lia|];
      do 5 eexists; split; [do 5 right; left; reflexivity | exact Hsent].
Qed.

(* ================================================================== *)
(** ** The server's loops *)

Section ServerLoops.

Variable pf : platform.

Lemma echo_loop_blocked fuel client_sockfd echo_buffer :
  Server.echo_loop pf (S fuel) client_sockfd echo_buffer []
  = (Abrupt Blocked,
     [Ev_sys (recv client_sockfd Server.echo_buffer_len 0) None], []).
Proof. reflexivity. Qed.

Lemma echo_loop_step fuel client_sockfd echo_buffer r script :
  let chars_received := int_of (r_ret r) in
  let echo_buffer' :=
    store_bytes echo_buffer
      (firstn (Z.to_nat Server.echo_buffer_len) (r_bytes r)) in
  Server.echo_loop pf (S fuel) client_sockfd echo_buffer (r :: script)
  = emit (Ev_sys (recv client_sockfd Server.echo_buffer_len 0) (Some r))
      (if 0 =? chars_received then
         emit (Ev_print stdout closed_line []) (Normal tt, [], script)
       else if chars_received <? 0 then
         emit (Ev_print stderr recv_failed_line [Arg_int chars_received])
           (Abrupt (Goto_cleanup 1), [], script)
       else
         match script with
         | [] =>
             (Abrupt Blocked,
              [Ev_sys
                 (send client_sockfd
                    (firstn (Z.to_nat chars_received) echo_buffer')
                    (size_t_of (model pf) chars_received) 0)
                 None],
              [])
         | r' :: script' =>
             emit (Ev_sys
                     (send client_sockfd
                        (firstn (Z.to_nat chars_received) echo_buffer')
                        (size_t_of (model pf) chars_received) 0)
                     (Some r'))
               (if int_of (r_ret r') <? 0 then
                  emit (Ev_print stderr
                          (line "ERROR: failed send characters back to client.")
                          [])
                    (Abrupt (Goto_cleanup 1), [], script')
                else
                  Server.echo_loop pf fuel client_sockfd echo_buffer' script')
         end).
Proof.
  cbv zeta. cbn [Server.echo_loop]. run_step. f_equal.
  destruct (0 =? int_of (r_ret r)); [run_steps; reflexivity|].
  destruct (int_of (r_ret r) <? 0); [run_steps; reflexivity|].
  destruct script as [|r' script']; [run_steps; reflexivity|].
  run_step. f_equal.
  destruct (int_of (r_ret r') <? 0); [run_steps; reflexivity|].
  reflexivity.
Qed.

(** The Echo Loop: what follows a read of zero bytes and a failed read,
    how the loop can end, and that it closes nothing. *)
Lemma echo_loop_reads fuel :
  forall client_sockfd echo_buffer script,
    (length script < fuel)%nat ->
    let run := Server.echo_loop pf fuel client_sockfd echo_buffer script in
    at_each_event
      (fun pre e post =>
         forall fd len flags r,
           e = Ev_sys (recv fd len flags) (Some r) ->
           (int_of (r_ret r) = 0 ->
            post = [Ev_print stdout closed_line []] /\
            outcome_of run = Normal tt) /\
           (int_of (r_ret r) < 0 ->
            post = [Ev_print stderr recv_failed_line
                      [Arg_int (int_of (r_ret r))]] /\
            outcome_of run = Abrupt (Goto_cleanup 1)))
      (trace_of run)
    /\ closes (trace_of run) = []
    /\ (length (rest_of run) <= length script)%nat
    /\ (outcome_of run = Normal tt \/
        outcome_of run = Abrupt (Goto_cleanup 1) \/
        outcome_of run = Abrupt Blocked).
Proof.
  induction fuel as [|fuel IH]; intros client_sockfd echo_buffer script Hfuel;
    [simpl in Hfuel; lia|].
  cbv zeta.
  destruct script as [|r script].
  { rewrite echo_loop_blocked. observe_run. simpl.
    split; [|repeat split; auto].
    apply at_each_event_cons; [|apply at_each_event_nil].
    intros fd len flags r Heq. discriminate Heq. }
  rewrite echo_loop_step. cbv zeta. simpl in Hfuel.
  destruct (Z.eqb_spec 0 (int_of (r_ret r))) as [Hzero|Hnz].
  { observe_run. simpl. split; [|repeat split; auto; lia].
    apply at_each_event_cons.
    - intros fd len flags r0 Heq. injection Heq as <- <- <- <-.
      split; [auto | lia].
    - apply at_each_event_cons; [|apply at_each_event_nil].
      intros fd len flags r0 Heq. discriminate Heq. }
  destruct (Z.ltb_spec (int_of (r_ret r)) 0) as [Hneg|Hpos].
  { observe_run. simpl. split; [|repeat split; auto; lia].
    apply at_each_event_cons.
    - intros fd len flags r0 Heq. injection Heq as <- <- <- <-.
      split; [lia | auto].
    - apply at_each_event_cons; [|apply at_each_event_nil].
      intros fd len flags r0 Heq. discriminate Heq. }
  destruct script as [|r' script].
  { observe_run. simpl. split; [|repeat split; auto].
    apply at_each_event_cons.
    - intros fd len flags r0 Heq. injection Heq as <- <- <- <-.
      split; lia.
    - apply at_each_event_cons; [|apply at_each_event_nil].
      intros fd len flags r0 Heq. discriminate Heq. }
  simpl in Hfuel.
  destruct (int_of (r_ret r') <? 0).
  { observe_run. simpl. split; [|repeat split; auto; lia].
    apply at_each_event_cons.
    - intros fd len flags r0 Heq. injection Heq as <- <- <- <-.
      split; lia.
    - apply at_each_event_cons.
      + intros fd len flags r0 Heq. discriminate Heq.
      + apply at_each_event_cons; [|apply at_each_event_nil].
        intros fd len flags r0 Heq. discriminate Heq. }
  specialize (IH client_sockfd
                (store_bytes echo_buffer
                   (firstn (Z.to_nat Server.echo_buffer_len) (r_bytes r)))
                script ltac:(lia)).
  cbv zeta in IH. destruct IH as [IHev [IHcl [IHlen IHout]]].
  observe_run. cbn [closes length].
  split; [|split; [exact IHcl | split; [lia | exact IHout]]].
  apply at_each_event_cons.
  - intros fd len flags r0 Heq. injection Heq as <- <- <- <-.
    split; lia.
  - apply at_each_event_cons.
    + intros fd len flags r0 Heq. discriminate Heq.
    + exact IHev.
Qed.


Lemma closes_prefix pre e post :
  closes (pre ++ e :: post) = [] -> closes pre = [].
Proof.
  rewrite closes_app. intros H. apply app_eq_nil in H. tauto.
Qed.

Lemma accept_loop_blocked fuel server_sockfd :
  Server.accept_loop pf (S fuel) server_sockfd []
  = (Abrupt Blocked, [Ev_sys (accept server_sockfd) None], []).
Proof. reflexivity. Qed.

Lemma accept_loop_step fuel server_sockfd r script :
  let client_sockfd := int_of (r_ret r) in
  Server.accept_loop pf (S fuel) server_sockfd (r :: script)
  = emit (Ev_sys (accept server_sockfd) (Some r))
      (if client_sockfd <? 0 then
         emit (Ev_print stderr accept_failed_line [])
           (Abrupt (Goto_cleanup 1), [], script)
       else
         emit (Ev_print stdout connected_line
                 [Arg_int client_sockfd; Arg_int (sin_port (r_peer r))])
           (bnd (Server.echo_loop pf fuel client_sockfd
                   (repeat x00 (Z.to_nat Server.echo_buffer_len)))
              (fun _ => Server.accept_loop pf fuel server_sockfd)
              script)).
Proof.
  cbv zeta. cbn [Server.accept_loop]. run_step. f_equal.
  destruct (int_of (r_ret r) <? 0); run_steps; reflexivity.
Qed.

(** The accept loop: after a read of zero bytes the server is back in
    [accept] on the listening socket; after a failed read the loop is left
    for [cleanup]; the loop closes nothing and never falls through. *)
Lemma accept_loop_reads fuel :
  forall server_sockfd script,
    (length script < fuel)%nat ->
    let run := Server.accept_loop pf fuel server_sockfd script in
    at_each_event
      (fun pre e post =>
         forall fd len flags r,
           e = Ev_sys (recv fd len flags) (Some r) ->
           closes pre = [] /\
           (int_of (r_ret r) = 0 ->
            exists x post',
              post = Ev_print stdout closed_line []
                     :: Ev_sys (accept server_sockfd) x :: post') /\
           (int_of (r_ret r) < 0 ->
            post = [Ev_print stderr recv_failed_line
                      [Arg_int (int_of (r_ret r))]] /\
            outcome_of run = Abrupt (Goto_cleanup 1)))
      (trace_of run)
    /\ closes (trace_of run) = []
    /\ (outcome_of run = Abrupt (Goto_cleanup 1) \/
        outcome_of run = Abrupt Blocked)
    /\ (exists x t, trace_of run = Ev_sys (accept server_sockfd) x :: t).
Proof.
  induction fuel as [|fuel IH]; intros server_sockfd script Hfuel;
    [simpl in Hfuel; lia|].
  cbv zeta.
  destruct script as [|r script].
  { rewrite accept_loop_blocked. observe_run. simpl.
    split; [|repeat split; eauto].
    apply at_each_event_cons; [|apply at_each_event_nil].
    intros fd len flags r Heq. discriminate Heq. }
  rewrite accept_loop_step. cbv zeta. simpl in Hfuel.
  destruct (int_of (r_ret r) <? 0).
  { observe_run. simpl. split; [|repeat split; eauto].
    apply at_each_event_cons.
    - intros fd len flags r0 Heq. discriminate Heq.
    - apply at_each_event_cons; [|apply at_each_event_nil].
      intros fd len flags r0 Heq. discriminate Heq. }
  rewrite bnd_eq.
  pose proof (echo_loop_reads fuel (int_of (r_ret r))
                (repeat x00 (Z.to_nat Server.echo_buffer_len)) script
                ltac:(lia)) as Hecho.
  cbv zeta in Hecho.
  set (E := Server.echo_loop pf fuel (int_of (r_ret r))
              (repeat x00 (Z.to_nat Server.echo_buffer_len)) script) in *.
  destruct Hecho as [Hev [Hcl [Hlen Hout]]].
  destruct Hout as [Ho|Ho].
  - (* the Echo Loop was left by [break] *)
    rewrite Ho.
    specialize (IH server_sockfd (rest_of E) ltac:(lia)).
    cbv zeta in IH.
    set (A := Server.accept_loop pf fuel server_sockfd (rest_of E)) in *.
    destruct IH as [IHev [IHcl [IHout [x [t Hfirst]]]]].
    observe_run.
    split; [|split; [|split]].
    + apply at_each_event_cons.
      { intros fd len flags r0 Heq. discriminate Heq. }
      apply at_each_event_cons.
      { intros fd len flags r0 Heq. discriminate Heq. }
      apply at_each_event_app.
      * intros pre e post Heq fd len flags r0 He.
        destruct (Hev pre e post Heq fd len flags r0 He) as [Hz Hn].
        split; [|split].
        -- cbn [closes]. rewrite Heq in Hcl.
           apply closes_prefix in Hcl. exact Hcl.
        -- intros H0. destruct (Hz H0) as [-> _].
           rewrite Hfirst. simpl. eauto.
        -- intros H0. destruct (Hn H0) as [_ Hbad].
           rewrite Ho in Hbad. discriminate Hbad.
      * intros pre e post Heq fd len flags r0 He.
        destruct (IHev pre e post Heq fd len flags r0 He) as [Hc [Hz Hn]].
        split; [|split]; auto.
        cbn [closes]. rewrite closes_app, Hcl, Hc. reflexivity.
    + cbn [closes]. rewrite closes_app, Hcl, IHcl. reflexivity.
    + exact IHout.
    + eauto.
  - (* the Echo Loop was left for [cleanup], or is blocked *)
    assert (Hab : exists x, outcome_of E = Abrupt x /\
                            (x = Goto_cleanup 1 \/ x = Blocked)).
    { destruct Ho as [Ho|Ho]; rewrite Ho; eauto. }
    destruct Hab as [x [Hx Hx']]. rewrite Hx. observe_run.
    split; [|split; [|split]].
    + apply at_each_event_cons.
      { intros fd len flags r0 Heq. discriminate Heq. }
      apply at_each_event_cons.
      { intros fd len flags r0 Heq. discriminate Heq. }
      intros pre e post Heq fd len flags r0 He.
      destruct (Hev pre e post Heq fd len flags r0 He) as [Hz Hn].
      split; [|split].
      * cbn [closes]. rewrite Heq in Hcl.
        apply closes_prefix in Hcl. exact Hcl.
      * intros H0. destruct (Hz H0) as [_ Hbad].
        rewrite Hx in Hbad. destruct Hx' as [-> | ->]; discriminate Hbad.
      * intros H0. destruct (Hn H0) as [Hpost Hgo].
        split; [exact Hpost|]. congruence.
    + cbn [closes]. exact Hcl.
    + destruct Hx' as [-> | ->]; auto.
    + eauto.
Qed.

End ServerLoops.

Lemma server_cleanup_run server_sockfd ret script :
  bnd (Server.stop_server server_sockfd) (fun _ => return_ ret) script
  = match script with
    | [] => (Abrupt Blocked, [Ev_sys (close server_sockfd) None], [])
    | r :: script' =>
        (@Abrupt unit (Return ret), [Ev_sys (close server_sockfd) (Some r)],
         script')
    end.
Proof.
  unfold Server.stop_server. destruct script as [|r script']; reflexivity.
Qed.

(** What [main] runs once the server is listening. *)
Lemma server_serving_run pf server_sockfd script :
  let serve :=
    @at_cleanup unit
      (with_fuel (fun fuel => Server.accept_loop pf fuel server_sockfd) ;;
       goto_cleanup 0)
      (fun ret => Server.stop_server server_sockfd ;; return_ ret) in
  let loop := Server.accept_loop pf (S (length script)) server_sockfd script in
  (outcome_of loop = Abrupt Blocked /\ serve script = (Abrupt Blocked, trace_of loop, rest_of loop))
  \/
  (outcome_of loop = Abrupt (Goto_cleanup 1) /\
   exists x,
     trace_of (serve script) = trace_of loop ++ [Ev_sys (close server_sockfd) x] /\
     outcome_of (serve script) =
       match x with Some _ => Abrupt (Return 1) | None => Abrupt Blocked end).
Proof.
  cbv zeta.
  pose proof (accept_loop_reads pf (S (length script)) server_sockfd script
                ltac:(lia)) as H.
  cbv zeta in H. destruct H as [_ [_ [Hout _]]].
  rewrite at_cleanup_eq, bnd_with_fuel, bnd_eq.
  set (L := Server.accept_loop pf (S (length script)) server_sockfd script) in *.
  destruct Hout as [Ho|Ho]; rewrite Ho; observe_run.
  - right. split; [reflexivity|].
    rewrite server_cleanup_run.
    destruct (rest_of L) as [|r rest]; observe_run; eauto.
  - left. split; [reflexivity|]. reflexivity.
Qed.

Lemma negb_eqb_0_nonzero z : z <> 0 -> negb (0 =? z) = true.
Proof.
  intros H. destruct (Z.eqb_spec 0 z); [congruence | reflexivity].
Qed.

(** Every path through [Server.main] up to the accept loop, one goal per
    path.  The goal must mention the run only as
    [Server.main pf argv script]. *)
Ltac server_path_start s :=
  let r1 := fresh "r1" in
  let r2 := fresh "r2" in
  let r3 := fresh "r3" in
  rewrite bnd_eq; unfold Server.start_server;
  destruct s as [|r1 s]; run_steps;
  [ | destruct (int_of (r_ret r1) <? 0) eqn:Hsock; run_steps;
      [ cbn [Z.eqb negb fst snd]; run_steps; cbn [app]
      | destruct s as [|r2 s]; run_steps;
          [ | destruct (Z.ltb_spec (int_of (r_ret r2)) 0) as [Hbind|Hbind];
              run_steps;
              [ cbn [fst snd];
                rewrite (negb_eqb_0_nonzero (int_of (r_ret r2))) by lia;
                run_steps; cbn [app]
              | destruct s as [|r3 s]; run_steps;
                  [ | destruct (Z.eqb_spec 0 (int_of (r_ret r3)))
                        as [Hlisten|Hlisten];
                      cbn [negb]; run_steps;
                      [ try rewrite <- Hlisten;
                        cbn [Z.eqb negb fst snd app]
                      | cbn [fst snd];
                        rewrite (negb_eqb_0_nonzero (int_of (r_ret r3)))
                          by lia;
                        run_steps; cbn [app] ] ] ] ] ] ].

Ltac server_paths pf argv script :=
  unfold Server.main;
  destruct (Z.of_nat (length argv) <? 2) eqn:Hargc;
  [ run_steps; unfold Server.show_usage; run_steps
  | let hostname := fresh "hostname" in
    let port_number := fresh "port_number" in
    destruct (Server.parse_args pf argv)
      as [[hostname port_number]| |] eqn:Hparse;
    [ destruct (port_number <=? 0) eqn:Hport;
      [ run_steps; unfold Server.show_usage; run_steps
      | run_steps; server_path_start script ]
    | run_steps | run_steps ] ].

(** C4.  Wherever a run of the server completes a [recv]: the server is
    listening on some socket and has closed nothing so far.  When the
    [recv] returned 0, what follows is the line that the connection was
    closed and then a call of [accept] on the listening socket.  When it
    returned a negative value, what follows is the error line and the
    [close] of the listening socket, nothing else, and the run ends with
    status 1 once [close] returns. *)
Theorem server_zero_read_reaccepts_failed_read_terminates :
  forall (pf : platform) (argv : list cstr) (script : list response)
         (pre : list event) (fd len flags : Z) (r : response)
         (post : list event),
    trace_of (Server.main pf argv script)
    = pre ++ Ev_sys (recv fd len flags) (Some r) :: post ->
    exists server_sockfd rl,
      In (Ev_sys (listen server_sockfd 5) (Some rl)) pre /\
      closes pre = [] /\
      (int_of (r_ret r) = 0 ->
       exists x post',
         post = Ev_print stdout closed_line []
                :: Ev_sys (accept server_sockfd) x :: post') /\
      (int_of (r_ret r) < 0 ->
       exists x,
         post = [Ev_print stderr recv_failed_line [Arg_int (int_of (r_ret r))];
                 Ev_sys (close server_sockfd) x] /\
         outcome_of (Server.main pf argv script) =
         match x with
         | Some _ => Abrupt (Return 1)
         | None => Abrupt Blocked
         end).
Proof.
  intros pf argv script pre fd len flags r post Htrace.
  enough (Hall :
    at_each_event
      (fun pre e post =>
         forall fd len flags r,
           e = Ev_sys (recv fd len flags) (Some r) ->
           exists server_sockfd rl,
             In (Ev_sys (listen server_sockfd 5) (Some rl)) pre /\
             closes pre = [] /\
             (int_of (r_ret r) = 0 ->
              exists x post',
                post = Ev_print stdout closed_line []
                       :: Ev_sys (accept server_sockfd) x :: post') /\
             (int_of (r_ret r) < 0 ->
              exists x,
                post = [Ev_print stderr recv_failed_line
                          [Arg_int (int_of (r_ret r))];
                        Ev_sys (close server_sockfd) x] /\
                outcome_of (Server.main pf argv script) =
                match x with
                | Some _ => Abrupt (Return 1)
                | None => Abrupt Blocked
                end))
      (trace_of (Server.main pf argv script))).
  { exact (Hall pre _ post Htrace fd len flags r eq_refl). }
  clear.
  server_paths pf argv script.
  8:{ (* the server is listening *)
    destruct (server_serving_run pf (int_of (r_ret r1)) script)
      as [[Ho Hrun]|[Ho [x [Htr Hout]]]].
    - rewrite Hrun. observe_run.
      pose proof (accept_loop_reads pf (S (length script)) (int_of (r_ret r1))
                    script ltac:(lia)) as H.
      cbv zeta in H. destruct H as [Hev _].
      do 4 (apply at_each_event_cons;
            [intros fd len flags r Heq; discriminate Heq|]).
      intros pre e post Heq fd len flags r He.
      destruct (Hev pre e post Heq fd len flags r He) as [Hc [Hz Hn]].
      exists (int_of (r_ret r1)), r3.
      split; [simpl; auto|]. split; [exact Hc|]. split; [exact Hz|].
      intros Hneg. destruct (Hn Hneg) as [_ Hbad].
      rewrite Ho in Hbad. discriminate Hbad.
    - rewrite Htr, Hout.
      pose proof (accept_loop_reads pf (S (length script)) (int_of (r_ret r1))
                    script ltac:(lia)) as H.
      cbv zeta in H. destruct H as [Hev [Hcl _]].
      do 4 (apply at_each_event_cons;
            [intros fd len flags r Heq; discriminate Heq|]).
      apply at_each_event_app.
      + intros pre e post Heq fd len flags r He.
        destruct (Hev pre e post Heq fd len flags r He) as [Hc [Hz Hn]].
        exists (int_of (r_ret r1)), r3.
        split; [simpl; auto|]. split; [exact Hc|]. split.
        * intros Hzero. destruct (Hz Hzero) as [y [post' ->]].
          simpl. eauto.
        * intros Hneg. destruct (Hn Hneg) as [-> _].
          exists x. split; reflexivity.
      + apply at_each_event_cons; [|apply at_each_event_nil].
        intros fd len flags r Heq. discriminate Heq. }
  all: repeat (apply at_each_event_cons;
               [intros fd len flags r Heq; discriminate Heq|]).
  all: apply at_each_event_nil.
Qed.
(* ================================================================== *)
(** ** Where the code differs from its specification *)

(** What [send] is handed does not depend on the characters of the
    message, only on where the message is. *)
Lemma bytes_at_addr_of_message_ignores_chars pf p chars1 chars2 len :
  Client.bytes_at_addr_of_message pf (Cstr p chars1) len =
  Client.bytes_at_addr_of_message pf (Cstr p chars2) len.
Proof. reflexivity. Qed.

(** C1 (the code differs).  The scenario of the claim, against a server
    that echoes, on x86-64 and on IA-32: what the client hands to [send]
    is the 11 bytes at [&message], which begin with the pointer kept in
    [message]; they are not the bytes of "hello world", they are what the
    client receives back, and the client returns 0. *)
Theorem hello_world_client_sends_the_bytes_at_addr_of_message :
  (let run := Client.main lp64 hello_argv hello_script in
   Client.parse_args lp64 hello_argv = Parsed hello_locals
   /\ syscalls (trace_of run)
      = [socket AF_INET SOCK_STREAM 0;
         gethostbyname "localhost";
         connect 3 (Sockaddr_in AF_INET (htons 9000) loopback);
         send 3 hello_sent 11 0;
         recv 3 11 0]
   /\ hello_sent = ptr_repr LP64 (ptr hello_message) ++ [x00; x00; x00]
   /\ sent (trace_of run) = [hello_sent]
   /\ received (trace_of run) = [hello_sent]
   /\ hello_sent <> list_byte_of_string "hello world"
   /\ outcome_of run = Abrupt (Return 0))
  /\
  (let run := Client.main ilp32 hello_argv32 hello_script32 in
   syscalls (trace_of run)
   = [socket AF_INET SOCK_STREAM 0;
      gethostbyname "localhost";
      connect 3 (Sockaddr_in AF_INET (htons 9000) loopback);
      send 3 hello_sent32 11 0;
      recv 3 11 0]
   /\ hello_sent32
      = ptr_repr ILP32 (ptr hello_message32)
        ++ [x00; x00; x00; x00; x00; x00; x00]
   /\ sent (trace_of run) = [hello_sent32]
   /\ received (trace_of run) = [hello_sent32]
   /\ hello_sent32 <> list_byte_of_string "hello world"
   /\ outcome_of run = Abrupt (Return 0)).
Proof.
  cbv zeta. repeat split; try (vm_compute; reflexivity).
  - vm_compute. discriminate.
  - vm_compute. discriminate.
Qed.
(** The client closes nothing. *)
Lemma client_never_closes pf argv script :
  closes (trace_of (Client.main pf argv script)) = [].
Proof.
  client_paths pf argv script; reflexivity.
Qed.

(** The only descriptor the server ever closes is the listening socket, and
    only as the last thing it does. *)
Lemma server_closes_only_listening_socket pf argv script :
  let t := trace_of (Server.main pf argv script) in
  closes t = [] \/
  exists pre server_sockfd rl x,
    t = pre ++ [Ev_sys (close server_sockfd) x] /\
    closes pre = [] /\
    In (Ev_sys (listen server_sockfd 5) (Some rl)) pre.
Proof.
  cbv zeta.
  server_paths pf argv script; try (left; reflexivity).
  destruct (server_serving_run pf (int_of (r_ret r1)) script)
    as [[Ho Hrun]|[Ho [x [Htr Hout]]]];
    pose proof (accept_loop_reads pf (S (length script)) (int_of (r_ret r1))
                  script ltac:(lia)) as H;
    cbv zeta in H; destruct H as [_ [Hcl _]].
  - left. rewrite Hrun. observe_run. cbn [closes]. exact Hcl.
  - right. rewrite Htr.
    eexists (_ :: _ :: _ :: _ :: _), (int_of (r_ret r1)), r3, x.
    split; [reflexivity|]. split.
    + cbn [closes]. exact Hcl.
    + simpl. auto.
Qed.

(** A [send] that returns a count which is not negative keeps the Echo
    Loop going, whatever the count. *)
Lemma echo_loop_continues_after_send pf fuel client_sockfd echo_buffer r r' script :
  0 < int_of (r_ret r) ->
  0 <= int_of (r_ret r') ->
  let chars_received := int_of (r_ret r) in
  let echo_buffer' :=
    store_bytes echo_buffer
      (firstn (Z.to_nat Server.echo_buffer_len) (r_bytes r)) in
  Server.echo_loop pf (S fuel) client_sockfd echo_buffer (r :: r' :: script)
  = emit (Ev_sys (recv client_sockfd Server.echo_buffer_len 0) (Some r))
      (emit (Ev_sys
               (send client_sockfd
                  (firstn (Z.to_nat chars_received) echo_buffer')
                  (size_t_of (model pf) chars_received) 0)
               (Some r'))
         (Server.echo_loop pf fuel client_sockfd echo_buffer' script)).
Proof.
  intros Hr Hs. cbv zeta. rewrite echo_loop_step. cbv zeta.
  replace (0 =? int_of (r_ret r)) with false by (symmetry; apply Z.eqb_neq; lia).
  replace (int_of (r_ret r) <? 0) with false by (symmetry; apply Z.ltb_ge; lia).
  replace (int_of (r_ret r') <? 0) with false by (symmetry; apply Z.ltb_ge; lia).
  reflexivity.
Qed.

(** On LP64 with the message anywhere in user space, the 11 bytes at
    [&message] are not the bytes of "hello world": the seventh is 0. *)
Lemma bytes_at_addr_of_message_not_hello_world pf message :
  model pf = LP64 ->
  0 <= ptr message < 0x1000000000000 ->
  Client.bytes_at_addr_of_message pf message 11
  <> list_byte_of_string "hello world".
Proof.
  intros Hm Hp Heq.
  assert (H6 : nth_error (Client.bytes_at_addr_of_message pf message 11) 6
               = Some x77) by (rewrite Heq; reflexivity).
  unfold Client.bytes_at_addr_of_message, ptr_repr in H6. rewrite Hm in H6.
  cbn [sizeof_ptr le_bytes app Z.to_nat Pos.to_nat Pos.iter_op Nat.add firstn
       nth_error] in H6.
  replace (ptr message / 256 / 256 / 256 / 256 / 256 / 256) with 0 in H6.
  - discriminate H6.
  - repeat rewrite Z.div_div by lia. simpl. symmetry. apply Z.div_small. lia.
Qed.

(** C2 (the code differs).  A server run in which [send] writes back 3 of
    the 5 bytes just received: nothing is reported, the Echo Loop reads
    again, and after the client closes the server is back in [accept]. *)
Theorem server_short_write_is_not_fatal :
  let run := Server.main lp64 server_argv short_write_script in
  In (Ev_sys (recv 4 512 0) (Some (returns_bytes 5 hello))) (trace_of run)
  /\ In (Ev_sys (send 4 hello 5 0) (Some (returns 3))) (trace_of run)
  /\ syscalls (trace_of run)
     = [socket AF_INET SOCK_STREAM 0; bind 3 wildcard_9000; listen 3 5;
        accept 3; recv 4 512 0; send 4 hello 5 0; recv 4 512 0; accept 3]
  /\ stderr_lines (trace_of run) = []
  /\ closes (trace_of run) = []
  /\ outcome_of run = Abrupt Blocked.
Proof.
  cbv zeta. repeat split; try (vm_compute; reflexivity).
  - vm_compute. do 6 right. left. reflexivity.
  - vm_compute. do 7 right. left. reflexivity.
Qed.

(** C3 (the code differs).  A server run that serves two clients, on
    descriptors 4 and 5, and ends when [accept] fails: the one [close] of
    the run is that of the listening socket 3, at cleanup; neither accepted
    socket is closed, not when its Echo Loop ends and not later. *)
Theorem server_never_closes_accepted_sockets :
  let run := Server.main lp64 server_argv two_clients_script in
  syscalls (trace_of run)
  = [socket AF_INET SOCK_STREAM 0; bind 3 wildcard_9000; listen 3 5;
     accept 3; recv 4 512 0; send 4 hello 5 0; recv 4 512 0;
     accept 3; recv 5 512 0;
     accept 3; close 3]
  /\ accepted (trace_of run) = [4; 5]
  /\ closes (trace_of run) = [3]
  /\ outcome_of run = Abrupt (Return 1).
Proof.
  cbv zeta. repeat split; vm_compute; reflexivity.
Qed.

(* ================================================================== *)
(** ** Every run ends *)



(* ================================================================== *)
(** ** The theorems at the scenarios *)

Lemma start_server_binds_any_address_given_port_witness :
  Server.start_server (Cstr 1 "localhost") 9000 5 true listen_witness_script =
  Server.start_server (Cstr 2 "192.168.1.7") 9000 5 true listen_witness_script
  /\
  trace_of
    (Server.start_server (Cstr 1 "localhost") 9000 5 true listen_witness_script)
  = [Ev_sys (socket AF_INET SOCK_STREAM 0) (Some (returns 3));
     Ev_sys (bind 3 (Sockaddr_in AF_INET (htons 9000) [x00; x00; x00; x00]))
       (Some (returns 0));
     Ev_sys (listen 3 5) (Some (returns 0))]
  /\ ntohs (htons 9000) = 9000.
Proof.
  pose proof (start_server_binds_any_address_given_port
                (Cstr 1 "localhost") (Cstr 2 "192.168.1.7") 9000 5 true
                listen_witness_script ltac:(lia)) as [Hsame [Hbind Hfirst]].
  split; [exact Hsame|]. split; [reflexivity|].
  apply (Hbind 3 (Sockaddr_in AF_INET (htons 9000) [x00; x00; x00; x00])
           (Some (returns 0))).
  simpl. right. left. reflexivity.
Defined.


Lemma client_short_transfer_is_fatal_witness :
  outcome_of (Client.main lp64 hello_argv short_send_script)
  = Abrupt (Return 1)
  /\
  outcome_of (Client.main lp64 hello_argv short_recv_script)
  = Abrupt (Return 1).
Proof.
  split.
  - pose proof (client_short_transfer_is_fatal lp64 hello_argv
                  short_send_script hello_locals
                  (firstn 5 (trace_of (Client.main lp64 hello_argv
                                         short_send_script)))
                  (Ev_sys (send 3 hello_sent 11 0) (Some (returns 7)))
                  (skipn 6 (trace_of (Client.main lp64 hello_argv
                                        short_send_script)))
                  ltac:(reflexivity) ltac:(vm_compute; reflexivity)) as H.
    cbv zeta in H. destruct H as [Hsend _].
    destruct (Hsend 3 hello_sent 11 0 (returns 7) eq_refl
                ltac:(vm_compute; discriminate)
                ltac:(vm_compute; discriminate)) as [_ Hout].
    exact Hout.
  - pose proof (client_short_transfer_is_fatal lp64 hello_argv
                  short_recv_script hello_locals
                  (firstn 7 (trace_of (Client.main lp64 hello_argv
                                         short_recv_script)))
                  (Ev_sys (recv 3 11 0)
                     (Some (returns_bytes 4 [xe6; xe5; x2b; x8a])))
                  (skipn 8 (trace_of (Client.main lp64 hello_argv
                                        short_recv_script)))
                  ltac:(reflexivity) ltac:(vm_compute; reflexivity)) as H.
    cbv zeta in H. destruct H as [_ Hrecv].
    destruct (Hrecv 3 11 0 (returns_bytes 4 [xe6; xe5; x2b; x8a]) eq_refl
                ltac:(vm_compute; discriminate)
                ltac:(vm_compute; discriminate)) as [_ Hout].
    exact Hout.
Defined.

Lemma client_empty_message_receives_nothing_witness :
  strlen (Client.message empty_message_locals) = 0
  /\ recv_requests
       (trace_of (Client.main lp64 empty_message_argv empty_message_script))
     = []
  /\ outcome_of (Client.main lp64 empty_message_argv empty_message_script)
     = Abrupt (Return 0).
Proof.
  destruct (client_empty_message_receives_nothing lp64 empty_message_argv
              empty_message_locals ltac:(reflexivity) ltac:(reflexivity))
    as [_ [Hnone Hok]].
  split; [reflexivity|]. split; [apply Hnone|].
  destruct (Hok (returns 3) (returns_bytes 1 loopback) (returns 0) (returns 0)
              [] ltac:(vm_compute; discriminate) ltac:(vm_compute; discriminate)
              ltac:(vm_compute; discriminate) ltac:(reflexivity))
    as [Hout _].
  exact Hout.
Defined.

Lemma recv_loop_requests_min_until_all_received_witness :
  recv_requests
    (trace_of (Client.recv_loop lp64 4 3 11 4 0 (repeat x00 12) chunked_script))
  = [4; 4; 3]
  /\
  requests_follow 4 (11 - 0)
    (recv_requests
       (trace_of
          (Client.recv_loop lp64 4 3 11 4 0 (repeat x00 12) chunked_script)))
  /\
  requests_follow 11 11
    (recv_requests (trace_of (Client.main lp64 hello_argv hello_script))).
Proof.
  destruct (recv_loop_requests_min_until_all_received lp64) as [Hloop Hmain].
  split; [reflexivity|]. split.
  - destruct (Hloop 4%nat 3 11 4 0 (repeat x00 12) chunked_script
                ltac:(lia) ltac:(unfold INT_MAX; lia) ltac:(left; lia)
                ltac:(simpl; lia)) as [Hreq _].
    exact Hreq.
  - destruct (Hmain hello_argv hello_script hello_locals ltac:(reflexivity))
      as [Hreq _].
    exact Hreq.
Defined.

Lemma client_success_takes_exactly_one_recv_witness :
  int_of (strlen (Client.message hello_locals)) = 11
  /\ outcome_of (Client.main lp64 hello_argv hello_script) = Abrupt (Return 0)
  /\ recv_requests (trace_of (Client.main lp64 hello_argv hello_script)) = [11]
  /\ recv_counts (trace_of (Client.main lp64 hello_argv hello_script)) = [11].
Proof.
  split; [reflexivity|]. split; [reflexivity|].
  destruct (client_success_takes_exactly_one_recv lp64 hello_argv hello_script
              hello_locals ltac:(reflexivity)) as [_ Hone].
  apply Hone; [vm_compute; discriminate | reflexivity].
Defined.

Lemma server_zero_read_reaccepts_failed_read_terminates_witness :
  (exists server_sockfd rl,
      In (Ev_sys (listen server_sockfd 5) (Some rl))
         (firstn 6 (trace_of (Server.main lp64 server_argv failed_read_script)))
      /\ closes
           (firstn 6 (trace_of (Server.main lp64 server_argv failed_read_script)))
         = []
      /\ (int_of (r_ret (returns 0)) = 0 ->
          exists x post',
            skipn 7 (trace_of (Server.main lp64 server_argv failed_read_script))
            = Ev_print stdout closed_line []
              :: Ev_sys (accept server_sockfd) x :: post')
      /\ (int_of (r_ret (returns 0)) < 0 ->
          exists x,
            skipn 7 (trace_of (Server.main lp64 server_argv failed_read_script))
            = [Ev_print stderr recv_failed_line
                 [Arg_int (int_of (r_ret (returns 0)))];
               Ev_sys (close server_sockfd) x] /\
            outcome_of (Server.main lp64 server_argv failed_read_script) =
            match x with
            | Some _ => Abrupt (Return 1)
            | None => Abrupt Blocked
            end)).
Proof.
  apply (server_zero_read_reaccepts_failed_read_terminates lp64 server_argv
           failed_read_script
           (firstn 6 (trace_of (Server.main lp64 server_argv failed_read_script)))
           4 512 0 (returns 0)
           (skipn 7 (trace_of (Server.main lp64 server_argv failed_read_script)))).
  vm_compute. reflexivity.
Defined.

(* ================================================================== *)
(** ** More on the argument loops *)

Lemma nth_error_app_at {A} (l suf : list A) (i : nat) :
  nth_error (l ++ suf) (length l + i) = nth_error suf i.
Proof.
  rewrite nth_error_app2 by lia. f_equal. lia.
Qed.

Lemma nth_error_pair_fst {A} (l : list A) (x y : A) :
  nth_error (l ++ [x; y]) (length l) = Some x.
Proof.
  pose proof (nth_error_app_at l [x; y] 0) as H.
  rewrite Nat.add_0_r in H. exact H.
Qed.

Lemma nth_error_pair_snd {A} (l : list A) (x y : A) :
  nth_error (l ++ [x; y]) (S (length l)) = Some y.
Proof.
  replace (S (length l)) with (length l + 1)%nat by lia.
  exact (nth_error_app_at l [x; y] 1).
Qed.

Section ClientParseMore.

Variable pf : platform.

(** Fuel beyond what the loop needs changes nothing. *)
Lemma client_parse_loop_fuel_irrelevant fuel1 :
  forall fuel2 argv idx l,
    (length argv - idx <= fuel1)%nat ->
    (length argv - idx <= fuel2)%nat ->
    Client.parse_loop fuel1 argv idx l = Client.parse_loop fuel2 argv idx l.
Proof.
  induction fuel1 as [|fuel1 IH]; intros fuel2 argv idx l H1 H2;
    rewrite (client_parse_loop_eq 0), (client_parse_loop_eq fuel2) ||
    rewrite (client_parse_loop_eq (S fuel1)), (client_parse_loop_eq fuel2).
  - destruct (Nat.ltb_spec idx (length argv)); [lia | reflexivity].
  - destruct (Nat.ltb_spec idx (length argv)); [|reflexivity].
    destruct fuel2 as [|fuel2]; [lia|].
    destruct (nth_error argv idx) as [arg|]; [|reflexivity].
    destruct (strcmp_eq0 arg "--hostname").
    { destruct (nth_error argv (S idx)); [apply IH; lia | reflexivity]. }
    destruct (strcmp_eq0 arg "--message").
    { destruct (nth_error argv (S idx)); [apply IH; lia | reflexivity]. }
    apply IH; lia.
Qed.

(** Once the front of [argv] is parsed, the loop goes on behind it with the
    locals the front gave. *)
Lemma client_parse_loop_app fuel :
  forall fuel' pre suf idx l l',
    Client.parse_loop fuel pre idx l = Parsed l' ->
    (idx <= length pre)%nat ->
    (length (pre ++ suf) - idx <= fuel')%nat ->
    Client.parse_loop fuel' (pre ++ suf) idx l =
    Client.parse_loop (length suf) (pre ++ suf) (length pre) l'.
Proof.
  induction fuel as [|fuel IH]; intros fuel' pre suf idx l l' Hp Hi Hf;
    rewrite client_parse_loop_eq in Hp.
  - destruct (Nat.ltb_spec idx (length pre)); [discriminate|].
    injection Hp as <-. assert (idx = length pre) by lia. subst idx.
    apply client_parse_loop_fuel_irrelevant; rewrite length_app in *; lia.
  - destruct (Nat.ltb_spec idx (length pre)) as [Hlt|Hge].
    2:{ injection Hp as <-. assert (idx = length pre) by lia. subst idx.
        apply client_parse_loop_fuel_irrelevant; rewrite length_app in *; lia. }
    rewrite length_app in Hf.
    destruct fuel' as [|fuel']; [lia|].
    rewrite client_parse_loop_eq.
    replace (idx <? length (pre ++ suf))%nat with true.
    2:{ symmetry. apply Nat.ltb_lt. rewrite length_app. lia. }
    rewrite nth_error_app1 by lia.
    destruct (nth_error pre idx) as [arg|]; [|discriminate].
    destruct (strcmp_eq0 arg "--hostname").
    { destruct (nth_error pre (S idx)) as [v|] eqn:Hv; [|discriminate].
      assert (S idx < length pre)%nat.
      { apply nth_error_Some. congruence. }
      rewrite nth_error_app1, Hv by lia.
      eapply IH; eauto; rewrite ?length_app; lia. }
    destruct (strcmp_eq0 arg "--message").
    { destruct (nth_error pre (S idx)) as [v|] eqn:Hv; [|discriminate].
      assert (S idx < length pre)%nat.
      { apply nth_error_Some. congruence. }
      rewrite nth_error_app1, Hv by lia.
      eapply IH; eauto; rewrite ?length_app; lia. }
    eapply IH; eauto; rewrite ?length_app; lia.
Qed.

Lemma client_parse_args_app pre suf l :
  (1 <= length pre)%nat ->
  Client.parse_args pf pre = Parsed l ->
  Client.parse_args pf (pre ++ suf) =
  Client.parse_loop (length suf) (pre ++ suf) (length pre) l.
Proof.
  intros Hlen Hp. unfold Client.parse_args in *.
  eapply client_parse_loop_app; eauto. lia.
Qed.

End ClientParseMore.

(** X1.  The client's argument loop works through [argv] from left to
    right.  With the program name alone the locals keep their defaults.
    Behind arguments that parse, one more argument that is not a flag sets
    the port to its [atoi] and leaves the rest; "--hostname v" sets the
    hostname to [v] and "--message v" the message to [v], whatever [v] is,
    and leave the rest.  So a later argument overrides an earlier one. *)
Theorem client_parse_args_left_to_right :
  forall (pf : platform),
    (forall prog, Client.parse_args pf [prog] = Parsed (Client.initial_locals pf))
    /\
    (forall pre l,
        (1 <= length pre)%nat ->
        Client.parse_args pf pre = Parsed l ->
        (forall a,
            chars a <> "--hostname" -> chars a <> "--message" ->
            Client.parse_args pf (pre ++ [a])
            = Parsed (Client.Locals (Client.hostname l) (Client.message l)
                        (atoi (chars a))))
        /\
        (forall f v,
            chars f = "--hostname" ->
            Client.parse_args pf (pre ++ [f; v])
            = Parsed (Client.Locals v (Client.message l) (Client.port_number l)))
        /\
        (forall f v,
            chars f = "--message" ->
            Client.parse_args pf (pre ++ [f; v])
            = Parsed (Client.Locals (Client.hostname l) v (Client.port_number l)))).
Proof.
  intros pf. split; [reflexivity|].
  intros pre l Hlen Hp.
  assert (Hin : forall suf, (0 < length suf)%nat ->
                  (length pre <? length (pre ++ suf))%nat = true).
  { intros suf Hs. apply Nat.ltb_lt. rewrite length_app. lia. }
  split; [|split].
  - intros a Hh Hm.
    rewrite (client_parse_args_app pf pre [a] l Hlen Hp).
    rewrite client_parse_loop_eq, Hin by (simpl; lia).
    cbn [length]. rewrite nth_error_app_last.
    unfold strcmp_eq0.
    destruct (String.eqb_spec (chars a) "--hostname"); [contradiction|].
    destruct (String.eqb_spec (chars a) "--message"); [contradiction|].
    rewrite client_parse_loop_eq.
    replace (S (length pre) <? length (pre ++ [a]))%nat with false.
    2:{ symmetry. apply Nat.ltb_ge. rewrite length_app. simpl. lia. }
    reflexivity.
  - intros f v Hf.
    rewrite (client_parse_args_app pf pre [f; v] l Hlen Hp).
    rewrite client_parse_loop_eq, Hin by (simpl; lia).
    cbn [length].
    rewrite nth_error_pair_fst, nth_error_pair_snd.
    unfold strcmp_eq0. rewrite Hf. cbn [String.eqb Ascii.eqb Bool.eqb].
    rewrite client_parse_loop_eq.
    replace (S (S (length pre)) <? length (pre ++ [f; v]))%nat with false.
    2:{ symmetry. apply Nat.ltb_ge. rewrite length_app. simpl. lia. }
    reflexivity.
  - intros f v Hf.
    rewrite (client_parse_args_app pf pre [f; v] l Hlen Hp).
    rewrite client_parse_loop_eq, Hin by (simpl; lia).
    cbn [length].
    rewrite nth_error_pair_fst, nth_error_pair_snd.
    unfold strcmp_eq0. rewrite Hf. cbn [String.eqb Ascii.eqb Bool.eqb].
    rewrite client_parse_loop_eq.
    replace (S (S (length pre)) <? length (pre ++ [f; v]))%nat with false.
    2:{ symmetry. apply Nat.ltb_ge. rewrite length_app. simpl. lia. }
    reflexivity.
Qed.

Section ServerParseMore.

Variable pf : platform.

Lemma server_parse_loop_fuel_irrelevant fuel1 :
  forall fuel2 argv idx l,
    (length argv - idx <= fuel1)%nat ->
    (length argv - idx <= fuel2)%nat ->
    Server.parse_loop fuel1 argv idx l = Server.parse_loop fuel2 argv idx l.
Proof.
  induction fuel1 as [|fuel1 IH]; intros fuel2 argv idx l H1 H2;
    rewrite (server_parse_loop_eq 0), (server_parse_loop_eq fuel2) ||
    rewrite (server_parse_loop_eq (S fuel1)), (server_parse_loop_eq fuel2).
  - destruct (Nat.ltb_spec idx (length argv)); [lia | reflexivity].
  - destruct (Nat.ltb_spec idx (length argv)); [|reflexivity].
    destruct fuel2 as [|fuel2]; [lia|].
    destruct (nth_error argv idx) as [arg|]; [|reflexivity].
    destruct (strcmp_eq0 arg "--hostname").
    { destruct (nth_error argv (S idx)); [apply IH; lia | reflexivity]. }
    apply IH; lia.
Qed.

Lemma server_parse_loop_app fuel :
  forall fuel' pre suf idx l l',
    Server.parse_loop fuel pre idx l = Parsed l' ->
    (idx <= length pre)%nat ->
    (length (pre ++ suf) - idx <= fuel')%nat ->
    Server.parse_loop fuel' (pre ++ suf) idx l =
    Server.parse_loop (length suf) (pre ++ suf) (length pre) l'.
Proof.
  induction fuel as [|fuel IH]; intros fuel' pre suf idx l l' Hp Hi Hf;
    rewrite server_parse_loop_eq in Hp.
  - destruct (Nat.ltb_spec idx (length pre)); [discriminate|].
    injection Hp as <-. assert (idx = length pre) by lia. subst idx.
    apply server_parse_loop_fuel_irrelevant; rewrite length_app in *; lia.
  - destruct (Nat.ltb_spec idx (length pre)) as [Hlt|Hge].
    2:{ injection Hp as <-. assert (idx = length pre) by lia. subst idx.
        apply server_parse_loop_fuel_irrelevant; rewrite length_app in *; lia. }
    rewrite length_app in Hf.
    destruct fuel' as [|fuel']; [lia|].
    rewrite server_parse_loop_eq.
    replace (idx <? length (pre ++ suf))%nat with true.
    2:{ symmetry. apply Nat.ltb_lt. rewrite length_app. lia. }
    rewrite nth_error_app1 by lia.
    destruct (nth_error pre idx) as [arg|]; [|discriminate].
    destruct (strcmp_eq0 arg "--hostname").
    { destruct (nth_error pre (S idx)) as [v|] eqn:Hv; [|discriminate].
      assert (S idx < length pre)%nat.
      { apply nth_error_Some. congruence. }
      rewrite nth_error_app1, Hv by lia.
      eapply IH; eauto; rewrite ?length_app; lia. }
    eapply IH; eauto; rewrite ?length_app; lia.
Qed.

Lemma server_parse_args_app pre suf l :
  (1 <= length pre)%nat ->
  Server.parse_args pf pre = Parsed l ->
  Server.parse_args pf (pre ++ suf) =
  Server.parse_loop (length suf) (pre ++ suf) (length pre) l.
Proof.
  intros Hlen Hp. unfold Server.parse_args in *.
  eapply server_parse_loop_app; eauto. lia.
Qed.

End ServerParseMore.

(** X2.  The server's argument loop works through [argv] from left to
    right.  With the program name alone the locals keep their defaults
    (hostname "localhost", port -1).  Behind arguments that parse, one more
    argument other than "--hostname" (also "--message", which the server
    does not know) sets the port to its [atoi]; "--hostname v" sets the
    hostname to [v], whatever [v] is.  The other local is left as it was. *)
Theorem server_parse_args_left_to_right :
  forall (pf : platform),
    (forall prog, Server.parse_args pf [prog] = Parsed (Server.initial_locals pf))
    /\
    (forall pre l,
        (1 <= length pre)%nat ->
        Server.parse_args pf pre = Parsed l ->
        (forall a,
            chars a <> "--hostname" ->
            Server.parse_args pf (pre ++ [a])
            = Parsed (Server.Locals (Server.hostname l) (atoi (chars a))))
        /\
        (forall f v,
            chars f = "--hostname" ->
            Server.parse_args pf (pre ++ [f; v])
            = Parsed (Server.Locals v (Server.port_number l)))).
Proof.
  intros pf. split; [reflexivity|].
  intros pre l Hlen Hp.
  assert (Hin : forall suf, (0 < length suf)%nat ->
                  (length pre <? length (pre ++ suf))%nat = true).
  { intros suf Hs. apply Nat.ltb_lt. rewrite length_app. lia. }
  split.
  - intros a Hh.
    rewrite (server_parse_args_app pf pre [a] l Hlen Hp).
    rewrite server_parse_loop_eq, Hin by (simpl; lia).
    cbn [length]. rewrite nth_error_app_last.
    unfold strcmp_eq0.
    destruct (String.eqb_spec (chars a) "--hostname"); [contradiction|].
    rewrite server_parse_loop_eq.
    replace (S (length pre) <? length (pre ++ [a]))%nat with false.
    2:{ symmetry. apply Nat.ltb_ge. rewrite length_app. simpl. lia. }
    reflexivity.
  - intros f v Hf.
    rewrite (server_parse_args_app pf pre [f; v] l Hlen Hp).
    rewrite server_parse_loop_eq, Hin by (simpl; lia).
    cbn [length].
    rewrite nth_error_pair_fst, nth_error_pair_snd.
    unfold strcmp_eq0. rewrite Hf. cbn [String.eqb Ascii.eqb Bool.eqb].
    rewrite server_parse_loop_eq.
    replace (S (S (length pre)) <? length (pre ++ [f; v]))%nat with false.
    2:{ symmetry. apply Nat.ltb_ge. rewrite length_app. simpl. lia. }
    reflexivity.
Qed.

(* The overrun, read backwards. *)

Lemma firstn_app_last {A} (l : list A) (x : A) n :
  nth_error l n = Some x -> S n = length l -> l = firstn n l ++ [x].
Proof.
  revert n. induction l as [|a l IH]; intros n Hn Hlen; [discriminate Hlen|].
  destruct n as [|n]; simpl in *.
  - destruct l; [|discriminate Hlen]. congruence.
  - f_equal. apply IH; [assumption | lia].
Qed.

Lemma client_parse_loop_overrun fuel :
  forall argv idx l i,
    Client.parse_loop fuel argv idx l = Argv_overrun i ->
    (length argv - idx <= fuel)%nat ->
    i = length argv /\
    exists pre flag l',
      argv = pre ++ [flag] /\
      (chars flag = "--hostname" \/ chars flag = "--message") /\
      (idx <= length pre)%nat /\
      Client.parse_loop fuel pre idx l = Parsed l'.
Proof.
  induction fuel as [|fuel IH]; intros argv idx l i Hp Hf;
    rewrite client_parse_loop_eq in Hp.
  - destruct (Nat.ltb_spec idx (length argv)); [lia | discriminate].
  - destruct (Nat.ltb_spec idx (length argv)) as [Hlt|]; [|discriminate].
    destruct (nth_error argv idx) as [arg|] eqn:Harg.
    2:{ apply nth_error_None in Harg. lia. }
    assert (Hstep :
      forall idx' l1,
        (idx < idx')%nat ->
        Client.parse_loop fuel argv idx' l1 = Argv_overrun i ->
        (length argv - idx' <= fuel)%nat ->
        (forall pre, (idx' <= length pre)%nat ->
           (forall k, (k < idx')%nat -> nth_error pre k = nth_error argv k) ->
           Client.parse_loop (S fuel) pre idx l = Client.parse_loop fuel pre idx' l1) ->
        i = length argv /\
        exists pre flag l',
          argv = pre ++ [flag] /\
          (chars flag = "--hostname" \/ chars flag = "--message") /\
          (idx <= length pre)%nat /\
          Client.parse_loop (S fuel) pre idx l = Parsed l').
    { intros idx' l1 Hlt' Hrec Hfuel Hpre.
      destruct (IH argv idx' l1 i Hrec Hfuel)
        as [Hi [pre [flag [l' [Hargv [Hflag [Hle Hparsed]]]]]]].
      split; [exact Hi|]. exists pre, flag, l'.
      repeat split; auto; [lia|].
      rewrite Hpre; auto.
      intros k Hk. rewrite Hargv. rewrite nth_error_app1 by lia. reflexivity. }
    destruct (strcmp_eq0 arg "--hostname") eqn:Hh.
    { destruct (nth_error argv (S idx)) as [v|] eqn:Hv.
      - apply (Hstep (S (S idx)) _ ltac:(lia) Hp ltac:(lia)).
        intros pre Hle Hsame.
        rewrite (client_parse_loop_eq (S fuel)).
        replace (idx <? length pre)%nat with true
          by (symmetry; apply Nat.ltb_lt; lia).
        rewrite !Hsame, Harg, Hh, Hv by lia. reflexivity.
      - injection Hp as <-. apply nth_error_None in Hv.
        assert (Hlen : S idx = length argv) by lia.
        split; [exact Hlen|].
        exists (firstn idx argv), arg, l.
        assert (Hfl : length (firstn idx argv) = idx)
          by (rewrite length_firstn; lia).
        repeat split.
        + apply firstn_app_last; assumption.
        + left. unfold strcmp_eq0 in Hh. apply String.eqb_eq. exact Hh.
        + lia.
        + rewrite client_parse_loop_eq, Hfl, Nat.ltb_irrefl. reflexivity. }
    destruct (strcmp_eq0 arg "--message") eqn:Hm.
    { destruct (nth_error argv (S idx)) as [v|] eqn:Hv.
      - apply (Hstep (S (S idx)) _ ltac:(lia) Hp ltac:(lia)).
        intros pre Hle Hsame.
        rewrite (client_parse_loop_eq (S fuel)).
        replace (idx <? length pre)%nat with true
          by (symmetry; apply Nat.ltb_lt; lia).
        rewrite !Hsame, Harg, Hh, Hm, Hv by lia. reflexivity.
      - injection Hp as <-. apply nth_error_None in Hv.
        assert (Hlen : S idx = length argv) by lia.
        split; [exact Hlen|].
        exists (firstn idx argv), arg, l.
        assert (Hfl : length (firstn idx argv) = idx)
          by (rewrite length_firstn; lia).
        repeat split.
        + apply firstn_app_last; assumption.
        + right. unfold strcmp_eq0 in Hm. apply String.eqb_eq. exact Hm.
        + lia.
        + rewrite client_parse_loop_eq, Hfl, Nat.ltb_irrefl. reflexivity. }
    apply (Hstep (S idx) _ ltac:(lia) Hp ltac:(lia)).
    intros pre Hle Hsame.
    rewrite (client_parse_loop_eq (S fuel)).
    replace (idx <? length pre)%nat with true
      by (symmetry; apply Nat.ltb_lt; lia).
    rewrite !Hsame, Harg, Hh, Hm by lia. reflexivity.
Qed.

Lemma server_parse_loop_overrun fuel :
  forall argv idx l i,
    Server.parse_loop fuel argv idx l = Argv_overrun i ->
    (length argv - idx <= fuel)%nat ->
    i = length argv /\
    exists pre flag l',
      argv = pre ++ [flag] /\
      chars flag = "--hostname" /\
      (idx <= length pre)%nat /\
      Server.parse_loop fuel pre idx l = Parsed l'.
Proof.
  induction fuel as [|fuel IH]; intros argv idx l i Hp Hf;
    rewrite server_parse_loop_eq in Hp.
  - destruct (Nat.ltb_spec idx (length argv)); [lia | discriminate].
  - destruct (Nat.ltb_spec idx (length argv)) as [Hlt|]; [|discriminate].
    destruct (nth_error argv idx) as [arg|] eqn:Harg.
    2:{ apply nth_error_None in Harg. lia. }
    assert (Hstep :
      forall idx' l1,
        (idx < idx')%nat ->
        Server.parse_loop fuel argv idx' l1 = Argv_overrun i ->
        (length argv - idx' <= fuel)%nat ->
        (forall pre, (idx' <= length pre)%nat ->
           (forall k, (k < idx')%nat -> nth_error pre k = nth_error argv k) ->
           Server.parse_loop (S fuel) pre idx l = Server.parse_loop fuel pre idx' l1) ->
        i = length argv /\
        exists pre flag l',
          argv = pre ++ [flag] /\
          chars flag = "--hostname" /\
          (idx <= length pre)%nat /\
          Server.parse_loop (S fuel) pre idx l = Parsed l').
    { intros idx' l1 Hlt' Hrec Hfuel Hpre.
      destruct (IH argv idx' l1 i Hrec Hfuel)
        as [Hi [pre [flag [l' [Hargv [Hflag [Hle Hparsed]]]]]]].
      split; [exact Hi|]. exists pre, flag, l'.
      repeat split; auto; [lia|].
      rewrite Hpre; auto.
      intros k Hk. rewrite Hargv. rewrite nth_error_app1 by lia. reflexivity. }
    destruct (strcmp_eq0 arg "--hostname") eqn:Hh.
    { destruct (nth_error argv (S idx)) as [v|] eqn:Hv.
      - apply (Hstep (S (S idx)) _ ltac:(lia) Hp ltac:(lia)).
        intros pre Hle Hsame.
        rewrite (server_parse_loop_eq (S fuel)).
        replace (idx <? length pre)%nat with true
          by (symmetry; apply Nat.ltb_lt; lia).
        rewrite !Hsame, Harg, Hh, Hv by lia. reflexivity.
      - injection Hp as <-. apply nth_error_None in Hv.
        assert (Hlen : S idx = length argv) by lia.
        split; [exact Hlen|].
        exists (firstn idx argv), arg, l.
        assert (Hfl : length (firstn idx argv) = idx)
          by (rewrite length_firstn; lia).
        repeat split.
        + apply firstn_app_last; assumption.
        + unfold strcmp_eq0 in Hh. apply String.eqb_eq. exact Hh.
        + lia.
        + rewrite server_parse_loop_eq, Hfl, Nat.ltb_irrefl. reflexivity. }
    apply (Hstep (S idx) _ ltac:(lia) Hp ltac:(lia)).
    intros pre Hle Hsame.
    rewrite (server_parse_loop_eq (S fuel)).
    replace (idx <? length pre)%nat with true
      by (symmetry; apply Nat.ltb_lt; lia).
    rewrite !Hsame, Harg, Hh by lia. reflexivity.
Qed.

(** X3.  The argument loops read [argv] out of range in one way only.  When
    a loop does, the index is [argc], no further; the last argument is a
    flag that takes a value, and the arguments before it parse completely.
    Every other [argv] is parsed to the end. *)
Theorem argv_is_read_out_of_range_only_at_argc :
  forall (pf : platform) (argv : list cstr),
    ((exists l, Client.parse_args pf argv = Parsed l) \/
     (Client.parse_args pf argv = Argv_overrun (length argv) /\
      exists pre flag l,
        argv = pre ++ [flag] /\
        (1 <= length pre)%nat /\
        (chars flag = "--hostname" \/ chars flag = "--message") /\
        Client.parse_args pf pre = Parsed l))
    /\
    ((exists l, Server.parse_args pf argv = Parsed l) \/
     (Server.parse_args pf argv = Argv_overrun (length argv) /\
      exists pre flag l,
        argv = pre ++ [flag] /\
        (1 <= length pre)%nat /\
        chars flag = "--hostname" /\
        Server.parse_args pf pre = Parsed l)).
Proof.
  intros pf argv. split.
  - destruct (Client.parse_args pf argv) as [l|i|] eqn:Hp.
    + left. eauto.
    + right. unfold Client.parse_args in Hp.
      destruct (client_parse_loop_overrun _ _ _ _ _ Hp ltac:(lia))
        as [-> [pre [flag [l' [Hargv [Hflag [Hle Hparsed]]]]]]].
      split; [reflexivity|]. exists pre, flag, l'.
      repeat split; auto.
      unfold Client.parse_args. rewrite <- Hparsed.
      apply client_parse_loop_fuel_irrelevant;
        try rewrite Hargv; rewrite ?length_app; simpl; lia.
    + exfalso. exact (client_parse_args_fuel pf argv Hp).
  - destruct (Server.parse_args pf argv) as [l|i|] eqn:Hp.
    + left. eauto.
    + right. unfold Server.parse_args in Hp.
      destruct (server_parse_loop_overrun _ _ _ _ _ Hp ltac:(lia))
        as [-> [pre [flag [l' [Hargv [Hflag [Hle Hparsed]]]]]]].
      split; [reflexivity|]. exists pre, flag, l'.
      repeat split; auto.
      unfold Server.parse_args. rewrite <- Hparsed.
      apply server_parse_loop_fuel_irrelevant;
        try rewrite Hargv; rewrite ?length_app; simpl; lia.
    + exfalso. exact (server_parse_args_fuel pf argv Hp).
Qed.

(* ================================================================== *)
(** ** More on the client *)


(** Conditions of the paths, as propositions. *)
Ltac bool_hyps :=
  repeat match goal with
  | H : (_ <? _) = true |- _ => apply Z.ltb_lt in H
  | H : (_ <? _) = false |- _ => apply Z.ltb_ge in H
  | H : (_ =? _) = true |- _ => apply Z.eqb_eq in H
  | H : (_ =? _) = false |- _ => apply Z.eqb_neq in H
  | H : (_ <=? _) = true |- _ => apply Z.leb_le in H
  | H : (_ <=? _) = false |- _ => apply Z.leb_gt in H
  end.

(** X5.  The client returns 0 exactly when [socket], [gethostbyname] and
    [connect] succeed, [send] returns the message length, and, unless that
    length is 0, the one [recv] returns the message length as well. *)
Theorem client_returns_0_iff_full_exchange :
  forall (pf : platform) (argv : list cstr) (script : list response)
         (l : Client.locals),
    Client.parse_args pf argv = Parsed l ->
    (2 <= length argv)%nat ->
    let message_len := int_of (strlen (Client.message l)) in
    outcome_of (Client.main pf argv script) = Abrupt (Return 0)
    <->
    exists r1 r2 r3 r4 rest,
      script = r1 :: r2 :: r3 :: r4 :: rest /\
      0 <= int_of (r_ret r1) /\
      r_ret r2 <> 0 /\
      0 <= int_of (r_ret r3) /\
      0 <= int_of (r_ret r4) /\
      int_of (r_ret r4) = message_len /\
      (message_len = 0 \/
       exists r5 rest', rest = r5 :: rest' /\ int_of (r_ret r5) = message_len).
Proof.
  intros pf argv script l Hp Hargc2 message_len. subst message_len.
  client_paths pf argv script; try discriminate Hp;
    try (injection Hp as <-; cbn [Client.message]);
    try (apply Z.ltb_lt in Hargc; lia).
  all: bool_hyps.
  all: split;
    [ try (intros H; discriminate H)
    | try (intros (q1 & q2 & q3 & q4 & rest0 & Hs & H1 & H2 & H3 & H4 & H5 & H6);
           try discriminate Hs; injection Hs; intros; subst;
           try lia; try contradiction;
           destruct H6 as [H6 | (q5 & rest1 & Hr & H6)];
           try discriminate Hr; try (injection Hr; intros; subst);
           try lia; try congruence; reflexivity) ].
  - intros _. exists r1, r2, r3, r4, script.
    repeat split; auto. left. congruence.
  - intros _. exists r1, r2, r3, r4, (r5 :: script).
    repeat split; auto. right. exists r5, script. split; congruence.
Qed.

(** X6.  In every client run a call that fails ([socket], [connect],
    [send] or [recv] returning a negative value, [gethostbyname] returning
    NULL) is followed by its one error line on stderr and by nothing else:
    no call is retried, no later call is made, and the run returns 1. *)
Theorem client_failed_call_is_fatal :
  forall (pf : platform) (argv : list cstr) (script : list response)
         (pre : list event) (c : syscall) (r : response) (post : list event)
         (msg : string),
    trace_of (Client.main pf argv script) = pre ++ Ev_sys c (Some r) :: post ->
    client_failure c r = Some msg ->
    post = [Ev_print stderr msg []] /\
    outcome_of (Client.main pf argv script) = Abrupt (Return 1).
Proof.
  intros pf argv script pre c r post msg Htrace Hfail.
  enough (Hall :
    at_each_event
      (fun _ e post =>
         forall c r msg,
           e = Ev_sys c (Some r) ->
           client_failure c r = Some msg ->
           post = [Ev_print stderr msg []] /\
           outcome_of (Client.main pf argv script) = Abrupt (Return 1))
      (trace_of (Client.main pf argv script))).
  { exact (Hall pre _ post Htrace c r msg eq_refl Hfail). }
  clear.
  client_paths pf argv script; cbn [app].
  all: repeat (apply at_each_event_cons;
               [ cbv beta; intros c0 r0 msg0 Heq Hfail0;
                 solve
                   [ discriminate Heq
                   | injection Heq as <- <-; cbn [client_failure] in Hfail0;
                     match type of Hfail0 with
                     | (if ?b then _ else _) = _ =>
                         destruct b eqn:Hb;
                         [injection Hfail0 as <- | discriminate Hfail0]
                     end;
                     first [ split; reflexivity
                           | congruence
                           | apply Z.ltb_lt in Hb; lia ] ]
               | ]).
  all: apply at_each_event_nil.
Qed.

Lemma length_store_bytes buf bs :
  (length bs <= length buf)%nat -> length (store_bytes buf bs) = length buf.
Proof.
  intros H. unfold store_bytes. rewrite length_app, length_skipn. lia.
Qed.

Lemma length_store_byte buf i b : length (store_byte buf i b) = length buf.
Proof.
  revert i. induction buf as [|x buf IH]; intros [|i]; simpl; auto.
Qed.

Lemma nth_error_store_byte buf i b :
  (i < length buf)%nat -> nth_error (store_byte buf i b) i = Some b.
Proof.
  revert i. induction buf as [|x buf IH]; intros [|i] H; simpl in *;
    try lia; auto. apply IH. lia.
Qed.

Lemma store_byte_last bs old b :
  store_byte (bs ++ [old]) (length bs) b = bs ++ [b].
Proof.
  induction bs as [|x bs IH]; simpl; [reflexivity|]. rewrite IH. reflexivity.
Qed.

(** The receive buffer through the loop: its size never changes, and each
    completed iteration leaves a NUL in the extra entry behind the
    capacity. *)
Lemma recv_loop_buffer pf fuel sockfd message_len rx_buffer_len :
  forall total_received rx_buffer script total rx,
    0 <= total_received <= message_len ->
    message_len <= INT_MAX ->
    0 <= rx_buffer_len ->
    length rx_buffer = S (Z.to_nat rx_buffer_len) ->
    outcome_of
      (Client.recv_loop pf fuel sockfd message_len rx_buffer_len total_received
         rx_buffer script)
    = Normal (total, rx) ->
    length rx = length rx_buffer /\
    (total_received < message_len ->
     nth_error rx (Z.to_nat rx_buffer_len) = Some x00).
Proof.
  induction fuel as [|fuel IH];
    intros total_received rx_buffer script total rx Ht Hm Hc Hlen Hout.
  - destruct (Z.ltb_spec total_received message_len) as [Hlt|Hge].
    + simpl in Hout.
      replace (total_received <? message_len) with true in Hout
        by (symmetry; apply Z.ltb_lt; lia).
      discriminate Hout.
    + rewrite recv_loop_done in Hout by lia. injection Hout as <- <-.
      split; [reflexivity | lia].
  - destruct (Z.eq_dec total_received message_len) as [Hdone|Hmore].
    { rewrite recv_loop_done in Hout by lia. injection Hout as <- <-.
      split; [reflexivity | lia]. }
    destruct script as [|r script].
    { rewrite recv_loop_blocked in Hout by lia. discriminate Hout. }
    rewrite recv_loop_step in Hout by lia. cbv zeta in Hout.
    rewrite outcome_of_emit in Hout.
    destruct (int_of (r_ret r) <? 0); [discriminate Hout|].
    destruct (negb (int_of (r_ret r)
                    =? Z.min (message_len - total_received) rx_buffer_len));
      [discriminate Hout|].
    rewrite outcome_of_emit in Hout.
    set (q := Z.min (message_len - total_received) rx_buffer_len) in *.
    set (rx1 := store_byte
                  (store_bytes rx_buffer (firstn (Z.to_nat q) (r_bytes r)))
                  (Z.to_nat rx_buffer_len) x00) in *.
    assert (Hfit : (length (firstn (Z.to_nat q) (r_bytes r))
                    <= length rx_buffer)%nat).
    { rewrite length_firstn, Hlen. unfold q. lia. }
    assert (Hlen1 : length rx1 = length rx_buffer).
    { unfold rx1. rewrite length_store_byte. apply length_store_bytes, Hfit. }
    destruct (IH (total_received + q) rx1 script total rx
                ltac:(unfold q; lia) Hm Hc ltac:(congruence) Hout)
      as [Hl Hnul].
    split; [congruence|]. intros _.
    destruct (Z.eq_dec (total_received + q) message_len) as [Hlast|Hnot].
    + rewrite recv_loop_done in Hout by lia. injection Hout as _ <-.
      unfold rx1. apply nth_error_store_byte.
      rewrite length_store_bytes by exact Hfit. lia.
    + apply Hnul. unfold q in *. lia.
Qed.

(** X7.  The receive loop never writes outside the receive buffer of
    capacity plus one bytes: the buffer keeps its size, and when the loop
    falls through after at least one [recv], the extra byte behind the
    capacity is NUL.  With the capacity equal to the message length, as in
    [main], and a [recv] that stored as many bytes as it returned, the
    buffer is then the received bytes followed by NUL. *)
Theorem recv_loop_keeps_buffer_nul_terminated :
  forall (pf : platform) (fuel : nat) (sockfd message_len rx_buffer_len : Z)
         (total_received : Z) (rx_buffer : list byte)
         (script : list response) (total : Z) (rx : list byte),
    0 <= total_received <= message_len ->
    message_len <= INT_MAX ->
    0 <= rx_buffer_len ->
    length rx_buffer = S (Z.to_nat rx_buffer_len) ->
    outcome_of
      (Client.recv_loop pf fuel sockfd message_len rx_buffer_len total_received
         rx_buffer script)
    = Normal (total, rx) ->
    length rx = length rx_buffer
    /\ (total_received < message_len ->
        nth_error rx (Z.to_nat rx_buffer_len) = Some x00)
    /\ (forall r rest,
           script = r :: rest ->
           total_received = 0 ->
           rx_buffer_len = message_len ->
           0 < message_len ->
           Z.of_nat (length (r_bytes r)) = int_of (r_ret r) ->
           rx = r_bytes r ++ [x00]).
Proof.
  intros pf fuel sockfd message_len rx_buffer_len total_received rx_buffer
         script total rx Ht Hm Hc Hlen Hout.
  destruct (recv_loop_buffer pf fuel sockfd message_len rx_buffer_len
              total_received rx_buffer script total rx Ht Hm Hc Hlen Hout)
    as [Hl Hnul].
  split; [exact Hl|]. split; [exact Hnul|].
  intros r rest -> -> -> Hpos Hbytes.
  destruct fuel as [|fuel].
  { simpl in Hout.
    replace (0 <? message_len) with true in Hout
      by (symmetry; apply Z.ltb_lt; lia).
    discriminate Hout. }
  rewrite recv_loop_step in Hout by lia. cbv zeta in Hout.
  rewrite Z.sub_0_r, Z.min_id in Hout.
  rewrite outcome_of_emit in Hout.
  destruct (int_of (r_ret r) <? 0); [discriminate Hout|].
  destruct (Z.eqb_spec (int_of (r_ret r)) message_len) as [Hfull|];
    cbn [negb] in Hout; [|discriminate Hout].
  rewrite outcome_of_emit in Hout.
  rewrite recv_loop_done in Hout by lia. injection Hout as _ <-.
  assert (Hn : Z.to_nat message_len = length (r_bytes r)) by lia.
  rewrite Hn, firstn_all. unfold store_bytes.
  assert (Hone : exists old, skipn (length (r_bytes r)) rx_buffer = [old]).
  { assert (Hs : length (skipn (length (r_bytes r)) rx_buffer) = 1%nat)
      by (rewrite length_skipn; lia).
    destruct (skipn (length (r_bytes r)) rx_buffer) as [|old [|? ?]];
      try discriminate Hs. eauto. }
  destruct Hone as [old ->]. apply store_byte_last.
Qed.

(* ================================================================== *)
(** ** More on the server *)

Lemma accepted_app t1 t2 : accepted (t1 ++ t2) = accepted t1 ++ accepted t2.
Proof.
  induction t1 as [|[[] [r|]|f fmt args] t1 IH]; simpl; try congruence.
  destruct (int_of (r_ret r) <? 0); simpl; congruence.
Qed.

Lemma firstn_store_bytes_all n old bs :
  n = length bs -> firstn n (store_bytes old bs) = bs.
Proof.
  intros ->. unfold store_bytes.
  rewrite firstn_app, Nat.sub_diag, firstn_all. simpl. apply app_nil_r.
Qed.

Section EchoMore.

Variable pf : platform.

(** What is echoed: the bytes the [recv] before stored. *)
Lemma echo_payload echo_buffer r :
  0 < int_of (r_ret r) ->
  Z.of_nat (length (r_bytes r)) = int_of (r_ret r) ->
  int_of (r_ret r) <= 512 ->
  firstn (Z.to_nat (int_of (r_ret r)))
    (store_bytes echo_buffer
       (firstn (Z.to_nat Server.echo_buffer_len) (r_bytes r)))
  = r_bytes r.
Proof.
  intros Hpos Hlen Hfit.
  rewrite (firstn_all2 (n := Z.to_nat Server.echo_buffer_len))
    by (unfold Server.echo_buffer_len; lia).
  apply firstn_store_bytes_all. lia.
Qed.

Lemma echo_loop_events fuel :
  forall client_sockfd echo_buffer script,
    (length script < fuel)%nat ->
    let run := Server.echo_loop pf fuel client_sockfd echo_buffer script in
    at_each_event (echo_event_ok client_sockfd (outcome_of run)) (trace_of run)
    /\ accepted (trace_of run) = []
    /\ (exists y t, trace_of run = Ev_sys (recv client_sockfd 512 0) y :: t).
Proof.
  induction fuel as [|fuel IH]; intros client_sockfd echo_buffer script Hfuel;
    [simpl in Hfuel; lia|].
  cbv zeta.
  destruct script as [|r script].
  { rewrite echo_loop_blocked. observe_run.
    split; [|split; [reflexivity | eauto]].
    apply at_each_event_cons; [|apply at_each_event_nil].
    simpl. auto. }
  rewrite echo_loop_step. cbv zeta. simpl in Hfuel.
  destruct (Z.eqb_spec 0 (int_of (r_ret r))) as [Hzero|Hnz].
  { observe_run. split; [|split; [reflexivity | eauto]].
    apply at_each_event_cons; [simpl; auto|].
    apply at_each_event_cons; [simpl; auto|]. apply at_each_event_nil. }
  destruct (Z.ltb_spec (int_of (r_ret r)) 0) as [Hneg|Hpos].
  { observe_run. split; [|split; [reflexivity | eauto]].
    apply at_each_event_cons; [simpl; auto|].
    apply at_each_event_cons; [simpl; auto|]. apply at_each_event_nil. }
  assert (Hn : 0 < int_of (r_ret r)) by lia.
  pose proof (int_of_range (r_ret r)) as Hrange.
  assert (Hsend :
      exists pre' r0,
        [Ev_sys (recv client_sockfd Server.echo_buffer_len 0) (Some r)]
        = pre' ++ [Ev_sys (recv client_sockfd 512 0) (Some r0)] /\
        0 < int_of (r_ret r0) /\
        size_t_of (model pf) (int_of (r_ret r)) = int_of (r_ret r0) /\
        (Z.of_nat (length (r_bytes r0)) = int_of (r_ret r0) ->
         int_of (r_ret r0) <= 512 ->
         firstn (Z.to_nat (int_of (r_ret r)))
           (store_bytes echo_buffer
              (firstn (Z.to_nat Server.echo_buffer_len) (r_bytes r)))
         = r_bytes r0)).
  { exists [], r. repeat split; auto.
    - apply size_t_of_small. lia.
    - intros. apply echo_payload; auto. }
  destruct script as [|r' script].
  { observe_run. split; [|split; [reflexivity | eauto]].
    apply at_each_event_cons; [simpl; auto|].
    apply at_each_event_cons; [|apply at_each_event_nil].
    simpl. split; [reflexivity|]. split; [reflexivity|].
    split; [exact Hsend|]. intros r' Hr'. discriminate Hr'. }
  simpl in Hfuel.
  destruct (Z.ltb_spec (int_of (r_ret r')) 0) as [Hsneg|Hsok].
  { observe_run. split; [|split; [reflexivity | eauto]].
    apply at_each_event_cons; [simpl; auto|].
    apply at_each_event_cons.
    - simpl. split; [reflexivity|]. split; [reflexivity|].
      split; [exact Hsend|]. intros r0 Hr0. injection Hr0 as <-.
      split; [intros _; split; reflexivity | intros; lia].
    - apply at_each_event_cons; [simpl; auto|]. apply at_each_event_nil. }
  specialize (IH client_sockfd
                (store_bytes echo_buffer
                   (firstn (Z.to_nat Server.echo_buffer_len) (r_bytes r)))
                script ltac:(lia)).
  cbv zeta in IH. destruct IH as [IHev [IHacc [y [t Hfirst]]]].
  destruct (Server.echo_loop pf fuel client_sockfd
              (store_bytes echo_buffer
                 (firstn (Z.to_nat Server.echo_buffer_len) (r_bytes r)))
              script) as [[o t'] rest].
  cbn [trace_of outcome_of fst snd] in IHev, IHacc, Hfirst.
  observe_run.
  split; [|split; [simpl; exact IHacc | eauto]].
  apply at_each_event_cons; [simpl; auto|].
  apply at_each_event_cons.
  - simpl. split; [reflexivity|]. split; [reflexivity|].
    split; [exact Hsend|]. intros r0 Hr0. injection Hr0 as <-.
    split; [intros; lia | intros _; rewrite Hfirst; eauto].
  - revert IHev. apply at_each_event_weaken.
    intros pre e post. destruct e as [[] x|]; simpl; auto.
    intros (Hfd & Hfl & (pre' & r0 & Hpre & Hrest) & Hx).
    split; [exact Hfd|]. split; [exact Hfl|]. split; [|exact Hx].
    exists (Ev_sys (recv client_sockfd Server.echo_buffer_len 0) (Some r)
            :: Ev_sys
                 (send client_sockfd
                    (firstn (Z.to_nat (int_of (r_ret r)))
                       (store_bytes echo_buffer
                          (firstn (Z.to_nat Server.echo_buffer_len)
                             (r_bytes r))))
                    (size_t_of (model pf) (int_of (r_ret r))) 0)
                 (Some r')
            :: pre'), r0.
    rewrite Hpre. split; [reflexivity | exact Hrest].
Qed.

End EchoMore.

Lemma echo_event_ok_earlier client_sockfd o pre e post p :
  echo_event_ok client_sockfd o pre e post ->
  echo_event_ok client_sockfd o (p ++ pre) e post.
Proof.
  destruct e as [[] x|]; simpl; auto.
  intros (Hfd & Hfl & (pre' & r0 & Hpre & Hrest) & Hx).
  split; [exact Hfd|]. split; [exact Hfl|]. split; [|exact Hx].
  exists (p ++ pre'), r0. rewrite Hpre, app_assoc.
  split; [reflexivity | exact Hrest].
Qed.

Lemma echo_event_ok_later client_sockfd o pre e post more :
  echo_event_ok client_sockfd (Normal tt) pre e post ->
  echo_event_ok client_sockfd o pre e (post ++ more).
Proof.
  destruct e as [[] x|]; simpl; auto.
  intros (Hfd & Hfl & Hpre & Hx).
  split; [exact Hfd|]. split; [exact Hfl|]. split; [exact Hpre|].
  intros r' Hr'. destruct (Hx r' Hr') as [Hneg Hok]. split.
  - intros H. destruct (Hneg H) as [_ Hbad]. discriminate Hbad.
  - intros H. destruct (Hok H) as [y [post' ->]]. simpl. eauto.
Qed.

Lemma serve_event_ok_earlier server_sockfd o pre e post p :
  serve_event_ok server_sockfd o pre e post ->
  serve_event_ok server_sockfd o (p ++ pre) e post.
Proof.
  destruct e as [[] x|]; cbn [serve_event_ok]; auto.
  - intros [[earlier Hacc] Hecho]. split.
    + exists (accepted p ++ earlier).
      rewrite accepted_app, Hacc, app_assoc. reflexivity.
    + apply echo_event_ok_earlier. exact Hecho.
  - intros [[earlier Hacc] Hecho]. split.
    + exists (accepted p ++ earlier).
      rewrite accepted_app, Hacc, app_assoc. reflexivity.
    + apply echo_event_ok_earlier. exact Hecho.
Qed.

(** An event of the Echo Loop for a client just accepted, seen as an event
    of the accept loop. *)
Lemma echo_event_in_accept_loop server_sockfd r o pre e post :
  (int_of (r_ret r) <? 0) = false ->
  accepted pre = [] ->
  echo_event_ok (int_of (r_ret r)) o pre e post ->
  serve_event_ok server_sockfd o
    (Ev_sys (accept server_sockfd) (Some r)
     :: Ev_print stdout connected_line
          [Arg_int (int_of (r_ret r)); Arg_int (sin_port (r_peer r))]
     :: pre) e post.
Proof.
  intros Hr Hacc Hecho.
  assert (Hlast : exists earlier,
             accepted
               (Ev_sys (accept server_sockfd) (Some r)
                :: Ev_print stdout connected_line
                     [Arg_int (int_of (r_ret r));
                      Arg_int (sin_port (r_peer r))]
                :: pre) = earlier ++ [int_of (r_ret r)]).
  { exists []. cbn [accepted]. rewrite Hr, Hacc. reflexivity. }
  pose proof (echo_event_ok_earlier (int_of (r_ret r)) o pre e post
                [Ev_sys (accept server_sockfd) (Some r);
                 Ev_print stdout connected_line
                   [Arg_int (int_of (r_ret r));
                    Arg_int (sin_port (r_peer r))]] Hecho) as Hecho'.
  cbn [app] in Hecho'.
  destruct e as [[] x|]; cbn [serve_event_ok]; auto;
    try (cbn [echo_event_ok] in Hecho; contradiction).
  - destruct Hecho as [-> _]. split; [exact Hlast | exact Hecho'].
  - destruct Hecho as [-> _]. split; [exact Hlast | exact Hecho'].
Qed.

Section AcceptMore.

Variable pf : platform.

Lemma accept_loop_events fuel :
  forall server_sockfd script,
    (length script < fuel)%nat ->
    let run := Server.accept_loop pf fuel server_sockfd script in
    at_each_event (serve_event_ok server_sockfd (outcome_of run))
      (trace_of run).
Proof.
  induction fuel as [|fuel IH]; intros server_sockfd script Hfuel;
    [simpl in Hfuel; lia|].
  cbv zeta.
  destruct script as [|r script].
  { rewrite accept_loop_blocked. observe_run.
    apply at_each_event_cons; [|apply at_each_event_nil].
    cbn [serve_event_ok]. split; [reflexivity|].
    intros r Hr. discriminate Hr. }
  rewrite accept_loop_step. cbv zeta. simpl in Hfuel.
  destruct (Z.ltb_spec (int_of (r_ret r)) 0) as [Hneg|Hok].
  { observe_run.
    apply at_each_event_cons.
    - cbn [serve_event_ok]. split; [reflexivity|].
      intros r0 Hr0. injection Hr0 as <-.
      split; [intros _; split; reflexivity | intros; lia].
    - apply at_each_event_cons; [simpl; auto|]. apply at_each_event_nil. }
  assert (Hr : (int_of (r_ret r) <? 0) = false) by (apply Z.ltb_ge; lia).
  rewrite bnd_eq.
  pose proof (echo_loop_reads pf fuel (int_of (r_ret r))
                (repeat x00 (Z.to_nat Server.echo_buffer_len)) script
                ltac:(lia)) as Hreads.
  pose proof (echo_loop_events pf fuel (int_of (r_ret r))
                (repeat x00 (Z.to_nat Server.echo_buffer_len)) script
                ltac:(lia)) as Hecho.
  cbv zeta in Hreads, Hecho.
  destruct Hreads as [_ [_ [Hlen Hout]]].
  destruct Hecho as [Hev [Hacc [y [t Hfirst]]]].
  destruct (Server.echo_loop pf fuel (int_of (r_ret r))
              (repeat x00 (Z.to_nat Server.echo_buffer_len)) script)
    as [[oE tE] restE].
  cbn [outcome_of trace_of rest_of fst snd] in Hlen, Hout, Hev, Hacc, Hfirst.
  assert (Hpre : forall pre e post, tE = pre ++ e :: post -> accepted pre = []).
  { intros pre e post Heq. rewrite Heq, accepted_app in Hacc.
    apply app_eq_nil in Hacc. tauto. }
  destruct Hout as [Ho|Ho].
  - (* the Echo Loop was left by [break] *)
    subst oE.
    specialize (IH server_sockfd restE ltac:(lia)). cbv zeta in IH.
    observe_run.
    destruct (Server.accept_loop pf fuel server_sockfd restE)
      as [[oA tA] restA].
    cbn [outcome_of trace_of fst snd] in IH |- *.
    apply at_each_event_cons.
    { cbn [serve_event_ok]. split; [reflexivity|].
      intros r0 Hr0. injection Hr0 as <-.
      split; [intros; lia | intros _; rewrite Hfirst; simpl; eauto]. }
    apply at_each_event_cons; [simpl; auto|].
    apply at_each_event_app.
    + intros pre e post Heq.
      apply echo_event_in_accept_loop; [exact Hr | eauto |].
      apply echo_event_ok_later. apply Hev. exact Heq.
    + intros pre e post Heq.
      apply (serve_event_ok_earlier server_sockfd oA pre e post
               (Ev_sys (accept server_sockfd) (Some r)
                :: Ev_print stdout connected_line
                     [Arg_int (int_of (r_ret r));
                      Arg_int (sin_port (r_peer r))]
                :: tE)).
      apply IH. exact Heq.
  - (* the Echo Loop was left for [cleanup], or is blocked *)
    assert (Hab : exists x, oE = Abrupt x) by (destruct Ho; eauto).
    destruct Hab as [x ->]. observe_run.
    apply at_each_event_cons.
    { cbn [serve_event_ok]. split; [reflexivity|].
      intros r0 Hr0. injection Hr0 as <-.
      split; [intros; lia | intros _; rewrite Hfirst; simpl; eauto]. }
    apply at_each_event_cons; [simpl; auto|].
    intros pre e post Heq.
    apply echo_event_in_accept_loop; [exact Hr | eauto |].
    apply Hev. exact Heq.
Qed.

End AcceptMore.

(** An event of the accept loop, seen as an event of the whole run:
    [head] is what [main] did before the loop, [tail] what it does behind
    it. *)
Lemma serve_event_in_main server_sockfd rl o_loop o_main head pre e post tail :
  In (Ev_sys (listen server_sockfd 5) (Some rl)) head ->
  (o_loop = Abrupt (Goto_cleanup 1) ->
   exists x,
     tail = [Ev_sys (close server_sockfd) x] /\
     o_main = match x with
              | Some _ => Abrupt (Return 1)
              | None => Abrupt Blocked
              end) ->
  serve_event_ok server_sockfd o_loop pre e post ->
  main_event_ok o_main (head ++ pre) e (post ++ tail).
Proof.
  intros Hlisten Htail Hserve.
  apply (serve_event_ok_earlier server_sockfd o_loop pre e post head)
    in Hserve.
  assert (Hin : forall fd,
             fd = server_sockfd ->
             exists rl0, In (Ev_sys (listen fd 5) (Some rl0)) (head ++ pre)).
  { intros fd ->. exists rl. apply in_or_app. left. exact Hlisten. }
  destruct e as [[] x|]; cbn [serve_event_ok main_event_ok] in *; auto;
    try contradiction.
  - (* accept *)
    destruct Hserve as [Hfd Hx]. subst.
    split; [apply Hin; reflexivity|].
    intros r Hr. destruct (Hx r Hr) as [Hneg Hok]. split.
    + intros H. destruct (Hneg H) as [-> Ho].
      destruct (Htail Ho) as [y [-> Hmain]]. exists y. split; auto.
    + intros H. destruct (Hok H) as [y [post' ->]]. simpl. eauto.
  - (* send *)
    destruct Hserve as [Hacc (Hfd & Hfl & Hpre & Hx)]. subst.
    split; [exact Hacc|]. split; [reflexivity|]. split; [exact Hpre|].
    intros r' Hr'. destruct (Hx r' Hr') as [Hneg Hok]. split.
    + intros H. destruct (Hneg H) as [-> Ho].
      destruct (Htail Ho) as [y [-> Hmain]].
      destruct (Hin server_sockfd eq_refl) as [rl0 Hrl0].
      exists server_sockfd, rl0, y. split; [exact Hrl0|]. split; auto.
    + intros H. destruct (Hok H) as [y [post' ->]]. simpl. eauto.
  - (* recv *)
    destruct Hserve as [Hacc (Hfd & Hlen & Hfl)]. subst. auto.
Qed.

(** Every event of every run of the server. *)
Lemma server_main_events pf argv script :
  at_each_event (main_event_ok (outcome_of (Server.main pf argv script)))
    (trace_of (Server.main pf argv script)).
Proof.
  server_paths pf argv script.
  8:{ (* the server is listening *)
    pose proof (accept_loop_events pf (S (length script)) (int_of (r_ret r1))
                  script ltac:(lia)) as Hev.
    cbv zeta in Hev.
    destruct (server_serving_run pf (int_of (r_ret r1)) script)
      as [[Ho Hrun]|[Ho [x [Htr Hout]]]].
    - rewrite Hrun. observe_run.
      do 4 (apply at_each_event_cons; [simpl; auto|]).
      intros pre e post Heq. cbv beta.
      rewrite <- (app_nil_r post).
      refine (serve_event_in_main (int_of (r_ret r1)) r3 _ _
                [_; _; _; _] pre e post [] _ _ (Hev pre e post Heq)).
      + simpl. auto.
      + rewrite Ho. intros Hbad. discriminate Hbad.
    - rewrite Htr, Hout.
      do 4 (apply at_each_event_cons; [simpl; auto|]).
      apply at_each_event_app.
      + intros pre e post Heq. cbv beta.
        refine (serve_event_in_main (int_of (r_ret r1)) r3 _ _
                  [_; _; _; _] pre e post _ _ _ (Hev pre e post Heq)).
        * simpl. auto.
        * intros _. exists x. split; reflexivity.
      + apply at_each_event_cons; [simpl; auto|]. apply at_each_event_nil. }
  all: repeat (apply at_each_event_cons; [simpl; auto|]).
  all: apply at_each_event_nil.
Qed.

(** X8.  Wherever a run of the server calls [send]: the call right before
    it was a [recv] on the same socket, of up to 512 bytes, that returned
    a count above 0; that socket is the one accepted last; the [send] asks
    for exactly that count, with no flags; and when [recv] stored as many
    bytes as it returned, at most 512, the bytes handed to [send] are those
    bytes. *)
Theorem server_echoes_what_it_received :
  forall (pf : platform) (argv : list cstr) (script : list response)
         (pre : list event) (fd : Z) (buf : list byte) (len flags : Z)
         (x : option response) (post : list event),
    trace_of (Server.main pf argv script)
    = pre ++ Ev_sys (send fd buf len flags) x :: post ->
    exists pre' r,
      pre = pre' ++ [Ev_sys (recv fd 512 0) (Some r)] /\
      (exists earlier, accepted pre = earlier ++ [fd]) /\
      0 < int_of (r_ret r) /\
      len = int_of (r_ret r) /\
      flags = 0 /\
      (Z.of_nat (length (r_bytes r)) = int_of (r_ret r) ->
       int_of (r_ret r) <= 512 ->
       buf = r_bytes r).
Proof.
  intros pf argv script pre fd buf len flags x post Htrace.
  pose proof (server_main_events pf argv script pre _ post Htrace) as H.
  cbn [main_event_ok] in H.
  destruct H as (Hacc & Hfl & (pre' & r & Hpre & Hpos & Hlen & Hbuf) & _).
  exists pre', r. repeat split; auto.
Qed.

(** X9.  Wherever [accept] or [send] returns a negative value in a run of
    the server: what follows is the error line of that call on stderr and
    the [close] of the listening socket, nothing else, and the run ends
    with status 1 once [close] returns. *)
Theorem server_failed_accept_or_send_is_fatal :
  forall (pf : platform) (argv : list cstr) (script : list response)
         (pre : list event) (c : syscall) (r : response) (post : list event)
         (msg : string),
    trace_of (Server.main pf argv script) = pre ++ Ev_sys c (Some r) :: post ->
    int_of (r_ret r) < 0 ->
    (exists fd, c = accept fd /\ msg = accept_failed_line) \/
    (exists fd buf len flags,
        c = send fd buf len flags /\ msg = send_failed_line) ->
    exists server_sockfd rl x,
      In (Ev_sys (listen server_sockfd 5) (Some rl)) pre /\
      post = [Ev_print stderr msg []; Ev_sys (close server_sockfd) x] /\
      outcome_of (Server.main pf argv script) =
      match x with
      | Some _ => Abrupt (Return 1)
      | None => Abrupt Blocked
      end.
Proof.
  intros pf argv script pre c r post msg Htrace Hneg Hc.
  pose proof (server_main_events pf argv script pre _ post Htrace) as H.
  destruct Hc as [[fd [-> ->]]|[fd [buf [len [flags [-> ->]]]]]];
    cbn [main_event_ok] in H.
  - destruct H as [[rl Hrl] Hx].
    destruct (Hx r eq_refl) as [Hfail _].
    destruct (Hfail Hneg) as [y [Hpost Ho]].
    exists fd, rl, y. auto.
  - destruct H as (_ & _ & _ & Hx).
    destruct (Hx r eq_refl) as [Hfail _].
    exact (Hfail Hneg).
Qed.

(** X10.  The server serves one client at a time.  Every [accept] of a run
    is on the socket it listens on; when it gives a descriptor, the server
    prints the line with the descriptor and the peer's port and then calls
    [recv] on that descriptor.  Every [recv] is on the socket accepted
    last, for 512 bytes, with no flags; and a [send] that did not fail is
    followed by the next [recv] on the same socket. *)
Theorem server_serves_the_client_accepted_last :
  forall (pf : platform) (argv : list cstr) (script : list response)
         (pre : list event) (c : syscall) (x : option response)
         (post : list event),
    trace_of (Server.main pf argv script) = pre ++ Ev_sys c x :: post ->
    (forall fd,
        c = accept fd ->
        (exists rl, In (Ev_sys (listen fd 5) (Some rl)) pre) /\
        (forall r,
            x = Some r ->
            0 <= int_of (r_ret r) ->
            exists y post',
              post = Ev_print stdout connected_line
                       [Arg_int (int_of (r_ret r));
                        Arg_int (sin_port (r_peer r))]
                     :: Ev_sys (recv (int_of (r_ret r)) 512 0) y :: post'))
    /\
    (forall fd len flags,
        c = recv fd len flags ->
        (exists earlier, accepted pre = earlier ++ [fd]) /\
        len = 512 /\ flags = 0)
    /\
    (forall fd buf len flags r,
        c = send fd buf len flags ->
        x = Some r ->
        0 <= int_of (r_ret r) ->
        exists y post', post = Ev_sys (recv fd 512 0) y :: post').
Proof.
  intros pf argv script pre c x post Htrace.
  pose proof (server_main_events pf argv script pre _ post Htrace) as H.
  split; [|split].
  - intros fd ->. cbn [main_event_ok] in H. destruct H as [Hrl Hx].
    split; [exact Hrl|].
    intros r Hr Hok. destruct (Hx r Hr) as [_ Hnext]. exact (Hnext Hok).
  - intros fd len flags ->. exact H.
  - intros fd buf len flags r -> Hr Hok. cbn [main_event_ok] in H.
    destruct H as (_ & _ & _ & Hx).
    destruct (Hx r Hr) as [_ Hnext]. exact (Hnext Hok).
Qed.

(** X11.  [start_server] returns 0 exactly when [socket] gave a descriptor,
    [bind] on it did not fail and [listen] on it returned 0, in this order
    and with nothing else done; the descriptor is then what the caller gets
    through [listening_sockfd_out].  When it returns another value nothing
    was stored, the last thing done was to print an error line, and the
    socket, if one was opened, has not been closed. *)
Theorem start_server_returns_0_iff_listening :
  forall (hostname : cstr) (port backlog : Z) (out : bool)
         (script : list response) (ret : Z) (stored : option Z),
    outcome_of (Server.start_server hostname port backlog out script)
    = Normal (ret, stored) ->
    let run := Server.start_server hostname port backlog out script in
    closes (trace_of run) = [] /\
    (ret = 0 <->
     exists r1 r2 r3 rest,
       script = r1 :: r2 :: r3 :: rest /\
       0 <= int_of (r_ret r1) /\
       0 <= int_of (r_ret r2) /\
       int_of (r_ret r3) = 0) /\
    (ret = 0 ->
     exists r1 r2 r3,
       trace_of run
       = [Ev_sys (socket AF_INET SOCK_STREAM 0) (Some r1);
          Ev_sys (bind (int_of (r_ret r1))
                    (Sockaddr_in AF_INET (htons port) (le_bytes 4 INADDR_ANY)))
            (Some r2);
          Ev_sys (listen (int_of (r_ret r1)) backlog) (Some r3)] /\
       stored = (if out then Some (int_of (r_ret r1)) else None) /\
       script = r1 :: r2 :: r3 :: rest_of run) /\
    (ret <> 0 ->
     stored = None /\
     exists pre msg, trace_of run = pre ++ [Ev_print stderr msg []]).
Proof.
  intros hostname port backlog out script ret stored. cbv zeta.
  unfold Server.start_server.
  destruct script as [|r1 s1]; run_steps; [discriminate|].
  destruct (Z.ltb_spec (int_of (r_ret r1)) 0) as [Hsock|Hsock]; run_steps.
  { intros H. injection H as <- <-. split; [reflexivity|].
    split; [|split; [discriminate|]].
    - split; [discriminate|].
      intros (r1' & r2 & r3 & rest & Heq & H1 & _).
      injection Heq as <- _. lia.
    - intros _. split; [reflexivity|].
      eexists [_], _. reflexivity. }
  destruct s1 as [|r2 s2]; run_steps; [discriminate|].
  destruct (Z.ltb_spec (int_of (r_ret r2)) 0) as [Hbind|Hbind]; run_steps.
  { intros H. injection H as <- <-. split; [reflexivity|].
    split; [|split; [intros; lia|]].
    - split; [intros; lia|].
      intros (r1' & r2' & r3 & rest & Heq & _ & H2 & _).
      injection Heq as _ <- _. lia.
    - intros _. split; [reflexivity|].
      eexists [_; _], _. reflexivity. }
  destruct s2 as [|r3 s3]; run_steps; [discriminate|].
  destruct (Z.eqb_spec 0 (int_of (r_ret r3))) as [Hlisten|Hlisten];
    cbn [negb]; run_steps.
  - intros H. injection H as <- <-. split; [reflexivity|].
    split; [|split; [|intros Hbad; congruence]].
    + split; [|congruence].
      intros _. exists r1, r2, r3, s3. auto.
    + intros _. exists r1, r2, r3. auto.
  - intros H. injection H as <- <-. split; [reflexivity|].
    split; [|split; [intros; congruence|]].
    + split; [intros; congruence|].
      intros (r1' & r2' & r3' & rest & Heq & _ & _ & H3).
      injection Heq as _ _ <- _. congruence.
    + intros _. split; [reflexivity|].
      eexists [_; _; _], _. reflexivity.
Qed.

(** X12.  When [socket] or [bind] returns a negative value, or [listen] a
    value other than 0, in a run of the server: what follows is the error
    line of that call and the line that the server failed to start, both on
    stderr, and nothing else; the run returns 1, and the socket stays
    open. *)
Theorem server_start_failure_is_fatal :
  forall (pf : platform) (argv : list cstr) (script : list response)
         (pre : list event) (c : syscall) (r : response) (post : list event)
         (msg : string),
    trace_of (Server.main pf argv script) = pre ++ Ev_sys c (Some r) :: post ->
    start_failure c r = Some msg ->
    post = [Ev_print stderr msg [];
            Ev_print stderr (line "ERROR: failed to start server") []] /\
    outcome_of (Server.main pf argv script) = Abrupt (Return 1) /\
    closes (trace_of (Server.main pf argv script)) = [].
Proof.
  intros pf argv script pre c r post msg Htrace Hfail.
  enough (Hall :
    at_each_event
      (fun _ e post =>
         forall c r msg,
           e = Ev_sys c (Some r) ->
           start_failure c r = Some msg ->
           post = [Ev_print stderr msg [];
                   Ev_print stderr (line "ERROR: failed to start server") []] /\
           outcome_of (Server.main pf argv script) = Abrupt (Return 1) /\
           closes (trace_of (Server.main pf argv script)) = [])
      (trace_of (Server.main pf argv script))).
  { exact (Hall pre _ post Htrace c r msg eq_refl Hfail). }
  clear.
  server_paths pf argv script.
  8:{ (* the server is listening: no call of the start fails *)
    assert (Hloop :
      at_each_event
        (fun _ e _ =>
           forall c r msg,
             e = Ev_sys c (Some r) -> start_failure c r = Some msg -> False)
        (trace_of
           (Server.accept_loop pf (S (length script)) (int_of (r_ret r1))
              script))).
    { pose proof (accept_loop_events pf (S (length script))
                    (int_of (r_ret r1)) script ltac:(lia)) as Hev.
      cbv zeta in Hev.
      intros pre e post Heq c r msg -> Hfail.
      specialize (Hev pre _ post Heq).
      destruct c; cbn [serve_event_ok start_failure] in *;
        try contradiction; discriminate Hfail. }
    assert (Hhead : forall c r msg,
      In (Ev_sys c (Some r))
        [Ev_sys (socket AF_INET SOCK_STREAM 0) (Some r1);
         Ev_sys (bind (int_of (r_ret r1))
                   (Sockaddr_in AF_INET (htons port_number)
                      (le_bytes 4 INADDR_ANY))) (Some r2);
         Ev_sys (listen (int_of (r_ret r1)) 5) (Some r3)] ->
      start_failure c r = Some msg -> False).
    { intros c r msg [H|[H|[H|[]]]] Hfail; injection H as <- <-;
        cbn [start_failure] in Hfail.
      - rewrite Hsock in Hfail. discriminate Hfail.
      - destruct (Z.ltb_spec (int_of (r_ret r2)) 0); [lia|].
        discriminate Hfail.
      - rewrite <- Hlisten in Hfail. discriminate Hfail. }
    destruct (server_serving_run pf (int_of (r_ret r1)) script)
      as [[Ho Hrun]|[Ho [x [Htr Hout]]]].
    - rewrite Hrun. observe_run.
      apply at_each_event_cons; [intros c r msg Heq; discriminate Heq|].
      do 3 (apply at_each_event_cons;
            [ intros c r msg Heq Hfail; exfalso;
              apply (Hhead c r msg); [rewrite Heq; simpl; auto | exact Hfail]
            |]).
      intros pre e post Heq c r msg He Hfail. exfalso.
      exact (Hloop pre e post Heq c r msg He Hfail).
    - rewrite Htr.
      apply at_each_event_cons; [intros c r msg Heq; discriminate Heq|].
      do 3 (apply at_each_event_cons;
            [ intros c r msg Heq Hfail; exfalso;
              apply (Hhead c r msg); [rewrite Heq; simpl; auto | exact Hfail]
            |]).
      apply at_each_event_app.
      + intros pre e post Heq c r msg He Hfail. exfalso.
        exact (Hloop pre e post Heq c r msg He Hfail).
      + apply at_each_event_cons; [|apply at_each_event_nil].
        intros c r msg Heq Hfail. injection Heq as <- _.
        discriminate Hfail. }
  all: repeat (apply at_each_event_cons;
               [ cbv beta; intros c0 r0 msg0 Heq Hfail0;
                 solve
                   [ discriminate Heq
                   | injection Heq as <- <-; cbn [start_failure] in Hfail0;
                     match type of Hfail0 with
                     | (if ?b then _ else _) = _ =>
                         destruct b eqn:Hb;
                         [injection Hfail0 as <- | discriminate Hfail0]
                     end;
                     first [ repeat split; reflexivity
                           | congruence
                           | apply Z.ltb_lt in Hb; lia
                           | apply Z.ltb_ge in Hb; lia
                           | destruct (Z.eqb_spec 0 (int_of (r_ret r0)));
                             [congruence | discriminate Hb] ] ]
               | ]).
  all: apply at_each_event_nil.
Qed.


Section NextClient.

Variable pf : platform.

(** The Echo Loop is left by [break] only behind a [recv] that returned
    0. *)
Lemma echo_loop_break fuel :
  forall client_sockfd echo_buffer script,
    (length script < fuel)%nat ->
    let run := Server.echo_loop pf fuel client_sockfd echo_buffer script in
    outcome_of run = Normal tt ->
    exists pre r,
      trace_of run
      = pre ++ [Ev_sys (recv client_sockfd 512 0) (Some r);
                Ev_print stdout closed_line []] /\
      int_of (r_ret r) = 0.
Proof.
  induction fuel as [|fuel IH]; intros client_sockfd echo_buffer script Hfuel;
    [simpl in Hfuel; lia|].
  cbv zeta.
  destruct script as [|r script].
  { rewrite echo_loop_blocked. observe_run. discriminate. }
  rewrite echo_loop_step. cbv zeta. simpl in Hfuel.
  destruct (Z.eqb_spec 0 (int_of (r_ret r))) as [Hzero|Hnz].
  { observe_run. intros _. exists [], r. split; [reflexivity | lia]. }
  destruct (int_of (r_ret r) <? 0).
  { observe_run. discriminate. }
  destruct script as [|r' script].
  { observe_run. discriminate. }
  simpl in Hfuel.
  destruct (int_of (r_ret r') <? 0).
  { observe_run. discriminate. }
  specialize (IH client_sockfd
                (store_bytes echo_buffer
                   (firstn (Z.to_nat Server.echo_buffer_len) (r_bytes r)))
                script ltac:(lia)).
  cbv zeta in IH.
  destruct (Server.echo_loop pf fuel client_sockfd
              (store_bytes echo_buffer
                 (firstn (Z.to_nat Server.echo_buffer_len) (r_bytes r)))
              script) as [[o t'] rest].
  cbn [trace_of outcome_of fst snd] in IH.
  observe_run. intros Ho. destruct (IH Ho) as [pre [r0 [-> Hr0]]].
  eexists (_ :: _ :: pre), r0. split; [reflexivity | exact Hr0].
Qed.

(** Every [accept] of the accept loop but the first comes right behind the
    end of an Echo Loop by [break]. *)
Lemma accept_loop_next_client fuel :
  forall server_sockfd script,
    (length script < fuel)%nat ->
    at_each_event
      (fun pre e _ =>
         forall fd x,
           e = Ev_sys (accept fd) x ->
           pre = [] \/
           exists pre' client_sockfd r,
             pre = pre' ++ [Ev_sys (recv client_sockfd 512 0) (Some r);
                            Ev_print stdout closed_line []] /\
             int_of (r_ret r) = 0 /\
             exists earlier, accepted pre = earlier ++ [client_sockfd])
      (trace_of (Server.accept_loop pf fuel server_sockfd script)).
Proof.
  induction fuel as [|fuel IH]; intros server_sockfd script Hfuel;
    [simpl in Hfuel; lia|].
  destruct script as [|r script].
  { rewrite accept_loop_blocked. observe_run.
    apply at_each_event_cons; [auto | apply at_each_event_nil]. }
  rewrite accept_loop_step. cbv zeta. simpl in Hfuel.
  destruct (Z.ltb_spec (int_of (r_ret r)) 0) as [Hneg|Hok].
  { observe_run.
    apply at_each_event_cons; [auto|].
    apply at_each_event_cons; [|apply at_each_event_nil].
    intros fd x Heq. discriminate Heq. }
  assert (Hr : (int_of (r_ret r) <? 0) = false) by (apply Z.ltb_ge; lia).
  rewrite bnd_eq.
  pose proof (echo_loop_reads pf fuel (int_of (r_ret r))
                (repeat x00 (Z.to_nat Server.echo_buffer_len)) script
                ltac:(lia)) as Hreads.
  pose proof (echo_loop_events pf fuel (int_of (r_ret r))
                (repeat x00 (Z.to_nat Server.echo_buffer_len)) script
                ltac:(lia)) as Hecho.
  pose proof (echo_loop_break fuel (int_of (r_ret r))
                (repeat x00 (Z.to_nat Server.echo_buffer_len)) script
                ltac:(lia)) as Hbreak.
  cbv zeta in Hreads, Hecho, Hbreak.
  destruct Hreads as [_ [_ [Hlen Hout]]].
  destruct Hecho as [Hev [Hacc _]].
  destruct (Server.echo_loop pf fuel (int_of (r_ret r))
              (repeat x00 (Z.to_nat Server.echo_buffer_len)) script)
    as [[oE tE] restE].
  cbn [outcome_of trace_of rest_of fst snd] in Hlen, Hout, Hev, Hacc, Hbreak.
  assert (Hnone : forall pre e post fd x,
             tE = pre ++ e :: post -> e <> Ev_sys (accept fd) x).
  { intros pre e post fd x Heq ->.
    exact (Hev pre _ post Heq). }
  destruct Hout as [Ho|Ho].
  - (* the Echo Loop was left by [break] *)
    subst oE. destruct (Hbreak eq_refl) as [preE [r0 [HtE Hr0]]].
    specialize (IH server_sockfd restE ltac:(lia)).
    observe_run.
    destruct (Server.accept_loop pf fuel server_sockfd restE)
      as [[oA tA] restA].
    cbn [outcome_of trace_of fst snd] in IH |- *.
    apply at_each_event_cons; [auto|].
    apply at_each_event_cons; [intros fd x Heq; discriminate Heq|].
    apply at_each_event_app.
    + intros pre e post Heq fd x He. exfalso.
      exact (Hnone pre e post fd x Heq He).
    + intros pre e post Heq fd x He. right.
      destruct (IH pre e post Heq fd x He)
        as [->|(pre' & cfd & r' & -> & Hr' & earlier & Hearlier)].
      * exists (Ev_sys (accept server_sockfd) (Some r)
                :: Ev_print stdout connected_line
                     [Arg_int (int_of (r_ret r));
                      Arg_int (sin_port (r_peer r))]
                :: preE), (int_of (r_ret r)), r0.
        rewrite app_nil_r, HtE. split; [reflexivity|]. split; [exact Hr0|].
        exists []. rewrite <- HtE. cbn [accepted]. rewrite Hr, Hacc.
        reflexivity.
      * exists (Ev_sys (accept server_sockfd) (Some r)
                :: Ev_print stdout connected_line
                     [Arg_int (int_of (r_ret r));
                      Arg_int (sin_port (r_peer r))]
                :: tE ++ pre'), cfd, r'.
        split; [cbn [app]; rewrite <- app_assoc; reflexivity|].
        split; [exact Hr'|].
        exists (int_of (r_ret r) :: earlier).
        cbn [accepted]. rewrite Hr, accepted_app, Hacc. cbn [app].
        rewrite Hearlier. reflexivity.
  - (* the Echo Loop was left for [cleanup], or is blocked *)
    assert (Hab : exists x, oE = Abrupt x) by (destruct Ho; eauto).
    destruct Hab as [x ->]. observe_run.
    apply at_each_event_cons; [auto|].
    apply at_each_event_cons; [intros fd y Heq; discriminate Heq|].
    intros pre e post Heq fd y He. exfalso.
    exact (Hnone pre e post fd y Heq He).
Qed.

End NextClient.

(** X14.  The server turns to the next client only when the one before has
    closed the connection.  Wherever a run calls [accept]: either it is
    the first [accept], right behind the [listen] on the same socket, or
    it comes right behind a [recv] on the socket accepted last that
    returned 0 and the line that the connection was closed. *)
Theorem server_accepts_again_only_after_close :
  forall (pf : platform) (argv : list cstr) (script : list response)
         (pre : list event) (fd : Z) (x : option response)
         (post : list event),
    trace_of (Server.main pf argv script)
    = pre ++ Ev_sys (accept fd) x :: post ->
    (accepted pre = [] /\
     exists pre' rl, pre = pre' ++ [Ev_sys (listen fd 5) (Some rl)])
    \/
    (exists pre' client_sockfd r,
        pre = pre' ++ [Ev_sys (recv client_sockfd 512 0) (Some r);
                       Ev_print stdout closed_line []] /\
        int_of (r_ret r) = 0 /\
        exists earlier, accepted pre = earlier ++ [client_sockfd]).
Proof.
  intros pf argv script pre fd x post Htrace.
  enough (Hall :
    at_each_event
      (fun pre e _ =>
         forall fd x,
           e = Ev_sys (accept fd) x ->
           (accepted pre = [] /\
            exists pre' rl, pre = pre' ++ [Ev_sys (listen fd 5) (Some rl)])
           \/
           (exists pre' client_sockfd r,
               pre = pre' ++ [Ev_sys (recv client_sockfd 512 0) (Some r);
                              Ev_print stdout closed_line []] /\
               int_of (r_ret r) = 0 /\
               exists earlier, accepted pre = earlier ++ [client_sockfd]))
      (trace_of (Server.main pf argv script))).
  { exact (Hall pre _ post Htrace fd x eq_refl). }
  clear.
  server_paths pf argv script.
  8:{ (* the server is listening *)
    pose proof (accept_loop_next_client pf (S (length script))
                  (int_of (r_ret r1)) script ltac:(lia)) as Hnext.
    pose proof (accept_loop_events pf (S (length script))
                  (int_of (r_ret r1)) script ltac:(lia)) as Hev.
    cbv zeta in Hev.
    assert (Hloop :
      at_each_event
        (fun pre e _ =>
           forall fd x,
             e = Ev_sys (accept fd) x ->
             fd = int_of (r_ret r1) /\
             (pre = [] \/
              exists pre' client_sockfd r,
                pre = pre' ++ [Ev_sys (recv client_sockfd 512 0) (Some r);
                               Ev_print stdout closed_line []] /\
                int_of (r_ret r) = 0 /\
                exists earlier, accepted pre = earlier ++ [client_sockfd]))
        (trace_of
           (Server.accept_loop pf (S (length script)) (int_of (r_ret r1))
              script))).
    { intros pre e post Heq fd x ->. split.
      - exact (proj1 (Hev pre _ post Heq)).
      - exact (Hnext pre _ post Heq fd x eq_refl). }
    clear Hnext Hev.
    assert (Hlift : forall pre e post fd x,
      trace_of
        (Server.accept_loop pf (S (length script)) (int_of (r_ret r1)) script)
      = pre ++ e :: post ->
      e = Ev_sys (accept fd) x ->
      forall e1 e2 e3 rl,
        (accepted (e1 :: e2 :: e3
                   :: Ev_sys (listen (int_of (r_ret r1)) 5) (Some rl) :: pre)
         = accepted pre) ->
        (accepted (e1 :: e2 :: e3
                   :: Ev_sys (listen (int_of (r_ret r1)) 5) (Some rl) :: pre)
         = [] /\
         exists pre' rl0,
           e1 :: e2 :: e3
           :: Ev_sys (listen (int_of (r_ret r1)) 5) (Some rl) :: pre
           = pre' ++ [Ev_sys (listen fd 5) (Some rl0)])
        \/
        (exists pre' client_sockfd r,
            e1 :: e2 :: e3
            :: Ev_sys (listen (int_of (r_ret r1)) 5) (Some rl) :: pre
            = pre' ++ [Ev_sys (recv client_sockfd 512 0) (Some r);
                       Ev_print stdout closed_line []] /\
            int_of (r_ret r) = 0 /\
            exists earlier,
              accepted (e1 :: e2 :: e3
                        :: Ev_sys (listen (int_of (r_ret r1)) 5) (Some rl)
                        :: pre)
              = earlier ++ [client_sockfd])).
    { intros pre e post fd x Heq He e1 e2 e3 rl Hacc.
      destruct (Hloop pre e post Heq fd x He)
        as [-> [->|(pre' & cfd & r & -> & Hr & earlier & Hearlier)]].
      - left. split; [rewrite Hacc; reflexivity|].
        exists [e1; e2; e3], rl. reflexivity.
      - right. exists (e1 :: e2 :: e3
                       :: Ev_sys (listen (int_of (r_ret r1)) 5) (Some rl)
                       :: pre'), cfd, r.
        split; [reflexivity|]. split; [exact Hr|].
        exists earlier. rewrite Hacc. exact Hearlier. }
    destruct (server_serving_run pf (int_of (r_ret r1)) script)
      as [[Ho Hrun]|[Ho [x [Htr Hout]]]].
    - rewrite Hrun. observe_run.
      do 4 (apply at_each_event_cons;
            [intros fd x Heq; discriminate Heq|]).
      intros pre e post Heq fd x He. cbv beta.
      apply (Hlift pre e post fd x Heq He). reflexivity.
    - rewrite Htr.
      do 4 (apply at_each_event_cons;
            [intros fd y Heq; discriminate Heq|]).
      apply at_each_event_app.
      + intros pre e post Heq fd y He. cbv beta.
        apply (Hlift pre e post fd y Heq He). reflexivity.
      + apply at_each_event_cons; [|apply at_each_event_nil].
        intros fd y Heq. discriminate Heq. }
  all: repeat (apply at_each_event_cons;
               [intros fd x Heq; discriminate Heq|]).
  all: apply at_each_event_nil.
Qed.

(** X15.  The server's "--hostname" option changes nothing but the line
    that announces the server.  Two command lines that give the same port,
    above 0, lead to the same run against the same environment: the same
    events behind the announcement, the same outcome, the same responses
    left. *)
Theorem server_hostname_changes_only_the_announcement :
  forall (pf : platform) (argv1 argv2 : list cstr) (script : list response)
         (hostname1 hostname2 : cstr) (port : Z),
    (2 <= length argv1)%nat ->
    (2 <= length argv2)%nat ->
    Server.parse_args pf argv1 = Parsed (Server.Locals hostname1 port) ->
    Server.parse_args pf argv2 = Parsed (Server.Locals hostname2 port) ->
    0 < port ->
    exists t,
      trace_of (Server.main pf argv1 script)
      = Ev_print stdout (line "Starting server at %s:%d")
          [str_arg hostname1; Arg_int port] :: t /\
      trace_of (Server.main pf argv2 script)
      = Ev_print stdout (line "Starting server at %s:%d")
          [str_arg hostname2; Arg_int port] :: t /\
      outcome_of (Server.main pf argv1 script)
      = outcome_of (Server.main pf argv2 script) /\
      rest_of (Server.main pf argv1 script)
      = rest_of (Server.main pf argv2 script).
Proof.
  intros pf argv1 argv2 script hostname1 hostname2 port H1 H2 Hp1 Hp2 Hport.
  unfold Server.main. rewrite Hp1, Hp2.
  replace (Z.of_nat (length argv1) <? 2) with false
    by (symmetry; apply Z.ltb_ge; lia).
  replace (Z.of_nat (length argv2) <? 2) with false
    by (symmetry; apply Z.ltb_ge; lia).
  replace (port <=? 0) with false by (symmetry; apply Z.leb_gt; lia).
  rewrite !bnd_printf. observe_run.
  eexists. repeat split; reflexivity.
Qed.

(** X17.  Wherever a run of the server calls [close]: it is the last thing
    the run does, nothing was closed before it, and the socket closed is
    the one the run listens on.  No other descriptor is ever closed. *)
Theorem server_close_is_the_last_call :
  forall (pf : platform) (argv : list cstr) (script : list response)
         (pre : list event) (fd : Z) (x : option response)
         (post : list event),
    trace_of (Server.main pf argv script)
    = pre ++ Ev_sys (close fd) x :: post ->
    post = [] /\
    closes pre = [] /\
    exists rl, In (Ev_sys (listen fd 5) (Some rl)) pre.
Proof.
  intros pf argv script pre fd x post Htrace.
  pose proof (server_closes_only_listening_socket pf argv script) as H.
  cbv zeta in H. rewrite Htrace in H.
  destruct H as [Hnone|(pre0 & sfd & rl & x0 & Heq & Hcl & Hin)].
  - rewrite closes_app in Hnone. apply app_eq_nil in Hnone.
    destruct Hnone as [_ Hbad]. discriminate Hbad.
  - destruct (exists_last (l := Ev_sys (close fd) x :: post))
      as [body [e Hlast]]; [discriminate|].
    rewrite Hlast, app_assoc in Heq.
    apply app_inj_tail in Heq. destruct Heq as [Hpre0 He]. subst e pre0.
    destruct post as [|e post].
    + change [Ev_sys (close fd) x] with ([] ++ [Ev_sys (close fd) x]) in Hlast.
      apply app_inj_tail in Hlast. destruct Hlast as [<- Hev].
      injection Hev as <- _. rewrite app_nil_r in Hcl, Hin.
      split; [reflexivity|]. split; [exact Hcl|]. exists rl. exact Hin.
    + exfalso. destruct body as [|b body].
      * discriminate Hlast.
      * injection Hlast as <- _.
        rewrite closes_app in Hcl. apply app_eq_nil in Hcl.
        destruct Hcl as [_ Hbad]. discriminate Hbad.
Qed.

(* ================================================================== *)
(** ** The further theorems at the scenarios *)

Lemma client_parse_args_left_to_right_witness :
  Client.parse_args lp64
    (client_argv_before_flag ++ [Cstr 0x7ffd8a2be5cc "8080"])
  = Parsed (Client.Locals (Cstr 0x4009c4 "localhost")
              (Cstr 0x4009ce "hello world") 8080)
  /\
  Client.parse_args lp64
    (client_argv_before_flag ++ [trailing_message_flag; hello_message])
  = Parsed (Client.Locals (Cstr 0x4009c4 "localhost") hello_message 9000).
Proof.
  destruct (client_parse_args_left_to_right lp64) as [_ H].
  destruct (H client_argv_before_flag
              (Client.Locals (Cstr 0x4009c4 "localhost")
                 (Cstr 0x4009ce "hello world") 9000)
              ltac:(simpl; lia) ltac:(reflexivity))
    as [Hport [_ Hmessage]].
  split.
  - apply (Hport (Cstr 0x7ffd8a2be5cc "8080")); simpl; discriminate.
  - apply (Hmessage trailing_message_flag hello_message). reflexivity.
Defined.

Lemma server_parse_args_left_to_right_witness :
  Server.parse_args lp64
    (server_argv_before_flag ++ [Cstr 0x7ffc3b1d2f3c "8080"])
  = Parsed (Server.Locals (Cstr 0x4009c4 "localhost") 8080)
  /\
  Server.parse_args lp64
    (server_argv_before_flag
     ++ [trailing_hostname_flag; Cstr 0x7ffc3b1d2f47 "0.0.0.0"])
  = Parsed (Server.Locals (Cstr 0x7ffc3b1d2f47 "0.0.0.0") 9000).
Proof.
  destruct (server_parse_args_left_to_right lp64) as [_ H].
  destruct (H server_argv_before_flag
              (Server.Locals (Cstr 0x4009c4 "localhost") 9000)
              ltac:(simpl; lia) ltac:(reflexivity))
    as [Hport Hhostname].
  split.
  - apply (Hport (Cstr 0x7ffc3b1d2f3c "8080")); simpl; discriminate.
  - apply (Hhostname trailing_hostname_flag (Cstr 0x7ffc3b1d2f47 "0.0.0.0")).
    reflexivity.
Defined.


Lemma client_returns_0_iff_full_exchange_witness :
  outcome_of (Client.main lp64 hello_argv hello_script) = Abrupt (Return 0).
Proof.
  apply (client_returns_0_iff_full_exchange lp64 hello_argv hello_script
           hello_locals ltac:(reflexivity) ltac:(simpl; lia)).
  exists (returns 3), (returns_bytes 1 loopback), (returns 0), (returns 11),
    [returns_bytes 11 hello_sent].
  split; [reflexivity|].
  split; [vm_compute; discriminate|].
  split; [vm_compute; discriminate|].
  split; [vm_compute; discriminate|].
  split; [vm_compute; discriminate|].
  split; [reflexivity|].
  right. exists (returns_bytes 11 hello_sent), []. split; reflexivity.
Defined.

Lemma client_failed_call_is_fatal_witness :
  skipn 4 (trace_of (Client.main lp64 hello_argv connect_refused_script))
  = [Ev_print stderr (line "ERROR connecting to server") []]
  /\
  outcome_of (Client.main lp64 hello_argv connect_refused_script)
  = Abrupt (Return 1).
Proof.
  apply (client_failed_call_is_fatal lp64 hello_argv connect_refused_script
           (firstn 3 (trace_of (Client.main lp64 hello_argv
                                  connect_refused_script)))
           (connect 3 (Sockaddr_in AF_INET (htons 9000) loopback))
           (returns (-1))
           (skipn 4 (trace_of (Client.main lp64 hello_argv
                                 connect_refused_script)))).
  - vm_compute. reflexivity.
  - reflexivity.
Defined.

Lemma recv_loop_keeps_buffer_nul_terminated_witness :
  length [x72; x6c; x64; x6f; x00] = length (repeat x00 5)
  /\
  nth_error [x72; x6c; x64; x6f; x00] (Z.to_nat 4) = Some x00
  /\
  hello_sent ++ [x00] = r_bytes (returns_bytes 11 hello_sent) ++ [x00].
Proof.
  destruct (recv_loop_keeps_buffer_nul_terminated lp64 4 3 11 4 0
              (repeat x00 5) chunked_script 11 [x72; x6c; x64; x6f; x00]
              ltac:(lia) ltac:(unfold INT_MAX; lia) ltac:(lia)
              ltac:(reflexivity) ltac:(reflexivity))
    as [Hlen [Hnul _]].
  destruct (recv_loop_keeps_buffer_nul_terminated lp64 2 3 11 11 0
              (repeat x00 12) [returns_bytes 11 hello_sent] 11
              (hello_sent ++ [x00])
              ltac:(lia) ltac:(unfold INT_MAX; lia) ltac:(lia)
              ltac:(reflexivity) ltac:(reflexivity))
    as [_ [_ Hwhole]].
  split; [exact Hlen|]. split; [apply Hnul; lia|].
  apply (Hwhole (returns_bytes 11 hello_sent) []); try reflexivity; lia.
Defined.

Lemma server_echoes_what_it_received_witness :
  exists pre' r,
    firstn 7 (trace_of (Server.main lp64 server_argv two_clients_script))
    = pre' ++ [Ev_sys (recv 4 512 0) (Some r)] /\
    (exists earlier,
        accepted
          (firstn 7 (trace_of (Server.main lp64 server_argv
                                 two_clients_script)))
        = earlier ++ [4]) /\
    0 < int_of (r_ret r) /\
    5 = int_of (r_ret r) /\
    0 = 0 /\
    (Z.of_nat (length (r_bytes r)) = int_of (r_ret r) ->
     int_of (r_ret r) <= 512 ->
     hello = r_bytes r).
Proof.
  apply (server_echoes_what_it_received lp64 server_argv two_clients_script
           (firstn 7 (trace_of (Server.main lp64 server_argv
                                  two_clients_script)))
           4 hello 5 0 (Some (returns 5))
           (skipn 8 (trace_of (Server.main lp64 server_argv
                                 two_clients_script)))).
  vm_compute. reflexivity.
Defined.

Lemma server_failed_accept_or_send_is_fatal_witness :
  exists server_sockfd rl x,
    In (Ev_sys (listen server_sockfd 5) (Some rl))
       (firstn 14 (trace_of (Server.main lp64 server_argv two_clients_script)))
    /\
    skipn 15 (trace_of (Server.main lp64 server_argv two_clients_script))
    = [Ev_print stderr accept_failed_line [];
       Ev_sys (close server_sockfd) x]
    /\
    outcome_of (Server.main lp64 server_argv two_clients_script) =
    match x with
    | Some _ => Abrupt (Return 1)
    | None => Abrupt Blocked
    end.
Proof.
  apply (server_failed_accept_or_send_is_fatal lp64 server_argv
           two_clients_script
           (firstn 14 (trace_of (Server.main lp64 server_argv
                                   two_clients_script)))
           (accept 3) (returns (-1))
           (skipn 15 (trace_of (Server.main lp64 server_argv
                                  two_clients_script)))
           accept_failed_line).
  - vm_compute. reflexivity.
  - vm_compute. reflexivity.
  - left. exists 3. split; reflexivity.
Defined.

Lemma server_serves_the_client_accepted_last_witness :
  (exists rl,
      In (Ev_sys (listen 3 5) (Some rl))
         (firstn 4 (trace_of (Server.main lp64 server_argv
                                two_clients_script))))
  /\
  (exists y post',
      skipn 5 (trace_of (Server.main lp64 server_argv two_clients_script))
      = Ev_print stdout connected_line
          [Arg_int (int_of (r_ret (returns_peer 4 peer_a)));
           Arg_int (sin_port (r_peer (returns_peer 4 peer_a)))]
        :: Ev_sys (recv (int_of (r_ret (returns_peer 4 peer_a))) 512 0) y
        :: post').
Proof.
  destruct (server_serves_the_client_accepted_last lp64 server_argv
              two_clients_script
              (firstn 4 (trace_of (Server.main lp64 server_argv
                                     two_clients_script)))
              (accept 3) (Some (returns_peer 4 peer_a))
              (skipn 5 (trace_of (Server.main lp64 server_argv
                                    two_clients_script)))
              ltac:(vm_compute; reflexivity)) as [Haccept _].
  destruct (Haccept 3 eq_refl) as [Hlisten Hnext].
  split; [exact Hlisten|].
  apply (Hnext (returns_peer 4 peer_a) eq_refl). vm_compute. discriminate.
Defined.

Lemma start_server_returns_0_iff_listening_witness :
  closes
    (trace_of
       (Server.start_server (Cstr 1 "localhost") 9000 5 true
          listen_witness_script)) = []
  /\
  exists r1 r2 r3,
    trace_of
      (Server.start_server (Cstr 1 "localhost") 9000 5 true
         listen_witness_script)
    = [Ev_sys (socket AF_INET SOCK_STREAM 0) (Some r1);
       Ev_sys (bind (int_of (r_ret r1))
                 (Sockaddr_in AF_INET (htons 9000) (le_bytes 4 INADDR_ANY)))
         (Some r2);
       Ev_sys (listen (int_of (r_ret r1)) 5) (Some r3)] /\
    Some 3 = Some (int_of (r_ret r1)) /\
    listen_witness_script
    = r1 :: r2 :: r3
      :: rest_of
           (Server.start_server (Cstr 1 "localhost") 9000 5 true
              listen_witness_script).
Proof.
  destruct (start_server_returns_0_iff_listening (Cstr 1 "localhost") 9000 5
              true listen_witness_script 0 (Some 3) ltac:(reflexivity))
    as [Hcl [_ [Hok _]]].
  split; [exact Hcl|]. apply Hok. reflexivity.
Defined.

Lemma server_start_failure_is_fatal_witness :
  skipn 3 (trace_of (Server.main lp64 server_argv bind_refused_script))
  = [Ev_print stderr (line "ERROR on binding listening socket") [];
     Ev_print stderr (line "ERROR: failed to start server") []]
  /\
  outcome_of (Server.main lp64 server_argv bind_refused_script)
  = Abrupt (Return 1)
  /\
  closes (trace_of (Server.main lp64 server_argv bind_refused_script)) = [].
Proof.
  apply (server_start_failure_is_fatal lp64 server_argv bind_refused_script
           (firstn 2 (trace_of (Server.main lp64 server_argv
                                  bind_refused_script)))
           (bind 3 wildcard_9000) (returns (-1))
           (skipn 3 (trace_of (Server.main lp64 server_argv
                                 bind_refused_script)))).
  - vm_compute. reflexivity.
  - reflexivity.
Defined.


Lemma server_accepts_again_only_after_close_witness :
  (accepted
     (firstn 10 (trace_of (Server.main lp64 server_argv two_clients_script)))
   = [] /\
   exists pre' rl,
     firstn 10 (trace_of (Server.main lp64 server_argv two_clients_script))
     = pre' ++ [Ev_sys (listen 3 5) (Some rl)])
  \/
  (exists pre' client_sockfd r,
      firstn 10 (trace_of (Server.main lp64 server_argv two_clients_script))
      = pre' ++ [Ev_sys (recv client_sockfd 512 0) (Some r);
                 Ev_print stdout closed_line []] /\
      int_of (r_ret r) = 0 /\
      exists earlier,
        accepted
          (firstn 10 (trace_of (Server.main lp64 server_argv
                                  two_clients_script)))
        = earlier ++ [client_sockfd]).
Proof.
  apply (server_accepts_again_only_after_close lp64 server_argv
           two_clients_script
           (firstn 10 (trace_of (Server.main lp64 server_argv
                                   two_clients_script)))
           3 (Some (returns_peer 5 peer_b))
           (skipn 11 (trace_of (Server.main lp64 server_argv
                                  two_clients_script)))).
  vm_compute. reflexivity.
Defined.

Lemma server_hostname_changes_only_the_announcement_witness :
  exists t,
    trace_of (Server.main lp64 server_argv listen_witness_script)
    = Ev_print stdout (line "Starting server at %s:%d")
        [str_arg (Cstr 0x4009c4 "localhost"); Arg_int 9000] :: t /\
    trace_of
      (Server.main lp64
         (server_argv_before_flag
          ++ [trailing_hostname_flag; Cstr 0x7ffc3b1d2f47 "0.0.0.0"])
         listen_witness_script)
    = Ev_print stdout (line "Starting server at %s:%d")
        [str_arg (Cstr 0x7ffc3b1d2f47 "0.0.0.0"); Arg_int 9000] :: t /\
    outcome_of (Server.main lp64 server_argv listen_witness_script)
    = outcome_of
        (Server.main lp64
           (server_argv_before_flag
            ++ [trailing_hostname_flag; Cstr 0x7ffc3b1d2f47 "0.0.0.0"])
           listen_witness_script) /\
    rest_of (Server.main lp64 server_argv listen_witness_script)
    = rest_of
        (Server.main lp64
           (server_argv_before_flag
            ++ [trailing_hostname_flag; Cstr 0x7ffc3b1d2f47 "0.0.0.0"])
           listen_witness_script).
Proof.
  apply (server_hostname_changes_only_the_announcement lp64 server_argv
           (server_argv_before_flag
            ++ [trailing_hostname_flag; Cstr 0x7ffc3b1d2f47 "0.0.0.0"])
           listen_witness_script
           (Cstr 0x4009c4 "localhost") (Cstr 0x7ffc3b1d2f47 "0.0.0.0") 9000).
  - simpl. lia.
  - simpl. lia.
  - reflexivity.
  - reflexivity.
  - lia.
Defined.

Lemma server_close_is_the_last_call_witness :
  skipn 17 (trace_of (Server.main lp64 server_argv two_clients_script)) = []
  /\
  closes
    (firstn 16 (trace_of (Server.main lp64 server_argv two_clients_script)))
  = []
  /\
  exists rl,
    In (Ev_sys (listen 3 5) (Some rl))
       (firstn 16 (trace_of (Server.main lp64 server_argv
                               two_clients_script))).
Proof.
  apply (server_close_is_the_last_call lp64 server_argv two_clients_script
           (firstn 16 (trace_of (Server.main lp64 server_argv
                                   two_clients_script)))
           3 (Some (returns 0))
           (skipn 17 (trace_of (Server.main lp64 server_argv
                                  two_clients_script)))).
  vm_compute. reflexivity.
Defined.
